(** * A custodial wallet ledger (NestJS / Prisma / Paystack): shallow embedding

    The development follows the TypeScript sources:

    - [src/paystack/paystack.service.ts]   ([PaystackService])
    - [src/wallet/wallet.service.ts]       ([WalletService])
    - [src/wallet/wallet.controller.ts]    ([WalletController])
    - [src/common/services/api-key.service.ts] ([ApiKeyService], [ApiKeyGuard])
    - [src/common/guards/jwt-auth.guard.ts]    ([JwtAuthGuard])
    - [src/common/controllers/api-key.controller.ts] ([ApiKeyController])

    Part I embeds the pieces of the JavaScript run time the services call
    (Numbers, strings, [JSON.parse] / [JSON.stringify], [Date], HMAC-SHA512),
    the Prisma tables as lists of rows, and then the services themselves,
    written in a small state-and-exception monad so that each definition
    reads like the [async] method it comes from.  Part II states and proves
    the properties.

    Conventions.
    - Money amounts and balances are JavaScript Numbers: IEEE 754 binary64
      values with the arithmetic of [SpecFloat] (round to nearest, ties to
      even).  Integers are exact up to [2 ^ 53 - 1] in magnitude.
    - A time value is the number of milliseconds since the epoch ([Z]), as
      returned by [Date.prototype.getTime]; the range limit of [Date]
      (8.64e15 ms either side of the epoch) is not represented.  The zone of
      the host is any offset rule [LocalTZA].
    - A string is the sequence of the bytes of its UTF-8 form (a surrogate
      that is not part of a pair takes the three bytes of its value).
    - Logging has no effect on the store or on a result and is left out. *)

From Stdlib Require Import ZArith List String Ascii Bool Lia DecimalString.
From Stdlib Require Import DecimalZ Permutation Sorted SpecFloat.
Import ListNotations.
Open Scope Z_scope.
Set Warnings "-register-all".
Set Implicit Arguments.

Notation "a +++ b" := (String.append a b) (at level 60, right associativity).

(* ===================================================================== *)
(** * Part I: definitions *)
(* ===================================================================== *)

(** ** JavaScript numbers: IEEE 754 binary64 *)

Module JsNumber.

(** A Number is an IEEE 754 binary64 value. *)
Definition prec : Z := 53.
Definition emax : Z := 1024.
Definition number : Type := spec_float.

Definition NaN : number := S754_nan.
Definition zero : number := S754_zero false.

(** [𝔽(n)]: the Number nearest to the integer [n]. *)
Definition of_Z (n : Z) : number := binary_normalize prec emax n 0 false.

(** [x + y], [x - y], [x * y]. *)
Definition add : number -> number -> number := SFadd prec emax.
Definition sub : number -> number -> number := SFsub prec emax.
Definition mul : number -> number -> number := SFmul prec emax.

(** A finite Number as an integer times a power of two: the signed
    mantissa at exponent [ez], for [ez] not above the exponent of [x]. *)
Definition exponent (x : number) : Z :=
  match x with S754_finite _ _ e => e | _ => 0 end.

Definition aligned (ez : Z) (x : number) : Z :=
  match x with
  | S754_finite s m e => cond_Zopp s (Zpos m * 2 ^ (e - ez))
  | _ => 0
  end.

(** [x < y]: false when either is NaN, otherwise the order of the values
    (the two zeros are equal). *)
Definition lt (x y : number) : bool :=
  match x, y with
  | S754_nan, _ | _, S754_nan => false
  | S754_infinity sx, S754_infinity sy => (sx && negb sy)%bool
  | S754_infinity sx, _ => sx
  | _, S754_infinity sy => negb sy
  | _, _ =>
      let ez := Z.min (exponent x) (exponent y) in
      aligned ez x <? aligned ez y
  end.

(** [x <= y]. *)
Definition le (x y : number) : bool :=
  match x, y with
  | S754_nan, _ | _, S754_nan => false
  | _, _ => negb (lt y x)
  end.

Definition is_finite (x : number) : bool :=
  match x with
  | S754_zero _ | S754_finite _ _ _ => true
  | _ => false
  end.

(** The integer part of a finite Number (towards zero); 0 otherwise. *)
Definition to_Z (x : number) : Z :=
  match x with
  | S754_finite s m e => cond_Zopp s (Z.shiftl (Zpos m) e)
  | _ => 0
  end.

(** [Math.round (x)]: the nearest integer, a tie going up; an integer, an
    infinity and NaN are returned as they are; the sign of a zero result is
    that of [x]. *)
Definition Math_round (x : number) : number :=
  match x with
  | S754_finite s m e =>
      if 0 <=? e then x
      else
        let n := (2 * cond_Zopp s (Zpos m) + 2 ^ (- e)) / 2 ^ (1 - e) in
        if n =? 0 then S754_zero s else of_Z n
  | _ => x
  end.

(** [Number.MAX_SAFE_INTEGER]. *)
Definition max_safe : Z := 2 ^ 53 - 1.

(** An integer with its sign apart, and the canonical form of the Number
    for a positive integer below [2 ^ 53]: a mantissa of 53 bits. *)
Definition signed (s : bool) (n : Z) : Z := cond_Zopp s n.

Definition canon (s : bool) (n : Z) : number :=
  let d := Z.log2 n + 1 in
  S754_finite s (Z.to_pos (n * 2 ^ (53 - d))) (d - 53).

(** The sign of a Number that is not NaN; a zero counts as not negative. *)
Definition sign_is (s : bool) (x : number) : Prop :=
  match x with
  | S754_nan => False
  | S754_zero _ => s = false
  | S754_infinity s' | S754_finite s' _ _ => s' = s
  end.

End JsNumber.

(** ** JavaScript strings *)

Module Js.

Definition dquote : ascii := ascii_of_nat 34.
Definition backslash : ascii := ascii_of_nat 92.

(** [`${n}`] for an integer [n]. *)
Definition string_of_Z (n : Z) : string := NilEmpty.string_of_int (Z.to_int n).

Definition code (c : ascii) : Z := Z.of_nat (nat_of_ascii c).
Definition char (n : Z) : ascii := ascii_of_nat (Z.to_nat n).

(** [n] copies of the digit zero. *)
Definition zeros (n : Z) : string :=
  string_of_list_ascii (repeat "0"%char (Z.to_nat n)).

(** *** [Number::toString] (radix 10) *)

Section Shortest.

(** The number is [m * 2 ^ e] in canonical form.  All quantities are kept as
    numerators over the common denominator [den], in units of a quarter of
    the last place. *)
Variables (m : positive) (e : Z).

Definition den : Z := if 2 <=? e then 1 else 2 ^ (2 - e).
Definition scale : Z := if 2 <=? e then 2 ^ (e - 2) else 1.

Definition value : Z := 4 * Zpos m * scale.
(** Half way to the next number up, and half way to the next number down
    (which is nearer when [m] is the least mantissa of its binade). *)
Definition upper : Z := (4 * Zpos m + 2) * scale.
Definition lower : Z :=
  (if ((Zpos m =? 2 ^ 52) && (- 1074 <? e))%bool then 4 * Zpos m - 1
   else 4 * Zpos m - 2) * scale.

(** [10 ^ p <= x]. *)
Definition at_least_pow10 (p : Z) : bool :=
  if 0 <=? p then 10 ^ p * den <=? value else den <=? value * 10 ^ (- p).

(** The [n] with [10 ^ (n - 1) <= x < 10 ^ n]. *)
Definition magnitude : Z :=
  let g := (Z.log2 value - Z.log2 den) * 30103 / 100000 in
  if at_least_pow10 (g + 1) then g + 2
  else if at_least_pow10 g then g + 1
  else g.

(** [s * 10 ^ u] and a numerator [v], brought to one denominator. *)
Definition decimal (s u : Z) : Z := if 0 <=? u then s * 10 ^ u * den else s * den.
Definition binary (v u : Z) : Z := if 0 <=? u then v else v * 10 ^ (- u).

(** [s * 10 ^ u] is read back as the number: it lies between the two half
    way points, which themselves are read back as the number when [m] is even. *)
Definition reads_back (s u : Z) : bool :=
  if Z.even (Zpos m)
  then ((binary lower u <=? decimal s u) && (decimal s u <=? binary upper u))%bool
  else ((binary lower u <? decimal s u) && (decimal s u <? binary upper u))%bool.

(** With [k] digits: the decimal below and the decimal above, the one that
    reads back, the nearer of the two when both do. *)
Definition candidate (k : Z) : option (Z * Z) :=
  let u := magnitude - k in
  let s1 := binary value u / (if 0 <=? u then 10 ^ u * den else den) in
  let s2 := s1 + 1 in
  let d1 := binary value u - decimal s1 u in
  let d2 := decimal s2 u - binary value u in
  match reads_back s1 u, reads_back s2 u with
  | true, true =>
      if d1 <? d2 then Some (s1, u)
      else if d2 <? d1 then Some (s2, u)
      else if Z.even s1 then Some (s1, u) else Some (s2, u)
  | true, false => Some (s1, u)
  | false, true => Some (s2, u)
  | false, false => None
  end.

(** The least number of digits that reads back; seventeen always do. *)
Fixpoint search (fuel : nat) (k : Z) : Z * Z :=
  match candidate k with
  | Some r => r
  | None =>
      match fuel with
      | O => (binary value (magnitude - k) / (if 0 <=? magnitude - k then 10 ^ (magnitude - k) * den else den),
              magnitude - k)
      | S f => search f (k + 1)
      end
  end.

Definition shortest : Z * Z := search 16 1.

End Shortest.

(** Digits without the zeros at the end, and how many were dropped. *)
Fixpoint strip_zeros (fuel : nat) (s u : Z) : Z * Z :=
  match fuel with
  | O => (s, u)
  | S f => if (s mod 10 =? 0) && negb (s =? 0) then strip_zeros f (s / 10) (u + 1) else (s, u)
  end%bool.

Definition format (ds : string) (n : Z) : string :=
  let k := Z.of_nat (String.length ds) in
  if ((k <=? n) && (n <=? 21))%bool then ds +++ zeros (n - k)
  else if ((0 <? n) && (n <=? 21))%bool
  then String.substring 0 (Z.to_nat n) ds +++ "."
       +++ String.substring (Z.to_nat n) (Z.to_nat (k - n)) ds
  else if ((- 6 <? n) && (n <=? 0))%bool then "0." +++ zeros (- n) +++ ds
  else
    let ex := n - 1 in
    let sign : string := if 0 <=? ex then "+"%string else "-"%string in
    let mant :=
      if k =? 1 then ds
      else String.substring 0 1 ds +++ "." +++ String.substring 1 (Z.to_nat (k - 1)) ds in
    mant +++ "e" +++ sign +++ string_of_Z (Z.abs ex).

Definition number_toString (x : JsNumber.number) : string :=
  match x with
  | S754_nan => "NaN"%string
  | S754_zero _ => "0"%string
  | S754_infinity s => if s then "-Infinity"%string else "Infinity"%string
  | S754_finite s m e =>
      match binary_round JsNumber.prec JsNumber.emax s m e with
      | S754_finite _ m' e' =>
          let '(d, u) := shortest m' e' in
          let '(d', u') := strip_zeros 400 d u in
          let ds := string_of_Z d' in
          (if s then "-"%string else EmptyString)
          +++ format ds (Z.of_nat (String.length ds) + u')
      | S754_infinity s' => if s' then "-Infinity"%string else "Infinity"%string
      | _ => "0"%string
      end
  end.

(** Truthiness of a string: only the empty string is falsy. *)
Definition truthy (s : string) : bool :=
  match s with EmptyString => false | _ => true end.

(** Truthiness of a possibly absent header value. *)
Definition truthy_opt (o : option string) : bool :=
  match o with Some s => truthy s | None => false end.

Definition startsWith (s p : string) : bool := String.prefix p s.

(** [s.replace(pat, rep)]: the first occurrence only. *)
Fixpoint replace (pat rep s : string) {struct s} : string :=
  if String.prefix pat s
  then rep +++ String.substring (String.length pat) (String.length s - String.length pat) s
  else match s with
       | EmptyString => EmptyString
       | String c r => String c (replace pat rep r)
       end.

(** White space and line terminators, in UTF-8: TAB, LF, VT, FF, CR, SP,
    U+00A0, U+1680, U+2000 to U+200A, U+2028, U+2029, U+202F, U+205F,
    U+3000 and U+FEFF.  When [s] starts with one of them, what follows it. *)
Definition after_space (s : string) : option string :=
  match s with
  | EmptyString => None
  | String c1 r1 =>
      let n1 := code c1 in
      if ((n1 =? 32) || ((9 <=? n1) && (n1 <=? 13)))%bool then Some r1
      else
        match r1 with
        | EmptyString => None
        | String c2 r2 =>
            let n2 := code c2 in
            if ((n1 =? 194) && (n2 =? 160))%bool then Some r2
            else
              match r2 with
              | EmptyString => None
              | String c3 r3 =>
                  let n3 := code c3 in
                  if ((n1 =? 225) && (n2 =? 154) && (n3 =? 128))%bool then Some r3
                  else if ((n1 =? 226) && (n2 =? 128)
                           && (((128 <=? n3) && (n3 <=? 138))
                               || (n3 =? 168) || (n3 =? 169) || (n3 =? 175)))%bool
                  then Some r3
                  else if ((n1 =? 226) && (n2 =? 129) && (n3 =? 159))%bool then Some r3
                  else if ((n1 =? 227) && (n2 =? 128) && (n3 =? 128))%bool then Some r3
                  else if ((n1 =? 239) && (n2 =? 187) && (n3 =? 191))%bool then Some r3
                  else None
              end
        end
  end.

Fixpoint strip (fuel : nat) (s : string) : string :=
  match fuel with
  | O => s
  | S f => match after_space s with
           | Some r => strip f r
           | None => s
           end
  end.

Definition trimStart (s : string) : string := strip (String.length s) s.

(** Nothing but white space. *)
Definition blank (s : string) : bool :=
  match trimStart s with EmptyString => true | _ => false end.

Fixpoint trimEnd (s : string) : string :=
  match s with
  | EmptyString => EmptyString
  | String c r => if blank s then EmptyString else String c (trimEnd r)
  end.

(** [s.trim()]. *)
Definition trim (s : string) : string := trimEnd (trimStart s).

(** [arr.includes(x)] on an array of strings. *)
Definition includes (arr : list string) (x : string) : bool :=
  existsb (String.eqb x) arr.

End Js.

(** ** JSON values, [JSON.stringify] and [JSON.parse] *)

Module JSON.

(** A parsed payload.  An object is given by the members defined on it, in
    the order of their definition; what JavaScript makes of them (a repeated
    name keeps its first place and takes the last value; names that are array
    indices are enumerated first, in ascending order) is [own_properties]. *)
Inductive json : Type :=
| JNull
| JBool (b : bool)
| JNum (n : JsNumber.number)
| JStr (s : string)
| JArr (items : list json)
| JObj (members : list (string * json)).

Definition is_digit (c : ascii) : bool :=
  ((48 <=? Js.code c) && (Js.code c <=? 57))%bool.

Definition digit_val (c : ascii) : Z := Js.code c - 48.

Fixpoint all_digits (s : string) : bool :=
  match s with
  | EmptyString => true
  | String c r => (is_digit c && all_digits r)%bool
  end.

Fixpoint decimal_value (acc : Z) (s : string) : Z :=
  match s with
  | EmptyString => acc
  | String c r => decimal_value (10 * acc + digit_val c) r
  end.

(** The array index a member name stands for: a canonical numeric string
    below [2 ^ 32 - 1]. *)
Definition array_index (k : string) : option Z :=
  match k with
  | EmptyString => None
  | String c r =>
      if (all_digits k
          && (negb (Ascii.eqb c "0") || match r with EmptyString => true | _ => false end)
          && (Z.of_nat (String.length k) <=? 10))%bool
      then let n := decimal_value 0 k in
           if n <=? 4294967294 then Some n else None
      else None
  end.

Section Members.
Variable A : Type.

(** Defining a member: a repeated name keeps its first place and takes the
    last value. *)
Fixpoint define (members : list (string * A)) (k : string) (v : A)
  : list (string * A) :=
  match members with
  | [] => [(k, v)]
  | (k', v') :: r =>
      if String.eqb k' k then (k', v) :: r else (k', v') :: define r k v
  end.

Definition defined (members : list (string * A)) : list (string * A) :=
  fold_left (fun acc kv => define acc (fst kv) (snd kv)) members [].

Definition index_of (kv : string * A) : Z :=
  match array_index (fst kv) with Some n => n | None => 0 end.

Definition is_index (kv : string * A) : bool :=
  match array_index (fst kv) with Some _ => true | None => false end.

Fixpoint insert_index (kv : string * A) (l : list (string * A)) : list (string * A) :=
  match l with
  | [] => [kv]
  | x :: r => if index_of kv <=? index_of x then kv :: l else x :: insert_index kv r
  end.

(** [OrdinaryOwnPropertyKeys]: array indices in ascending order, then the
    other names in the order of their creation. *)
Definition own_properties (members : list (string * A)) : list (string * A) :=
  let ds := defined members in
  fold_right insert_index [] (filter is_index ds)
  ++ filter (fun kv => negb (is_index kv)) ds.

End Members.

Definition hexDigit (n : Z) : ascii :=
  Js.char (if n <? 10 then 48 + n else 87 + n).

Definition hex4 (n : Z) : string :=
  String (hexDigit (n / 4096))
    (String (hexDigit ((n / 256) mod 16))
       (String (hexDigit ((n / 16) mod 16))
          (String (hexDigit (n mod 16)) EmptyString))).

Definition is_continuation (c : ascii) : bool :=
  ((128 <=? Js.code c) && (Js.code c <=? 191))%bool.

(** The code unit a three-byte sequence that starts with [0xED] encodes. *)
Definition unit3 (b2 b3 : ascii) : Z :=
  53248 + (Js.code b2 - 128) * 64 + (Js.code b3 - 128).

(** QuoteJSONString: the escapes [JSON.stringify] writes.  A surrogate that
    is not part of a pair is written as a [\u] escape. *)
Definition escape_char (c : ascii) : string :=
  let n := Js.code c in
  if n =? 34 then String Js.backslash (String Js.dquote EmptyString)
  else if n =? 92 then String Js.backslash (String Js.backslash EmptyString)
  else if n =? 8 then String Js.backslash "b"
  else if n =? 9 then String Js.backslash "t"
  else if n =? 10 then String Js.backslash "n"
  else if n =? 12 then String Js.backslash "f"
  else if n =? 13 then String Js.backslash "r"
  else if n <? 32 then String Js.backslash ("u" +++ hex4 n)
  else String c EmptyString.

Fixpoint escape (s : string) : string :=
  match s with
  | EmptyString => EmptyString
  | String c r =>
      match r with
      | String b2 (String b3 r') =>
          if ((Js.code c =? 237) && (160 <=? Js.code b2) && (Js.code b2 <=? 191)
              && is_continuation b3)%bool
          then String Js.backslash ("u" +++ hex4 (unit3 b2 b3)) +++ escape r'
          else escape_char c +++ escape r
      | _ => escape_char c +++ escape r
      end
  end.

Definition quote (s : string) : string :=
  String Js.dquote (escape s +++ String Js.dquote EmptyString).

Fixpoint join (sep : string) (l : list string) : string :=
  match l with
  | [] => EmptyString
  | [x] => x
  | x :: r => x +++ sep +++ join sep r
  end.

(** [JSON.stringify (v)] without indentation. *)
Fixpoint stringify (v : json) : string :=
  match v with
  | JNull => "null"
  | JBool true => "true"
  | JBool false => "false"
  | JNum n => if JsNumber.is_finite n then Js.number_toString n else "null"
  | JStr s => quote s
  | JArr items =>
      "[" +++
      join ","
        ((fix each (l : list json) : list string :=
            match l with
            | [] => []
            | x :: r => stringify x :: each r
            end) items) +++ "]"
  | JObj members =>
      "{" +++
      join ","
        (map (fun kv => quote (fst kv) +++ ":" +++ snd kv)
           (own_properties
              ((fix each (l : list (string * json)) : list (string * string) :=
                  match l with
                  | [] => []
                  | (k, x) :: r => (k, stringify x) :: each r
                  end) members))) +++ "}"
  end.

(** *** Parsing *)

Definition is_ws (c : ascii) : bool :=
  let n := Js.code c in
  ((n =? 32) || (n =? 9) || (n =? 10) || (n =? 13))%bool.

Fixpoint skip_ws (cs : list ascii) : list ascii :=
  match cs with
  | c :: r => if is_ws c then skip_ws r else cs
  | [] => []
  end.

(** The digits at the head of [cs]: their value on top of [acc], how many
    they are, and what follows. *)
Fixpoint parse_digits (acc count : Z) (cs : list ascii) : Z * Z * list ascii :=
  match cs with
  | c :: r =>
      if is_digit c then parse_digits (10 * acc + digit_val c) (count + 1) r
      else (acc, count, cs)
  | [] => (acc, count, [])
  end.

(** The Number value of [n * 10 ^ p], [n] not negative: rounded to the
    nearest number, to the even one of two that are equally near. *)
Definition number_of_decimal (negative : bool) (n p : Z) : JsNumber.number :=
  match n with
  | Zpos d =>
      if 0 <=? p
      then binary_normalize JsNumber.prec JsNumber.emax
             (cond_Zopp negative (n * 10 ^ p)) 0 false
      else SFdiv JsNumber.prec JsNumber.emax
             (S754_finite negative d 0)
             (S754_finite false (Z.to_pos (10 ^ (- p))) 0)
  | _ => S754_zero negative
  end.

(** A number: an optional minus sign, an integer part without a leading
    zero, an optional fraction, an optional exponent. *)
Definition parse_number (cs : list ascii) : option (JsNumber.number * list ascii) :=
  let '(negative, cs1) :=
    match cs with
    | "-"%char :: r => (true, r)
    | _ => (false, cs)
    end in
  match cs1 with
  | d :: r =>
      if negb (is_digit d) then None
      else
        let '(int, _, cs2) :=
          if Ascii.eqb d "0" then (0, 1, r) else parse_digits 0 0 cs1 in
        let fraction :=
          match cs2 with
          | "."%char :: r2 =>
              let '(n, count, cs3) := parse_digits int 0 r2 in
              if count =? 0 then None else Some (n, count, cs3)
          | _ => Some (int, 0, cs2)
          end in
        match fraction with
        | None => None
        | Some (n, count, cs3) =>
            let exponent :=
              match cs3 with
              | c :: r3 =>
                  if (Ascii.eqb c "e" || Ascii.eqb c "E")%bool then
                    let '(minus, r4) :=
                      match r3 with
                      | "-"%char :: r' => (true, r')
                      | "+"%char :: r' => (false, r')
                      | _ => (false, r3)
                      end in
                    let '(ex, digits, cs4) := parse_digits 0 0 r4 in
                    if digits =? 0 then None
                    else Some (if minus then - ex else ex, cs4)
                  else Some (0, cs3)
              | [] => Some (0, cs3)
              end in
            match exponent with
            | None => None
            | Some (ex, cs4) => Some (number_of_decimal negative n (ex - count), cs4)
            end
        end
  | [] => None
  end.

Definition hex_val (c : ascii) : option Z :=
  let n := Js.code c in
  if ((48 <=? n) && (n <=? 57))%bool then Some (n - 48)
  else if ((65 <=? n) && (n <=? 70))%bool then Some (n - 55)
  else if ((97 <=? n) && (n <=? 102))%bool then Some (n - 87)
  else None.

(** The UTF-8 form of a code unit; a surrogate takes the three bytes its
    value would take as a code point. *)
Definition encode_unit (u : Z) : string :=
  if u <? 128 then String (Js.char u) EmptyString
  else if u <? 2048
  then String (Js.char (192 + u / 64)) (String (Js.char (128 + u mod 64)) EmptyString)
  else String (Js.char (224 + u / 4096))
         (String (Js.char (128 + (u / 64) mod 64))
            (String (Js.char (128 + u mod 64)) EmptyString)).

(** A high surrogate followed by a low one is one code point, of four
    bytes. *)
Definition encode_pair (hi lo : Z) : string :=
  let cp := 65536 + (hi - 55296) * 1024 + (lo - 56320) in
  String (Js.char (240 + cp / 262144))
    (String (Js.char (128 + (cp / 4096) mod 64))
       (String (Js.char (128 + (cp / 64) mod 64))
          (String (Js.char (128 + cp mod 64)) EmptyString))).

Fixpoint pair_up (s : string) : string :=
  match s with
  | EmptyString => EmptyString
  | String c r =>
      match r with
      | String b2 (String b3 (String c4 (String b5 (String b6 r')))) =>
          if ((Js.code c =? 237) && (160 <=? Js.code b2) && (Js.code b2 <=? 175)
              && is_continuation b3
              && (Js.code c4 =? 237) && (176 <=? Js.code b5) && (Js.code b5 <=? 191)
              && is_continuation b6)%bool
          then encode_pair (unit3 b2 b3) (unit3 b5 b6) +++ pair_up r'
          else String c (pair_up r)
      | _ => String c (pair_up r)
      end
  end.

(** The characters of a string literal after its opening quote, up to and
    without the closing quote, escapes decoded.  A control character that is
    not escaped is a syntax error. *)
Fixpoint parse_chars (cs : list ascii) : option (string * list ascii) :=
  match cs with
  | [] => None
  | c :: r =>
      let n := Js.code c in
      if n =? 34 then Some (EmptyString, r)
      else if n =? 92 then
        match r with
        | e :: r' =>
            let m := Js.code e in
            let simple (d : Z) :=
              match parse_chars r' with
              | Some (s, rest) => Some (String (Js.char d) s, rest)
              | None => None
              end in
            if m =? 34 then simple 34
            else if m =? 92 then simple 92
            else if m =? 47 then simple 47
            else if m =? 98 then simple 8
            else if m =? 102 then simple 12
            else if m =? 110 then simple 10
            else if m =? 114 then simple 13
            else if m =? 116 then simple 9
            else if m =? 117 then
              match r' with
              | h1 :: h2 :: h3 :: h4 :: r'' =>
                  match hex_val h1, hex_val h2, hex_val h3, hex_val h4 with
                  | Some a, Some b, Some c', Some d =>
                      match parse_chars r'' with
                      | Some (s, rest) =>
                          Some (encode_unit (((a * 16 + b) * 16 + c') * 16 + d) +++ s, rest)
                      | None => None
                      end
                  | _, _, _, _ => None
                  end
              | _ => None
              end
            else None
        | [] => None
        end
      else if n <? 32 then None
      else
        match parse_chars r with
        | Some (s, rest) => Some (String c s, rest)
        | None => None
        end
  end.

Definition parse_string (cs : list ascii) : option (string * list ascii) :=
  match parse_chars cs with
  | Some (s, rest) => Some (pair_up s, rest)
  | None => None
  end.

Fixpoint parse_value (fuel : nat) (cs : list ascii) {struct fuel}
  : option (json * list ascii) :=
  match fuel with
  | O => None
  | S f =>
      match skip_ws cs with
      | "n"%char :: "u"%char :: "l"%char :: "l"%char :: r => Some (JNull, r)
      | "t"%char :: "r"%char :: "u"%char :: "e"%char :: r => Some (JBool true, r)
      | "f"%char :: "a"%char :: "l"%char :: "s"%char :: "e"%char :: r => Some (JBool false, r)
      | "["%char :: r =>
          match skip_ws r with
          | "]"%char :: r' => Some (JArr [], r')
          | _ =>
              match parse_elements f r with
              | Some (items, r') => Some (JArr items, r')
              | None => None
              end
          end
      | "{"%char :: r =>
          match skip_ws r with
          | "}"%char :: r' => Some (JObj [], r')
          | _ =>
              match parse_members f r with
              | Some (members, r') => Some (JObj members, r')
              | None => None
              end
          end
      | c :: r =>
          if Js.code c =? 34 then
            match parse_string r with
            | Some (s, r') => Some (JStr s, r')
            | None => None
            end
          else
            match parse_number (c :: r) with
            | Some (n, r') => Some (JNum n, r')
            | None => None
            end
      | [] => None
      end
  end

with parse_elements (fuel : nat) (cs : list ascii) {struct fuel}
  : option (list json * list ascii) :=
  match fuel with
  | O => None
  | S f =>
      match parse_value f cs with
      | Some (v, r) =>
          match skip_ws r with
          | ","%char :: r' =>
              match parse_elements f r' with
              | Some (vs, r'') => Some (v :: vs, r'')
              | None => None
              end
          | "]"%char :: r' => Some ([v], r')
          | _ => None
          end
      | None => None
      end
  end

with parse_members (fuel : nat) (cs : list ascii) {struct fuel}
  : option (list (string * json) * list ascii) :=
  match fuel with
  | O => None
  | S f =>
      match skip_ws cs with
      | q :: r =>
          if negb (Js.code q =? 34) then None else
          match parse_string r with
          | Some (k, r1) =>
              match skip_ws r1 with
              | ":"%char :: r2 =>
                  match parse_value f r2 with
                  | Some (v, r3) =>
                      match skip_ws r3 with
                      | ","%char :: r4 =>
                          match parse_members f r4 with
                          | Some (ms, r5) => Some ((k, v) :: ms, r5)
                          | None => None
                          end
                      | "}"%char :: r4 => Some ([(k, v)], r4)
                      | _ => None
                      end
                  | None => None
                  end
              | _ => None
              end
          | None => None
          end
      | [] => None
      end
  end.

(** [JSON.parse (text)]; [None] is the [SyntaxError]. *)
Definition parse (text : string) : option json :=
  let cs := list_ascii_of_string text in
  match parse_value (2 * List.length cs + 2) cs with
  | Some (v, rest) =>
      match skip_ws rest with
      | [] => Some v
      | _ => None
      end
  | None => None
  end.

(** Reading a property.  The outer [option] is [None] for the [TypeError]
    raised on [null]; the inner one is [None] for [undefined].  Only the
    names [event], [data] and [reference] are read by the services, none of
    which a number, a string, a boolean, an array or the prototype of an
    object defines. *)
Definition prop (v : json) (name : string) : option (option json) :=
  match v with
  | JNull => None
  | JObj members =>
      Some (match find (fun kv => String.eqb (fst kv) name) (own_properties members) with
            | Some kv => Some (snd kv)
            | None => None
            end)
  | _ => Some None
  end.

End JSON.

(** ** [Date]: the time-value arithmetic of ECMAScript (section 21.4.1) *)

Module JsDate.

Definition msPerSecond : Z := 1000.
Definition msPerMinute : Z := 60000.
Definition msPerHour : Z := 3600000.
Definition msPerDay : Z := 86400000.

Definition Day (t : Z) : Z := t / msPerDay.
Definition TimeWithinDay (t : Z) : Z := t mod msPerDay.

Definition InLeapYear (y : Z) : bool :=
  if negb (y mod 4 =? 0) then false
  else if negb (y mod 100 =? 0) then true
  else if negb (y mod 400 =? 0) then false
  else true.

Definition DaysInYear (y : Z) : Z := if InLeapYear y then 366 else 365.

Definition DayFromYear (y : Z) : Z :=
  365 * (y - 1970) + (y - 1969) / 4 - (y - 1901) / 100 + (y - 1601) / 400.

(** The year a day number falls in: the largest [y] with
    [DayFromYear y <= d].  A first guess from the mean length of a year is
    off by at most one. *)
Definition YearFromDay (d : Z) : Z :=
  let g := 1970 + (400 * d) / 146097 in
  if d <? DayFromYear g then g - 1
  else if DayFromYear (g + 1) <=? d then g + 1
  else g.

Definition YearFromTime (t : Z) : Z := YearFromDay (Day t).

Definition DayWithinYear (t : Z) : Z := Day t - DayFromYear (YearFromTime t).

(** Day number within the year at which month [m] (0 to 11) starts. *)
Definition monthStart (leap : bool) (m : Z) : Z :=
  let l := if leap then 1 else 0 in
  if m <=? 0 then 0
  else if m =? 1 then 31
  else if m =? 2 then 59 + l
  else if m =? 3 then 90 + l
  else if m =? 4 then 120 + l
  else if m =? 5 then 151 + l
  else if m =? 6 then 181 + l
  else if m =? 7 then 212 + l
  else if m =? 8 then 243 + l
  else if m =? 9 then 273 + l
  else if m =? 10 then 304 + l
  else if m =? 11 then 334 + l
  else 365 + l.

Definition MonthFromTime (t : Z) : Z :=
  let leap := InLeapYear (YearFromTime t) in
  let d := DayWithinYear t in
  if d <? monthStart leap 1 then 0
  else if d <? monthStart leap 2 then 1
  else if d <? monthStart leap 3 then 2
  else if d <? monthStart leap 4 then 3
  else if d <? monthStart leap 5 then 4
  else if d <? monthStart leap 6 then 5
  else if d <? monthStart leap 7 then 6
  else if d <? monthStart leap 8 then 7
  else if d <? monthStart leap 9 then 8
  else if d <? monthStart leap 10 then 9
  else if d <? monthStart leap 11 then 10
  else 11.

Definition DateFromTime (t : Z) : Z :=
  DayWithinYear t - monthStart (InLeapYear (YearFromTime t)) (MonthFromTime t) + 1.

Definition HourFromTime (t : Z) : Z := (t / msPerHour) mod 24.
Definition MinFromTime (t : Z) : Z := (t / msPerMinute) mod 60.
Definition SecFromTime (t : Z) : Z := (t / msPerSecond) mod 60.
Definition msFromTime (t : Z) : Z := t mod msPerSecond.

Definition MakeTime (hour min sec ms : Z) : Z :=
  hour * msPerHour + min * msPerMinute + sec * msPerSecond + ms.

(** [MakeDay]: months outside 0..11 carry into the year, and the day of the
    month is an offset from the first of the month, so a day past the end of
    the month runs on into the next one. *)
Definition MakeDay (year month date : Z) : Z :=
  let ym := year + month / 12 in
  let mn := month mod 12 in
  DayFromYear ym + monthStart (InLeapYear ym) mn + date - 1.

Definition MakeDate (day time : Z) : Z := day * msPerDay + time.

Definition DaysInMonth (y m : Z) : Z :=
  monthStart (InLeapYear y) (m + 1) - monthStart (InLeapYear y) m.

(** The zone of the host: [LocalTZA t true] is its offset from UTC, in
    milliseconds, at the instant [t], and [LocalTZA t false] the offset for
    the local time value [t] (where a clock change skips or repeats a local
    time, the choice among the offsets is the host's). *)
Section LocalTime.
Variable LocalTZA : Z -> bool -> Z.

Definition LocalTime (t : Z) : Z := t + LocalTZA t true.
Definition UTC (t : Z) : Z := t - LocalTZA t false.

Definition getFullYear (t : Z) : Z := YearFromTime (LocalTime t).
Definition getMonth (t : Z) : Z := MonthFromTime (LocalTime t).
Definition getDate (t : Z) : Z := DateFromTime (LocalTime t).
Definition getHours (t : Z) : Z := HourFromTime (LocalTime t).
Definition getMinutes (t : Z) : Z := MinFromTime (LocalTime t).
Definition getSeconds (t : Z) : Z := SecFromTime (LocalTime t).
Definition getMilliseconds (t : Z) : Z := msFromTime (LocalTime t).

(** The year the [Date] constructor takes [year] for: a year from 0 to 99
    stands for 1900 + year. *)
Definition full_year (year : Z) : Z :=
  if ((0 <=? year) && (year <=? 99))%bool then 1900 + year else year.

(** The local time value with the given fields, milliseconds zero. *)
Definition local_time_of (year month date hours minutes seconds : Z) : Z :=
  MakeDate (MakeDay (full_year year) month date) (MakeTime hours minutes seconds 0).

(** [new Date (year, month, date, hours, minutes, seconds)]. *)
Definition newDate (year month date hours minutes seconds : Z) : Z :=
  UTC (local_time_of year month date hours minutes seconds).

End LocalTime.

End JsDate.

(** ** [crypto]: SHA-512 (FIPS 180-4), HMAC (RFC 2104), hexadecimal digests *)

Module Crypto.

(** Octets, as integers from 0 to 255. *)
Definition bytes := list Z.

Definition bytes_of_string (s : string) : bytes :=
  map (fun c => Z.of_nat (nat_of_ascii c)) (list_ascii_of_string s).

Definition hexDigit (n : Z) : ascii :=
  ascii_of_nat (Z.to_nat (if n <? 10 then 48 + n else 87 + n)).

(** [buf.toString ('hex')] and [digest ('hex')]: two lower-case digits per
    octet. *)
Fixpoint toHex (bs : bytes) : string :=
  match bs with
  | [] => EmptyString
  | b :: r => String (hexDigit (b / 16)) (String (hexDigit (b mod 16)) (toHex r))
  end.

(** The octets [crypto.randomBytes] returned. *)
Definition octets (bs : list Byte.byte) : bytes :=
  map (fun b => Z.of_N (Byte.to_N b)) bs.

Definition mask64 : Z := 0xffffffffffffffff.
Definition w64 (x : Z) : Z := Z.land x mask64.
Definition add64 (x y : Z) : Z := w64 (x + y).
Definition rotr (n x : Z) : Z := Z.lor (Z.shiftr x n) (w64 (Z.shiftl x (64 - n))).
Definition Ch (x y z : Z) : Z :=
  Z.lxor (Z.land x y) (Z.land (Z.lxor x mask64) z).
Definition Maj (x y z : Z) : Z :=
  Z.lxor (Z.lxor (Z.land x y) (Z.land x z)) (Z.land y z).
Definition Sigma0 (x : Z) : Z := Z.lxor (Z.lxor (rotr 28 x) (rotr 34 x)) (rotr 39 x).
Definition Sigma1 (x : Z) : Z := Z.lxor (Z.lxor (rotr 14 x) (rotr 18 x)) (rotr 41 x).
Definition sigma0 (x : Z) : Z := Z.lxor (Z.lxor (rotr 1 x) (rotr 8 x)) (Z.shiftr x 7).
Definition sigma1 (x : Z) : Z := Z.lxor (Z.lxor (rotr 19 x) (rotr 61 x)) (Z.shiftr x 6).

Definition K512 : list Z :=
  [ 0x428a2f98d728ae22; 0x7137449123ef65cd; 0xb5c0fbcfec4d3b2f; 0xe9b5dba58189dbbc;
    0x3956c25bf348b538; 0x59f111f1b605d019; 0x923f82a4af194f9b; 0xab1c5ed5da6d8118;
    0xd807aa98a3030242; 0x12835b0145706fbe; 0x243185be4ee4b28c; 0x550c7dc3d5ffb4e2;
    0x72be5d74f27b896f; 0x80deb1fe3b1696b1; 0x9bdc06a725c71235; 0xc19bf174cf692694;
    0xe49b69c19ef14ad2; 0xefbe4786384f25e3; 0x0fc19dc68b8cd5b5; 0x240ca1cc77ac9c65;
    0x2de92c6f592b0275; 0x4a7484aa6ea6e483; 0x5cb0a9dcbd41fbd4; 0x76f988da831153b5;
    0x983e5152ee66dfab; 0xa831c66d2db43210; 0xb00327c898fb213f; 0xbf597fc7beef0ee4;
    0xc6e00bf33da88fc2; 0xd5a79147930aa725; 0x06ca6351e003826f; 0x142929670a0e6e70;
    0x27b70a8546d22ffc; 0x2e1b21385c26c926; 0x4d2c6dfc5ac42aed; 0x53380d139d95b3df;
    0x650a73548baf63de; 0x766a0abb3c77b2a8; 0x81c2c92e47edaee6; 0x92722c851482353b;
    0xa2bfe8a14cf10364; 0xa81a664bbc423001; 0xc24b8b70d0f89791; 0xc76c51a30654be30;
    0xd192e819d6ef5218; 0xd69906245565a910; 0xf40e35855771202a; 0x106aa07032bbd1b8;
    0x19a4c116b8d2d0c8; 0x1e376c085141ab53; 0x2748774cdf8eeb99; 0x34b0bcb5e19b48a8;
    0x391c0cb3c5c95a63; 0x4ed8aa4ae3418acb; 0x5b9cca4f7763e373; 0x682e6ff3d6b2b8a3;
    0x748f82ee5defb2fc; 0x78a5636f43172f60; 0x84c87814a1f0ab72; 0x8cc702081a6439ec;
    0x90befffa23631e28; 0xa4506cebde82bde9; 0xbef9a3f7b2c67915; 0xc67178f2e372532b;
    0xca273eceea26619c; 0xd186b8c721c0c207; 0xeada7dd6cde0eb1e; 0xf57d4f7fee6ed178;
    0x06f067aa72176fba; 0x0a637dc5a2c898a6; 0x113f9804bef90dae; 0x1b710b35131c471b;
    0x28db77f523047d84; 0x32caab7b40c72493; 0x3c9ebe0a15c9bebc; 0x431d67c49c100d4c;
    0x4cc5d4becb3e42b6; 0x597f299cfc657e2a; 0x5fcb6fab3ad6faec; 0x6c44198c4a475817 ].

Definition H512 : list Z :=
  [ 0x6a09e667f3bcc908; 0xbb67ae8584caa73b; 0x3c6ef372fe94f82b; 0xa54ff53a5f1d36f1;
    0x510e527fade682d1; 0x9b05688c2b3e6c1f; 0x1f83d9abfb41bd6b; 0x5be0cd19137e2179 ].

(** Big-endian encoding of [x] on [n] octets, and its inverse. *)
Fixpoint be_bytes (n : nat) (x : Z) : bytes :=
  match n with
  | O => []
  | S k => be_bytes k (Z.shiftr x 8) ++ [Z.land x 255]
  end.

Definition be_word (bs : bytes) : Z := fold_left (fun acc b => acc * 256 + b) bs 0.

Definition pad (msg : bytes) : bytes :=
  let len := Z.of_nat (List.length msg) in
  let zeros := Z.to_nat ((111 - len) mod 128) in
  msg ++ [128] ++ repeat 0 zeros ++ be_bytes 16 (8 * len).

(** The first [k] consecutive pieces of [n] octets. *)
Fixpoint chunks (k n : nat) (bs : bytes) : list bytes :=
  match k with
  | O => []
  | S k' => firstn n bs :: chunks k' n (skipn n bs)
  end.

(** The message schedule, latest word first. *)
Fixpoint schedule (k : nat) (rev_w : list Z) : list Z :=
  match k with
  | O => rev_w
  | S k' =>
      let w := add64 (add64 (sigma1 (nth 1 rev_w 0)) (nth 6 rev_w 0))
                     (add64 (sigma0 (nth 14 rev_w 0)) (nth 15 rev_w 0)) in
      schedule k' (w :: rev_w)
  end.

Definition round (st : list Z) (kw : Z * Z) : list Z :=
  match st with
  | [a; b; c; d; e; f; g; h] =>
      let t1 := add64 (add64 (add64 h (Sigma1 e)) (add64 (Ch e f g) (fst kw))) (snd kw) in
      let t2 := add64 (Sigma0 a) (Maj a b c) in
      [add64 t1 t2; a; b; c; add64 d t1; e; f; g]
  | _ => st
  end.

Definition compress (st : list Z) (block : bytes) : list Z :=
  let w16 := map be_word (chunks 16 8 block) in
  let w := rev (schedule 64 (rev w16)) in
  let st' := fold_left round (combine K512 w) st in
  map (fun p => add64 (fst p) (snd p)) (combine st st').

Definition sha512 (msg : bytes) : bytes :=
  let padded := pad msg in
  let blocks := chunks (Nat.div (List.length padded) 128) 128 padded in
  flat_map (be_bytes 8) (fold_left compress blocks H512).

Definition hmac_sha512 (key msg : bytes) : bytes :=
  let k0 := if (128 <? Z.of_nat (List.length key)) then sha512 key else key in
  let k := k0 ++ repeat 0 (128 - List.length k0) in
  let ipad := map (fun b => Z.lxor b 0x36) k in
  let opad := map (fun b => Z.lxor b 0x5c) k in
  sha512 (opad ++ sha512 (ipad ++ msg)).

(** [crypto.createHmac ('sha512', key).update (data).digest ('hex')]. *)
Definition createHmac_sha512_hex (key data : string) : string :=
  toHex (hmac_sha512 (bytes_of_string key) (bytes_of_string data)).

End Crypto.

(** ** The store: Prisma tables, exceptions, and the monad of a request *)

Module Prisma.

Inductive TransactionStatus : Type := pending | success | failed.
Inductive TransactionType : Type := deposit | transfer | withdrawal.

Record User : Type := {
  user_id : string;
  user_email : string;
  user_name : string
}.

Record Wallet : Type := {
  wallet_id : string;
  wallet_userId : string;
  wallet_balance : JsNumber.number;
  wallet_walletNumber : string
}.

Record Transaction : Type := {
  tx_id : string;
  tx_walletId : string;
  tx_type : TransactionType;
  tx_amount : JsNumber.number;
  tx_reference : string;
  tx_paystackRef : option string;
  tx_status : TransactionStatus;
  tx_description : option string;
  tx_paystackAuthorizationUrl : option string   (* metadata *)
}.

Record Transfer : Type := {
  transfer_id : string;
  transfer_senderId : string;
  transfer_recipientId : string;
  transfer_amount : JsNumber.number;
  transfer_reference : string;
  transfer_status : TransactionStatus;
  transfer_description : option string
}.

Record ApiKey : Type := {
  key_id : string;
  key_userId : string;
  key_name : string;
  key_key : string;
  key_permissions : list string;
  key_expiresAt : Z;
  key_revokedAt : option Z;
  key_rolledOverAt : option Z;
  key_rolledOverFrom : option string
}.

(** What [PaystackService.initializeTransaction] posts to the gateway. *)
Record InitializeRequest : Type := {
  req_email : string;
  req_amount : JsNumber.number;
  req_reference : string;
  req_metadata : string * string   (* userId, walletId *)
}.

(** The tables, and the requests sent to the gateway so far. *)
Record World : Type := {
  users : list User;
  wallets : list Wallet;
  transactions : list Transaction;
  transfers : list Transfer;
  apiKeys : list ApiKey;
  gateway_requests : list InitializeRequest
}.

Definition with_wallets (ws : list Wallet) (w : World) : World :=
  {| users := users w; wallets := ws; transactions := transactions w;
     transfers := transfers w; apiKeys := apiKeys w;
     gateway_requests := gateway_requests w |}.

Definition with_transactions (ts : list Transaction) (w : World) : World :=
  {| users := users w; wallets := wallets w; transactions := ts;
     transfers := transfers w; apiKeys := apiKeys w;
     gateway_requests := gateway_requests w |}.

Definition with_transfers (ts : list Transfer) (w : World) : World :=
  {| users := users w; wallets := wallets w; transactions := transactions w;
     transfers := ts; apiKeys := apiKeys w;
     gateway_requests := gateway_requests w |}.

Definition with_apiKeys (ks : list ApiKey) (w : World) : World :=
  {| users := users w; wallets := wallets w; transactions := transactions w;
     transfers := transfers w; apiKeys := ks;
     gateway_requests := gateway_requests w |}.

Definition with_gateway_requests (rs : list InitializeRequest) (w : World) : World :=
  {| users := users w; wallets := wallets w; transactions := transactions w;
     transfers := transfers w; apiKeys := apiKeys w;
     gateway_requests := rs |}.

Definition set_balance (b : JsNumber.number) (x : Wallet) : Wallet :=
  {| wallet_id := wallet_id x; wallet_userId := wallet_userId x;
     wallet_balance := b; wallet_walletNumber := wallet_walletNumber x |}.

Definition set_status (st : TransactionStatus) (t : Transaction) : Transaction :=
  {| tx_id := tx_id t; tx_walletId := tx_walletId t; tx_type := tx_type t;
     tx_amount := tx_amount t; tx_reference := tx_reference t;
     tx_paystackRef := tx_paystackRef t; tx_status := st;
     tx_description := tx_description t;
     tx_paystackAuthorizationUrl := tx_paystackAuthorizationUrl t |}.

Definition set_revokedAt (d : Z) (k : ApiKey) : ApiKey :=
  {| key_id := key_id k; key_userId := key_userId k; key_name := key_name k;
     key_key := key_key k; key_permissions := key_permissions k;
     key_expiresAt := key_expiresAt k; key_revokedAt := Some d;
     key_rolledOverAt := key_rolledOverAt k;
     key_rolledOverFrom := key_rolledOverFrom k |}.

Definition set_rolledOverAt (d : Z) (k : ApiKey) : ApiKey :=
  {| key_id := key_id k; key_userId := key_userId k; key_name := key_name k;
     key_key := key_key k; key_permissions := key_permissions k;
     key_expiresAt := key_expiresAt k; key_revokedAt := key_revokedAt k;
     key_rolledOverAt := Some d;
     key_rolledOverFrom := key_rolledOverFrom k |}.

(** Exceptions: the Nest HTTP exceptions the services throw, and the errors
    raised by the run time and by Prisma (which Nest answers with status 500). *)
Inductive Exception : Type :=
| BadRequestException (message : string)            (* 400 *)
| UnauthorizedException (message : string)          (* 401 *)
| ForbiddenException (message : string)             (* 403 *)
| NotFoundException (message : string)              (* 404 *)
| InternalServerErrorException (message : string)   (* 500 *)
| TypeError
| SyntaxError
| AxiosRequestError
| PrismaClientKnownRequestError (code : string)
| PrismaClientValidationError.

Inductive Result (A : Type) : Type :=
| Ok (a : A)
| Throw (e : Exception).
Arguments Throw {A} e.

(** A request handler: it reads and writes the store and returns or throws. *)
Definition M (A : Type) : Type := World -> Result A * World.

Definition ret {A : Type} (a : A) : M A := fun w => (Ok a, w).
Definition throw {A : Type} (e : Exception) : M A := fun w => (Throw e, w).
Definition bind {A B : Type} (m : M A) (k : A -> M B) : M B :=
  fun w => match m w with
           | (Ok a, w') => k a w'
           | (Throw e, w') => (Throw e, w')
           end.
Definition lift {A : Type} (r : Result A) : M A := fun w => (r, w).

(** [try { m } catch (error) { h error }]. *)
Definition try_catch {A : Type} (m : M A) (h : Exception -> M A) : M A :=
  fun w => match m w with
           | (Ok a, w') => (Ok a, w')
           | (Throw e, w') => h e w'
           end.

(** [prisma.$transaction (async (tx) => m)]: all the writes of [m], or, when
    it throws, none of them. *)
Definition transaction_block {A : Type} (m : M A) : M A :=
  fun w => match m w with
           | (Ok a, w') => (Ok a, w')
           | (Throw e, _) => (Throw e, w)
           end.

Definition findBy {A : Type} (col : A -> string) (v : string) (rows : list A)
  : option A :=
  find (fun r => String.eqb (col r) v) rows.

Definition updateBy {A : Type} (col : A -> string) (v : string) (f : A -> A)
  (rows : list A) : list A :=
  map (fun r => if String.eqb (col r) v then f r else r) rows.

Definition same_ref (a : option string) (b : string) : bool :=
  match a with Some x => String.eqb x b | None => false end.

(** Modelled from the spec: the Prisma schema is not among the sources; the
    unique columns are the ones the data model names (every [id]; a wallet's
    [userId] and [walletNumber]; a transaction's [reference] and, when
    present, its gateway reference; a transfer's [reference]; an API key's
    [key]).  A [create] that would repeat a unique value throws Prisma's
    P2002 and writes nothing; an [update] of a row that is not there throws
    P2025.  Row identifiers are generated outside the services and are passed
    in with the row. *)
Definition unique_violation : Exception := PrismaClientKnownRequestError "P2002".
Definition record_not_found : Exception := PrismaClientKnownRequestError "P2025".

Definition user_findUnique_id (id : string) : M (option User) :=
  fun w => (Ok (findBy user_id id (users w)), w).

Definition wallet_findUnique_userId (userId : string) : M (option Wallet) :=
  fun w => (Ok (findBy wallet_userId userId (wallets w)), w).

Definition wallet_findUnique_walletNumber (n : string) : M (option Wallet) :=
  fun w => (Ok (findBy wallet_walletNumber n (wallets w)), w).

Definition wallet_findUnique_id (id : string) : M (option Wallet) :=
  fun w => (Ok (findBy wallet_id id (wallets w)), w).

Definition wallet_update (id : string) (f : Wallet -> Wallet) : M unit :=
  fun w => match findBy wallet_id id (wallets w) with
           | Some _ => (Ok tt, with_wallets (updateBy wallet_id id f (wallets w)) w)
           | None => (Throw record_not_found, w)
           end.

Definition transaction_findUnique_paystackRef (r : string) : M (option Transaction) :=
  fun w => (Ok (find (fun t => same_ref (tx_paystackRef t) r) (transactions w)), w).

Definition transaction_clash (data t : Transaction) : bool :=
  (String.eqb (tx_id t) (tx_id data)
   || String.eqb (tx_reference t) (tx_reference data)
   || match tx_paystackRef data with
      | Some r => same_ref (tx_paystackRef t) r
      | None => false
      end)%bool.

Definition transaction_create (data : Transaction) : M Transaction :=
  fun w => if existsb (transaction_clash data) (transactions w)
           then (Throw unique_violation, w)
           else (Ok data, with_transactions (transactions w ++ [data]) w).

Definition transaction_update (id : string) (f : Transaction -> Transaction) : M unit :=
  fun w => match findBy tx_id id (transactions w) with
           | Some _ => (Ok tt, with_transactions (updateBy tx_id id f (transactions w)) w)
           | None => (Throw record_not_found, w)
           end.

Definition transfer_clash (data t : Transfer) : bool :=
  (String.eqb (transfer_id t) (transfer_id data)
   || String.eqb (transfer_reference t) (transfer_reference data))%bool.

Definition transfer_create (data : Transfer) : M Transfer :=
  fun w => if existsb (transfer_clash data) (transfers w)
           then (Throw unique_violation, w)
           else (Ok data, with_transfers (transfers w ++ [data]) w).

Definition apiKey_count (p : ApiKey -> bool) : M Z :=
  fun w => (Ok (Z.of_nat (List.length (filter p (apiKeys w)))), w).

Definition apiKey_findUnique_id (id : string) : M (option ApiKey) :=
  fun w => (Ok (findBy key_id id (apiKeys w)), w).

Definition apiKey_findUnique_key (k : string) : M (option ApiKey) :=
  fun w => (Ok (findBy key_key k (apiKeys w)), w).

Definition apiKey_clash (data k : ApiKey) : bool :=
  (String.eqb (key_id k) (key_id data) || String.eqb (key_key k) (key_key data))%bool.

Definition apiKey_create (data : ApiKey) : M ApiKey :=
  fun w => if existsb (apiKey_clash data) (apiKeys w)
           then (Throw unique_violation, w)
           else (Ok data, with_apiKeys (apiKeys w ++ [data]) w).

(** [update] returns the row as written. *)
Definition apiKey_update (id : string) (f : ApiKey -> ApiKey) : M ApiKey :=
  fun w => match findBy key_id id (apiKeys w) with
           | Some k => (Ok (f k), with_apiKeys (updateBy key_id id f (apiKeys w)) w)
           | None => (Throw record_not_found, w)
           end.

End Prisma.

Export Prisma.

Notation "x <- c ;; k" := (bind c (fun x => k))
  (at level 61, c at next level, right associativity).
Notation "c ;;; k" := (bind c (fun _ => k))
  (at level 61, right associativity).

(** ** [PaystackService] (src/paystack/paystack.service.ts) *)

Module PaystackService.

(** The [data] member of the gateway's answer. *)
Record InitializeData : Type := {
  data_reference : string;
  data_authorization_url : string;
  data_access_code : string
}.

(** What [axiosInstance.post] comes back with: a rejected promise, or a
    response body [{ status, message, data }]. *)
Inductive AxiosResult : Type :=
| AxiosError
| AxiosResponse (status : bool) (message : string) (data : option InitializeData).

(** The service object: its secret key and the gateway it talks to. *)
Record t : Type := {
  secretKey : string;
  post_transaction_initialize : InitializeRequest -> AxiosResult
}.

Definition initializeTransaction (this : t) (data : InitializeRequest)
  : M InitializeData :=
  try_catch
    (fun w =>
       let w' := with_gateway_requests (gateway_requests w ++ [data]) w in
       match post_transaction_initialize this data with
       | AxiosError => (Throw AxiosRequestError, w')
       | AxiosResponse status message d =>
           if negb status then (Throw (BadRequestException message), w')
           else match d with
                | Some d => (Ok d, w')
                | None => (Throw TypeError, w')
                end
       end)
    (fun _ =>
       throw (InternalServerErrorException
                "Failed to initialize payment. Please try again.")).

Definition verifyWebhookSignature (this : t) (body : JSON.json) (signature : string)
  : bool :=
  let hash := Crypto.createHmac_sha512_hex (secretKey this) (JSON.stringify body) in
  String.eqb hash signature.

End PaystackService.

(** ** [WalletService] (src/wallet/wallet.service.ts) *)

Module WalletService.

Import PaystackService.

Record CreateDepositDto : Type := { deposit_amount : JsNumber.number }.

Record TransferDto : Type := {
  wallet_number : string;
  transfer_dto_amount : JsNumber.number;
  description : option string
}.

Record DepositResult : Type := {
  reference : string;
  authorization_url : string
}.

(** [{ status: true }]. *)
Record Acknowledgement : Type := { status : bool }.

Record TransferResult : Type := {
  result_status : string;
  result_message : string
}.

(** What one call of [initializeDeposit] draws from outside: the clock, four
    random octets, and the identifier of the row it creates. *)
Record DepositEnv : Type := {
  deposit_now : Z;
  deposit_random : list Byte.byte;
  deposit_txId : string
}.

(** [user.x] on an included relation, [null] when the row is missing. *)
Definition field {A B : Type} (o : option A) (f : A -> B) : M B :=
  match o with
  | Some a => ret (f a)
  | None => throw TypeError
  end.

Definition initializeDeposit (paystackService : PaystackService.t)
  (env : DepositEnv) (userId : string) (depositDto : CreateDepositDto)
  : M DepositResult :=
  wallet <- wallet_findUnique_userId userId ;;
  match wallet with
  | None => throw (NotFoundException "Wallet not found")
  | Some wallet =>
      user <- user_findUnique_id (wallet_userId wallet) ;;
      let reference :=
        "wallet_" +++ userId +++ "_" +++ Js.string_of_Z (deposit_now env)
        +++ "_" +++ Crypto.toHex (Crypto.octets (deposit_random env)) in
      email <- field user user_email ;;
      paystackResponse <-
        initializeTransaction paystackService
          {| req_email := email;
             req_amount :=
               JsNumber.Math_round
                 (JsNumber.mul (deposit_amount depositDto) (JsNumber.of_Z 100));
             req_reference := reference;
             req_metadata := (userId, wallet_id wallet) |} ;;
      transaction_create
        {| tx_id := deposit_txId env;
           tx_walletId := wallet_id wallet;
           tx_type := deposit;
           tx_amount := deposit_amount depositDto;
           tx_reference := reference;
           tx_paystackRef := Some (data_reference paystackResponse);
           tx_status := pending;
           tx_description := None;
           tx_paystackAuthorizationUrl :=
             Some (data_authorization_url paystackResponse) |} ;;;
      ret {| reference := reference;
             authorization_url := data_authorization_url paystackResponse |}
  end.

Record BalanceResult : Type := {
  balance : JsNumber.number;
  balance_wallet_number : string
}.

Definition getWalletBalance (userId : string) : M BalanceResult :=
  wallet <- wallet_findUnique_userId userId ;;
  match wallet with
  | None => throw (NotFoundException "Wallet not found")
  | Some wallet =>
      ret {| balance := wallet_balance wallet;
             balance_wallet_number := wallet_walletNumber wallet |}
  end.

(** [v.name]: a [TypeError] on [null], [undefined] when there is no such
    member. *)
Definition member (v : JSON.json) (name : string) : M (option JSON.json) :=
  match JSON.prop v name with
  | Some x => ret x
  | None => throw TypeError
  end.

(** [v.name] where [v] may be [undefined]. *)
Definition member_of (v : option JSON.json) (name : string) : M (option JSON.json) :=
  match v with
  | Some v => member v name
  | None => throw TypeError
  end.

(** [x === 'charge.success']. *)
Definition is_charge_success (x : option JSON.json) : bool :=
  match x with
  | Some (JSON.JStr s) => String.eqb s "charge.success"
  | _ => false
  end.

Definition handlePaystackWebhook (paystackService : PaystackService.t)
  (event : JSON.json) (signature : string) : M Acknowledgement :=
  let verified := verifyWebhookSignature paystackService event signature in
  if negb verified then throw (BadRequestException "Invalid webhook signature")
  else
    event_event <- member event "event" ;;
    if is_charge_success event_event then
      data <- member event "data" ;;
      reference <- member_of data "reference" ;;
      match reference with
      | Some (JSON.JStr reference) =>
          transaction <- transaction_findUnique_paystackRef reference ;;
          match transaction with
          | None => ret {| status := true |}
          | Some transaction =>
              (* include: { wallet: true } *)
              transaction_wallet <- wallet_findUnique_id (tx_walletId transaction) ;;
              match tx_status transaction with
              | success => ret {| status := true |}
              | _ =>
                  transaction_block
                    (transaction_update (tx_id transaction) (set_status success) ;;;
                     id <- field transaction_wallet wallet_id ;;
                     balance <- field transaction_wallet wallet_balance ;;
                     wallet_update id
                       (set_balance (JsNumber.add balance (tx_amount transaction)))) ;;;
                  ret {| status := true |}
              end
          end
      | _ =>
          (* Prisma wants a string for [where: { paystackRef }] *)
          throw PrismaClientValidationError
      end
    else ret {| status := true |}.

(** What one call of [transferFunds] draws from outside: three readings of
    the clock, three times four random octets, three row identifiers. *)
Record TransferEnv : Type := {
  now_transfer : Z;   random_transfer : list Byte.byte;
  now_recipient : Z;  random_recipient : list Byte.byte;
  now_sender : Z;     random_sender : list Byte.byte;
  transferId : string;
  senderTxId : string;
  recipientTxId : string
}.

Definition transferFunds (env : TransferEnv) (senderId : string)
  (transferDto : TransferDto) : M TransferResult :=
  senderWallet <- wallet_findUnique_userId senderId ;;
  match senderWallet with
  | None => throw (NotFoundException "Sender wallet not found")
  | Some senderWallet =>
  sender_user <- user_findUnique_id (wallet_userId senderWallet) ;;
  recipientWallet <- wallet_findUnique_walletNumber (wallet_number transferDto) ;;
  match recipientWallet with
  | None => throw (NotFoundException "Recipient wallet not found")
  | Some recipientWallet =>
  recipient_user <- user_findUnique_id (wallet_userId recipientWallet) ;;
  if String.eqb (wallet_userId senderWallet) (wallet_userId recipientWallet)
  then throw (BadRequestException "Cannot transfer to your own wallet")
  else if JsNumber.lt (wallet_balance senderWallet) (transfer_dto_amount transferDto)
  then throw (BadRequestException "Insufficient balance")
  else
    let amount := transfer_dto_amount transferDto in
    let transferReference :=
      "transfer_" +++ wallet_userId senderWallet +++ "_"
      +++ wallet_userId recipientWallet +++ "_"
      +++ Js.string_of_Z (now_transfer env) +++ "_"
      +++ Crypto.toHex (Crypto.octets (random_transfer env)) in
    let recipientReference :=
      "transfer_" +++ wallet_userId senderWallet +++ "_"
      +++ Js.string_of_Z (now_recipient env) +++ "_"
      +++ Crypto.toHex (Crypto.octets (random_recipient env)) in
    let senderReference :=
      "transfer_" +++ wallet_userId recipientWallet +++ "_"
      +++ Js.string_of_Z (now_sender env) +++ "_"
      +++ Crypto.toHex (Crypto.octets (random_sender env)) in
    transaction_block
      (wallet_update (wallet_id senderWallet)
         (set_balance (JsNumber.sub (wallet_balance senderWallet) amount)) ;;;
       wallet_update (wallet_id recipientWallet)
         (set_balance (JsNumber.add (wallet_balance recipientWallet) amount)) ;;;
       transfer_create
         {| transfer_id := transferId env;
            transfer_senderId := senderId;
            transfer_recipientId := wallet_userId recipientWallet;
            transfer_amount := amount;
            transfer_reference := transferReference;
            transfer_status := success;
            transfer_description := description transferDto |} ;;;
       recipient_name <- field recipient_user user_name ;;
       transaction_create
         {| tx_id := senderTxId env;
            tx_walletId := wallet_id senderWallet;
            tx_type := transfer;
            tx_amount := amount;
            tx_reference := senderReference;
            tx_paystackRef := None;
            tx_status := success;
            tx_description := Some ("Transfer to " +++ recipient_name);
            tx_paystackAuthorizationUrl := None |} ;;;
       sender_name <- field sender_user user_name ;;
       transaction_create
         {| tx_id := recipientTxId env;
            tx_walletId := wallet_id recipientWallet;
            tx_type := transfer;
            tx_amount := amount;
            tx_reference := recipientReference;
            tx_paystackRef := None;
            tx_status := success;
            tx_description := Some ("Received from " +++ sender_name);
            tx_paystackAuthorizationUrl := None |}) ;;;
    ret {| result_status := "success"; result_message := "Transfer completed" |}
  end
  end.

End WalletService.

(** ** [ApiKeyService] (src/common/services/api-key.service.ts) *)

Module ApiKeyService.

Definition MAX_ACTIVE_KEYS : Z := 5.

Record CreateApiKeyDto : Type := {
  name : string;
  permissions : list string;
  expiry : string
}.

Record RolloverApiKeyDto : Type := {
  expired_key_id : string;
  rollover_expiry : string
}.

(** The answer of [createApiKey] and [rolloverApiKey]; [expires_at] is kept
    as the time value that the source renders with [toISOString]. *)
Record ApiKeyResult : Type := {
  api_key : string;
  expires_at : Z;
  result_name : string;
  result_permissions : list string
}.

Record RevokeResult : Type := {
  revoke_message : string;
  revoked_id : string;
  revoked_at : option Z
}.

Section Service.

(** The zone of the host. *)
Variable LocalTZA : Z -> bool -> Z.

Definition calculateExpireTime (now : Z) (expiry : string) : Result Z :=
  if String.eqb expiry "1H" then Ok (now + 60 * 60 * 1000)
  else if String.eqb expiry "1D" then Ok (now + 24 * 60 * 60 * 1000)
  else if String.eqb expiry "1M" then
    Ok (JsDate.newDate LocalTZA
          (JsDate.getFullYear LocalTZA now)
          (JsDate.getMonth LocalTZA now + 1)
          (JsDate.getDate LocalTZA now)
          (JsDate.getHours LocalTZA now)
          (JsDate.getMinutes LocalTZA now)
          (JsDate.getSeconds LocalTZA now))
  else if String.eqb expiry "1Y" then
    Ok (JsDate.newDate LocalTZA
          (JsDate.getFullYear LocalTZA now + 1)
          (JsDate.getMonth LocalTZA now)
          (JsDate.getDate LocalTZA now)
          (JsDate.getHours LocalTZA now)
          (JsDate.getMinutes LocalTZA now)
          (JsDate.getSeconds LocalTZA now))
  else Throw (BadRequestException "Invalid expiry unit").

(** [random] stands for [crypto.randomBytes (32)]. *)
Definition generateApiKey (random : list Byte.byte) : string :=
  "sk_live_" +++ Crypto.toHex (Crypto.octets random).

(** What a call that creates a key draws from outside. *)
Record KeyEnv : Type := {
  now_check : Z;          (* [new Date ()] in the guard of the method *)
  now_expiry : Z;         (* [new Date ()] in [calculateExpireTime] *)
  now_stamp : Z;          (* [new Date ()] written to the old key *)
  key_random : list Byte.byte;
  new_key_id : string
}.

(** [where: { userId, revokedAt: null, expiresAt: { gt: now } }]. *)
Definition active_for (userId : string) (now : Z) (k : ApiKey) : bool :=
  (String.eqb (key_userId k) userId
   && match key_revokedAt k with None => true | Some _ => false end
   && (now <? key_expiresAt k))%bool.

Definition createApiKey (env : KeyEnv) (userId : string)
  (createApiKeyDto : CreateApiKeyDto) : M ApiKeyResult :=
  try_catch
    (activeKeys <- apiKey_count (active_for userId (now_check env)) ;;
     if MAX_ACTIVE_KEYS <=? activeKeys
     then throw (BadRequestException
                   ("Maximum of " +++ Js.string_of_Z MAX_ACTIVE_KEYS
                    +++ " active API keys allowed"))
     else
       let apiKey := generateApiKey (key_random env) in
       expiresAt <- lift (calculateExpireTime (now_expiry env) (expiry createApiKeyDto)) ;;
       createdKey <-
         apiKey_create
           {| key_id := new_key_id env;
              key_userId := userId;
              key_name := name createApiKeyDto;
              key_key := apiKey;
              key_permissions := permissions createApiKeyDto;
              key_expiresAt := expiresAt;
              key_revokedAt := None;
              key_rolledOverAt := None;
              key_rolledOverFrom := None |} ;;
       ret {| api_key := apiKey;
              expires_at := expiresAt;
              result_name := key_name createdKey;
              result_permissions := key_permissions createdKey |})
    (fun error =>
       match error with
       | BadRequestException _ => throw error
       | _ => throw (BadRequestException "Failed to create API key")
       end).

Definition revokeApiKey (now : Z) (userId keyId : string) : M RevokeResult :=
  key <- apiKey_findUnique_id keyId ;;
  match key with
  | None => throw (NotFoundException "API key not found")
  | Some key =>
      if negb (String.eqb (key_userId key) userId)
      then throw (ForbiddenException "You do not have permission to revoke this key")
      else
        revoked <- apiKey_update keyId (set_revokedAt now) ;;
        ret {| revoke_message := "API key revoked successfully";
               revoked_id := key_id revoked;
               revoked_at := key_revokedAt revoked |}
  end.

Definition is_set (d : option Z) : bool :=
  match d with Some _ => true | None => false end.

Definition rolloverApiKey (env : KeyEnv) (userId : string)
  (rolloverDto : RolloverApiKeyDto) : M ApiKeyResult :=
  oldKey <- apiKey_findUnique_id (expired_key_id rolloverDto) ;;
  match oldKey with
  | None => throw (NotFoundException "API key not found")
  | Some oldKey =>
      if negb (String.eqb (key_userId oldKey) userId)
      then throw (ForbiddenException "You do not have permission to rollover this key")
      else if ((now_check env <=? key_expiresAt oldKey)
               && negb (is_set (key_revokedAt oldKey)))%bool
      then throw (BadRequestException
                    "API key is still active. Only expired keys can be rolled over")
      else if is_set (key_revokedAt oldKey)
      then throw (BadRequestException
                    "API key has been revoked. Only expired keys can be rolled over")
      else
        let newApiKey := generateApiKey (key_random env) in
        newExpiresAt <-
          lift (calculateExpireTime (now_expiry env) (rollover_expiry rolloverDto)) ;;
        newKey <-
          apiKey_create
            {| key_id := new_key_id env;
               key_userId := userId;
               key_name := key_name oldKey +++ " (rolled over)";
               key_key := newApiKey;
               (* [oldKey.permissions || {}]: an array is never falsy *)
               key_permissions := key_permissions oldKey;
               key_expiresAt := newExpiresAt;
               key_revokedAt := None;
               key_rolledOverAt := None;
               key_rolledOverFrom := Some (key_id oldKey) |} ;;
        apiKey_update (key_id oldKey) (set_rolledOverAt (now_stamp env)) ;;;
        ret {| api_key := newApiKey;
               expires_at := newExpiresAt;
               result_name := key_name newKey;
               result_permissions := key_permissions newKey |}
  end.

End Service.

End ApiKeyService.

(** ** The guards *)

(** The part of an incoming request the guards read and write. *)
Record RequestUser : Type := { id : string }.

Record Request : Type := {
  url : string;
  header_authorization : option string;
  header_x_api_key : option string;
  request_user : option RequestUser;
  apiKeyPermissions : option (list string);
  apiKeyId : option string
}.

(** [JwtAuthGuard] (src/common/guards/jwt-auth.guard.ts) *)

Module JwtAuthGuard.

(** [jwtService.verify (token)]: the subject of the token, or the message of
    the error it throws. *)
Definition JwtService : Type := string -> string + string.

Definition canActivate (jwtService : JwtService) (request : Request) : M Request :=
  let authHeader := header_authorization request in
  let authOnlyEndpoint := Js.startsWith (url request) "/keys" in
  if (negb (Js.truthy_opt authHeader)
      && Js.truthy_opt (header_x_api_key request)
      && negb authOnlyEndpoint)%bool
  then ret request
  else if (negb (Js.truthy_opt authHeader) && authOnlyEndpoint)%bool
  then throw (UnauthorizedException "Missing authentication: Bearer JWT required")
  else
    match authHeader with
    | None =>
        throw (UnauthorizedException
                 "Missing authentication: Bearer JWT or x-api-key header required")
    | Some authHeader =>
        if negb (Js.truthy authHeader)
        then throw (UnauthorizedException
                      "Missing authentication: Bearer JWT or x-api-key header required")
        else
          let token := Js.trim (Js.replace "Bearer " EmptyString authHeader) in
          if negb (Js.truthy token)
          then throw (UnauthorizedException "No JWT token provided")
          else
            match jwtService token with
            | inl sub =>
                ret {| url := url request;
                       header_authorization := header_authorization request;
                       header_x_api_key := header_x_api_key request;
                       request_user := Some {| id := sub |};
                       apiKeyPermissions := Some ["deposit"; "transfer"; "read"]%string;
                       apiKeyId := apiKeyId request |}
            | inr message =>
                throw (UnauthorizedException
                         ("Invalid or expired JWT token: " +++ message))
            end
    end.

End JwtAuthGuard.

(** [ApiKeyGuard] (src/common/services/api-key.service.ts, second part) *)

Module ApiKeyGuard.

Definition user_has_id (request : Request) : bool :=
  match request_user request with
  | Some u => Js.truthy (id u)
  | None => false
  end.

(** [now] is the reading of [new Date ()] in the expiry test. *)
Definition canActivate (now : Z) (request : Request) : M Request :=
  if user_has_id request then ret request
  else
    match header_x_api_key request with
    | None =>
        throw (UnauthorizedException
                 "Missing authentication: Bearer JWT or x-api-key header required")
    | Some apiKey =>
        if negb (Js.truthy apiKey)
        then throw (UnauthorizedException
                      "Missing authentication: Bearer JWT or x-api-key header required")
        else
          try_catch
            (key <- apiKey_findUnique_key apiKey ;;
             match key with
             | None => throw (ForbiddenException "Invalid API key")
             | Some key =>
                 key_user <- user_findUnique_id (key_userId key) ;;
                 if ApiKeyService.is_set (key_revokedAt key)
                 then throw (ForbiddenException "API key has been revoked")
                 else if key_expiresAt key <? now
                 then throw (ForbiddenException "API key has expired")
                 else
                   ret {| url := url request;
                          header_authorization := header_authorization request;
                          header_x_api_key := header_x_api_key request;
                          request_user :=
                            option_map (fun u => {| id := user_id u |}) key_user;
                          apiKeyPermissions := Some (key_permissions key);
                          apiKeyId := Some (key_id key) |}
             end)
            (fun error =>
               match error with
               | ForbiddenException _ => throw error
               | _ =>
                   (* with the message of the error appended; no such error
                      arises from the reads above *)
                   throw (UnauthorizedException "Invalid or expired API key: ")
               end)
    end.

End ApiKeyGuard.

(** ** [WalletController] (src/wallet/wallet.controller.ts) *)

Module WalletController.

Import WalletService.

Definition validateApiKeyPermission (permissions : list string)
  (requiredPermission : string) : bool :=
  Js.includes permissions requiredPermission.

Definition not_permitted : Exception :=
  UnauthorizedException
    "This api key does not have the necessary permissions to  perform this action".

(** [@UseGuards (JwtAuthGuard, ApiKeyGuard)]: both guards, in this order,
    before the handler. *)
Definition UseGuards {A : Type} (jwtService : JwtAuthGuard.JwtService) (now : Z)
  (request : Request) (handler : Request -> M A) : M A :=
  request1 <- JwtAuthGuard.canActivate jwtService request ;;
  request2 <- ApiKeyGuard.canActivate now request1 ;;
  handler request2.

(** Modelled from the spec: the parameter decorators [@CurrentUser ()] and
    [@ApiKeyPermissions ()] are not among the sources; they hand the handler
    the identity and the permission set the gate resolved, that is
    [request.user] and [request.apiKeyPermissions]. *)
Definition CurrentUser (request : Request) : option RequestUser :=
  request_user request.

Definition ApiKeyPermissions (request : Request) : option (list string) :=
  apiKeyPermissions request.

(** The first two lines of every guarded handler ([getBalance],
    [initializeDeposit], [verifyDepositStatus], [transfer],
    [getTransactions]): read the permission set (a [TypeError] on
    [undefined.includes]) and test it. *)
Definition require (request : Request) (requiredPermission : string) : M unit :=
  permissions <- field (ApiKeyPermissions request) (fun p => p) ;;
  let permitted := validateApiKeyPermission permissions requiredPermission in
  if negb permitted then throw not_permitted else ret tt.

Definition getBalance (jwtService : JwtAuthGuard.JwtService) (now : Z)
  (request : Request) : M BalanceResult :=
  UseGuards jwtService now request (fun request =>
    require request "read" ;;;
    user_id <- field (CurrentUser request) id ;;
    WalletService.getWalletBalance user_id).

Definition initializeDeposit (jwtService : JwtAuthGuard.JwtService) (now : Z)
  (paystackService : PaystackService.t) (env : DepositEnv)
  (request : Request) (depositDto : CreateDepositDto) : M DepositResult :=
  UseGuards jwtService now request (fun request =>
    require request "deposit" ;;;
    user_id <- field (CurrentUser request) id ;;
    WalletService.initializeDeposit paystackService env user_id depositDto).

Definition transfer (jwtService : JwtAuthGuard.JwtService) (now : Z)
  (env : TransferEnv) (request : Request) (transferDto : TransferDto)
  : M TransferResult :=
  UseGuards jwtService now request (fun request =>
    require request "transfer" ;;;
    user_id <- field (CurrentUser request) id ;;
    WalletService.transferFunds env user_id transferDto).

(** [handlePaystackWebhook]: no guard.  [request.body] is what the body
    parser of the framework made of the bytes received: the parsed payload,
    or, from a parser that hands the text on, a string, which the handler
    parses itself.  The parsed value is passed on. *)
Definition handlePaystackWebhook (paystackService : PaystackService.t)
  (request_body : JSON.json) (signature : string) : M Acknowledgement :=
  match request_body with
  | JSON.JStr text =>
      match JSON.parse text with
      | Some body => WalletService.handlePaystackWebhook paystackService body signature
      | None => throw SyntaxError
      end
  | body => WalletService.handlePaystackWebhook paystackService body signature
  end.

End WalletController.

(** ** Notions used in the statements *)

Module Spec.

Import WalletService.

(** A list of strings without a repetition. *)
Fixpoint distinct (l : list string) : bool :=
  match l with
  | [] => true
  | x :: r => (negb (existsb (String.eqb x) r) && distinct r)%bool
  end.

(** No underscore in the string. *)
Fixpoint no_underscore (s : string) : Prop :=
  match s with
  | EmptyString => True
  | String c r => c <> "_"%char /\ no_underscore r
  end.


(** The payload is a [charge.success] notification for the gateway
    reference [r]. *)
Definition charge_success_for (event : JSON.json) (r : string) : Prop :=
  JSON.prop event "event" = Some (Some (JSON.JStr "charge.success")) /\
  exists data, JSON.prop event "data" = Some (Some data) /\
               JSON.prop data "reference" = Some (Some (JSON.JStr r)).

(** The notification the gateway sends for reference [r], and the signature
    the source expects for a parsed payload. *)
Definition charge_success (r : string) : JSON.json :=
  JSON.JObj [("event"%string, JSON.JStr "charge.success");
             ("data"%string, JSON.JObj [("reference"%string, JSON.JStr r)])].

Definition expected_signature (paystackService : PaystackService.t)
  (body : JSON.json) : string :=
  Crypto.createHmac_sha512_hex (PaystackService.secretKey paystackService)
                               (JSON.stringify body).

(** The shape of a change the webhook may make to a transaction row. *)
Definition settled_or_same (t t' : Transaction) : Prop :=
  t' = t \/ (tx_status t <> success /\ t' = set_status success t).

Definition acknowledgement : Acknowledgement := {| status := true |}.

(** The expiry units. *)
Definition units : list string := ["1H"; "1D"; "1M"; "1Y"]%string.

(** The month after month [m] of year [y]. *)
Definition next_month (y m : Z) : Z * Z := (y + (m + 1) / 12, (m + 1) mod 12).

(** Where a local time [tl] lands with respect to the month [target] (a
    year and a month) and the local time [nl] it was computed from: on the
    day of the month and at the hour, minute and second of [nl],
    milliseconds zero, in that month if it has such a day, and otherwise as
    many days into the following month as the day of the month exceeds the
    length of the target month. *)
Definition landed (nl tl : Z) (target : Z * Z) : Prop :=
  let (y, m) := target in
  let D := JsDate.DateFromTime nl in
  JsDate.HourFromTime tl = JsDate.HourFromTime nl /\
  JsDate.MinFromTime tl = JsDate.MinFromTime nl /\
  JsDate.SecFromTime tl = JsDate.SecFromTime nl /\
  JsDate.msFromTime tl = 0 /\
  (D <= JsDate.DaysInMonth y m ->
   JsDate.YearFromTime tl = y /\ JsDate.MonthFromTime tl = m /\
   JsDate.DateFromTime tl = D) /\
  (JsDate.DaysInMonth y m < D ->
   let (y2, m2) := next_month y m in
   JsDate.YearFromTime tl = y2 /\ JsDate.MonthFromTime tl = m2 /\
   JsDate.DateFromTime tl = D - JsDate.DaysInMonth y m).

(** The expiry [r] computed at [now] on a host with the zone [LocalTZA]:
    the instant the zone gives for a local time [tl] that lands in [target];
    the clock of the host shows [tl] at [r] whenever the zone maps [tl] back
    to itself (it does not when a clock change skips [tl]). *)
Definition expires (LocalTZA : Z -> bool -> Z) (now r : Z) (target : Z * Z) : Prop :=
  exists tl,
    r = JsDate.UTC LocalTZA tl /\
    landed (JsDate.LocalTime LocalTZA now) tl target /\
    (JsDate.LocalTime LocalTZA (JsDate.UTC LocalTZA tl) = tl ->
     landed (JsDate.LocalTime LocalTZA now) (JsDate.LocalTime LocalTZA r) target).

(** "The same calendar day and time, one calendar month after [t]". *)
Definition same_day_next_month (LocalTZA : Z -> bool -> Z) (t r : Z) : Prop :=
  let (y, m) :=
    next_month (JsDate.getFullYear LocalTZA t) (JsDate.getMonth LocalTZA t) in
  JsDate.getFullYear LocalTZA r = y /\ JsDate.getMonth LocalTZA r = m /\
  JsDate.getDate LocalTZA r = JsDate.getDate LocalTZA t /\
  JsDate.getHours LocalTZA r = JsDate.getHours LocalTZA t /\
  JsDate.getMinutes LocalTZA r = JsDate.getMinutes LocalTZA t /\
  JsDate.getSeconds LocalTZA r = JsDate.getSeconds LocalTZA t /\
  JsDate.getMilliseconds LocalTZA r = JsDate.getMilliseconds LocalTZA t.

(** The store after the deposit [tx] on wallet [wl] has been settled. *)
Definition settled (tx : Transaction) (wl : Wallet) (w : World) : World :=
  with_wallets
    (updateBy wallet_id (wallet_id wl)
       (set_balance (JsNumber.add (wallet_balance wl) (tx_amount tx))) (wallets w))
    (with_transactions
       (updateBy tx_id (tx_id tx) (set_status success) (transactions w)) w).

(** The transition from [pending] to [success]: the status, and nothing
    else of the row. *)
Definition pending_to_success (t t' : Transaction) : Prop :=
  tx_status t = pending /\ tx_status t' = success /\
  tx_id t' = tx_id t /\ tx_walletId t' = tx_walletId t /\ tx_type t' = tx_type t /\
  tx_amount t' = tx_amount t /\ tx_reference t' = tx_reference t /\
  tx_paystackRef t' = tx_paystackRef t /\ tx_description t' = tx_description t /\
  tx_paystackAuthorizationUrl t' = tx_paystackAuthorizationUrl t.

(** What the sentence "pending to success is the only state transition the
    handler performs" asks of the transaction table before and after. *)
Definition only_pending_to_success (w w' : World) : Prop :=
  Forall2 (fun t t' => t' = t \/ pending_to_success t t')
          (transactions w) (transactions w').

(** The statuses the services write: [pending] when a deposit is initiated,
    [success] when it is settled and on the rows of a transfer. *)
Definition written_statuses (w : World) : Prop :=
  forall t, In t (transactions w) -> tx_status t = pending \/ tx_status t = success.

(** The row stored under the gateway reference [r]. *)
Definition by_paystackRef (r : string) (w : World) : option Transaction :=
  find (fun t => same_ref (tx_paystackRef t) r) (transactions w).

End Spec.

(** ** Sample data *)

Module Sample.

Import WalletService PaystackService.

Definition alice : User :=
  {| user_id := "user_a"; user_email := "alice@example.com"; user_name := "Alice" |}.
Definition bob : User :=
  {| user_id := "user_b"; user_email := "bob@example.com"; user_name := "Bob" |}.

Definition walletA : Wallet :=
  {| wallet_id := "wallet_a"; wallet_userId := "user_a";
     wallet_balance := JsNumber.of_Z 10000; wallet_walletNumber := "4566678954356" |}.
Definition walletB : Wallet :=
  {| wallet_id := "wallet_b"; wallet_userId := "user_b";
     wallet_balance := JsNumber.of_Z 0; wallet_walletNumber := "1234567890123" |}.

Definition world0 : World :=
  {| users := [alice; bob]; wallets := [walletA; walletB];
     transactions := []; transfers := []; apiKeys := [];
     gateway_requests := [] |}.

(** Alice holds 9007199254740992, which is [2 ^ 53], and Bob holds 1. *)
Definition world_large : World :=
  with_wallets [set_balance (JsNumber.of_Z 9007199254740992) walletA;
                set_balance (JsNumber.of_Z 1) walletB] world0.

(** A gateway that accepts every request and echoes its reference. *)
Definition paystack : PaystackService.t :=
  {| secretKey := "sk_test_secret";
     post_transaction_initialize := fun req =>
       AxiosResponse true "Authorization URL created"
         (Some {| data_reference := req_reference req;
                  data_authorization_url := "https://checkout.paystack.com/0peioxfhpn";
                  data_access_code := "0peioxfhpn" |}) |}.

Definition deposit_tx (st : TransactionStatus) : Transaction :=
  {| tx_id := "tx_1"; tx_walletId := "wallet_a"; tx_type := deposit;
     tx_amount := JsNumber.of_Z 5000;
     tx_reference := "wallet_user_a_1704099600000_a1b2c3d4";
     tx_paystackRef := Some "ref_1"%string; tx_status := st;
     tx_description := None; tx_paystackAuthorizationUrl := None |}.

(** [world0] with one deposit of 5000 on Alice's wallet, in status [st]. *)
Definition world_with_deposit (st : TransactionStatus) : World :=
  with_transactions [deposit_tx st] world0.

(** A host on UTC. *)
Definition utc : Z -> bool -> Z := fun _ _ => 0.

(** 2025-01-31T10:30:00.500Z and 2025-03-03T10:30:00.000Z. *)
Definition january_31 : Z := 1738319400500.
Definition march_3 : Z := 1740997800000.

(** Keys of Alice: [n] names the key, [expiresAt] and [revokedAt] are as
    given. *)
Definition key (n : string) (expiresAt : Z) (revokedAt : option Z) : ApiKey :=
  {| key_id := "key_" +++ n; key_userId := "user_a";
     key_name := "service " +++ n; key_key := "sk_live_" +++ n;
     key_permissions := ["read"; "deposit"]%string;
     key_expiresAt := expiresAt; key_revokedAt := revokedAt;
     key_rolledOverAt := None; key_rolledOverFrom := None |}.

(** 2026-01-01T00:00:00Z and 2025-01-01T00:00:00Z. *)
Definition next_year : Z := 1767225600000.
Definition last_new_year : Z := 1735689600000.

(** Five keys that are active on 31 January 2025. *)
Definition world_five_keys : World :=
  with_apiKeys [key "1" next_year None; key "2" next_year None;
                key "3" next_year None; key "4" next_year None;
                key "5" next_year None] world0.

(** One key expired, one active, one revoked (and expired). *)
Definition world_old_keys : World :=
  with_apiKeys [key "old" last_new_year None; key "live" next_year None;
                key "gone" last_new_year (Some last_new_year)] world0.

Definition key_env : ApiKeyService.KeyEnv :=
  {| ApiKeyService.now_check := january_31;
     ApiKeyService.now_expiry := january_31;
     ApiKeyService.now_stamp := january_31 + 1;
     ApiKeyService.key_random :=
       [Byte.x00; Byte.x01; Byte.x02; Byte.x03; Byte.x04; Byte.x05; Byte.x06; Byte.x07;
        Byte.x08; Byte.x09; Byte.x0a; Byte.x0b; Byte.x0c; Byte.x0d; Byte.x0e; Byte.x0f;
        Byte.x10; Byte.x11; Byte.x12; Byte.x13; Byte.x14; Byte.x15; Byte.x16; Byte.x17;
        Byte.x18; Byte.x19; Byte.x1a; Byte.x1b; Byte.x1c; Byte.x1d; Byte.x1e; Byte.x1f];
     ApiKeyService.new_key_id := "key_new" |}.

Definition rollover_dto (n : string) : ApiKeyService.RolloverApiKeyDto :=
  {| ApiKeyService.expired_key_id := "key_" +++ n;
     ApiKeyService.rollover_expiry := "1M" |}.

Definition new_key_dto : ApiKeyService.CreateApiKeyDto :=
  {| ApiKeyService.name := "wallet-service";
     ApiKeyService.permissions := ["deposit"; "transfer"; "read"]%string;
     ApiKeyService.expiry := "1D" |}.

(** A request to a wallet route that presents the key ["sk_live_1"] and no
    bearer token, and a token verifier that accepts nothing. *)
Definition request_with_key (k : string) : Request :=
  {| url := "/wallet/transfer"; header_authorization := None;
     header_x_api_key := Some k; request_user := None;
     apiKeyPermissions := None; apiKeyId := None |}.
Definition no_jwt : JwtAuthGuard.JwtService := fun _ => inr "jwt malformed"%string.

Definition transfer_env : TransferEnv :=
  {| now_transfer := 1704185600000;
     random_transfer := [Byte.xe5; Byte.xf6; Byte.x07; Byte.x18];
     now_recipient := 1704185600000;
     random_recipient := [Byte.x29; Byte.x3a; Byte.x4b; Byte.x5c];
     now_sender := 1704185600001;
     random_sender := [Byte.x6d; Byte.x7e; Byte.x8f; Byte.x90];
     transferId := "transfer_1";
     senderTxId := "tx_2";
     recipientTxId := "tx_3" |}.

Definition deposit_env : DepositEnv :=
  {| deposit_now := 1704099600000;
     deposit_random := [Byte.xa1; Byte.xb2; Byte.xc3; Byte.xd4];
     deposit_txId := "tx_1" |}.

(** The notification the gateway sends once the deposit initiated with
    [deposit_env] has been paid. *)
Definition paid : JSON.json :=
  Spec.charge_success "wallet_user_a_1704099600000_a1b2c3d4".
Definition paid_signature : string := Spec.expected_signature paystack paid.

(** Alice sends [amount] to Bob's wallet number. *)
Definition to_bob (amount : Z) : TransferDto :=
  {| wallet_number := "1234567890123";
     transfer_dto_amount := JsNumber.of_Z amount;
     description := Some "Payment for services"%string |}.

(** Notifications for that deposit, with the signature the handler accepts. *)
Definition notification : JSON.json := Spec.charge_success "ref_1".
Definition notification_signature : string :=
  Spec.expected_signature paystack notification.

(** The same notification as the gateway might write it, with a space after
    each colon and comma, and the signature of the gateway over those bytes. *)
Definition q (s : string) : string :=
  String Js.dquote (s +++ String Js.dquote EmptyString).
Definition spaced_body : string :=
  "{" +++ q "event" +++ ": " +++ q "charge.success" +++ ", " +++ q "data"
  +++ ": {" +++ q "reference" +++ ": " +++ q "ref_1" +++ "}}".
Definition spaced_body_signature : string :=
  Crypto.createHmac_sha512_hex (secretKey paystack) spaced_body.

Definition other_notification : JSON.json :=
  JSON.JObj [("event"%string, JSON.JStr "transfer.success");
             ("data"%string, JSON.JObj [("reference"%string, JSON.JStr "ref_1")])].
Definition other_notification_signature : string :=
  Spec.expected_signature paystack other_notification.

End Sample.

(** ** The ledger: what a balance is made of *)

Module Ledger.

(** The ledger is kept in whole units: an amount is read as the integer it
    holds ([JsNumber.to_Z]), and a Number is whole when it is the Number of
    an integer of magnitude [2 ^ 53 - 1] at most. *)
Definition whole (x : JsNumber.number) : Prop :=
  Z.abs (JsNumber.to_Z x) <= JsNumber.max_safe /\ x = JsNumber.of_Z (JsNumber.to_Z x).

(** The sum of a column over some rows. *)
Definition sum {A : Type} (f : A -> Z) (rows : list A) : Z :=
  fold_right (fun r acc => f r + acc) 0 rows.

Definition is_success (st : TransactionStatus) : bool :=
  match st with success => true | _ => false end.

Definition is_deposit (ty : TransactionType) : bool :=
  match ty with deposit => true | _ => false end.

(** The amount a transaction row adds to the wallet [walletId]: its amount
    when it is a settled deposit on that wallet, nothing otherwise. *)
Definition credit (walletId : string) (t : Transaction) : Z :=
  if (String.eqb (tx_walletId t) walletId && is_deposit (tx_type t)
      && is_success (tx_status t))%bool
  then JsNumber.to_Z (tx_amount t) else 0.

(** What a transfer record moves into and out of the wallet of [userId]. *)
Definition incoming (userId : string) (t : Transfer) : Z :=
  if (String.eqb (transfer_recipientId t) userId && is_success (transfer_status t))%bool
  then JsNumber.to_Z (transfer_amount t) else 0.

Definition outgoing (userId : string) (t : Transfer) : Z :=
  if (String.eqb (transfer_senderId t) userId && is_success (transfer_status t))%bool
  then JsNumber.to_Z (transfer_amount t) else 0.

(** Settled deposits plus transfers received minus transfers sent. *)
Definition ledger (x : Wallet) (w : World) : Z :=
  sum (credit (wallet_id x)) (transactions w)
  + sum (incoming (wallet_userId x)) (transfers w)
  - sum (outgoing (wallet_userId x)) (transfers w).

(** All the money held in wallets. *)
Definition total_balance (w : World) : Z :=
  sum (fun x => JsNumber.to_Z (wallet_balance x)) (wallets w).

(** A store in which every balance is accounted for by the rows: wallets
    and transactions are told apart by their identifiers, a user owns one
    wallet at most, only deposits carry a gateway reference, the amounts of
    the rows are whole, and each balance is the ledger of its wallet, a
    whole number as well. *)
Record consistent (w : World) : Prop := {
  wallet_ids : NoDup (map wallet_id (wallets w));
  wallet_owners : NoDup (map wallet_userId (wallets w));
  transaction_ids : NoDup (map tx_id (transactions w));
  gateway_deposits :
    forall t, In t (transactions w) -> tx_paystackRef t <> None ->
              tx_type t = deposit;
  transaction_amounts : forall t, In t (transactions w) -> whole (tx_amount t);
  transfer_amounts : forall t, In t (transfers w) -> whole (transfer_amount t);
  balances :
    forall x, In x (wallets w) ->
              Z.abs (ledger x w) <= JsNumber.max_safe /\
              wallet_balance x = JsNumber.of_Z (ledger x w)
}.

(** The identity of a wallet: everything but its balance. *)
Definition identity (x : Wallet) : string * string * string :=
  (wallet_id x, wallet_userId x, wallet_walletNumber x).

(** Alice's opening deposit of 10000, settled, and the sample store with
    it; then with a second deposit of 5000 in status [st]. *)
Definition opening_deposit : Transaction :=
  {| tx_id := "tx_0"; tx_walletId := "wallet_a"; tx_type := deposit;
     tx_amount := JsNumber.of_Z 10000;
     tx_reference := "wallet_user_a_1704000000000_00000000";
     tx_paystackRef := Some "ref_0"%string; tx_status := success;
     tx_description := None; tx_paystackAuthorizationUrl := None |}.

Definition funded : World := with_transactions [opening_deposit] Sample.world0.

Definition funded_with_deposit (st : TransactionStatus) : World :=
  with_transactions [opening_deposit; Sample.deposit_tx st] Sample.world0.

End Ledger.

(** ** [PaystackService.verifyTransaction] (src/paystack/paystack.service.ts) *)

Module PaystackVerification.

(** The members of the gateway's answer that [verifyTransaction] returns. *)
Record VerifyData : Type := {
  verify_status : string;
  verify_reference : string;
  verify_amount : JsNumber.number;
  verify_currency : string;
  verify_customer : JSON.json
}.

(** What [axiosInstance.get] comes back with: a rejected promise, or a
    response body [{ status, message, data }]. *)
Inductive AxiosGetResult : Type :=
| AxiosGetError
| AxiosGetResponse (status : bool) (message : string) (data : option VerifyData).

(** [get] stands for [this.axiosInstance.get]; its argument is the path. *)
Definition verifyTransaction (get : string -> AxiosGetResult) (reference : string)
  : M VerifyData :=
  try_catch
    (fun w =>
       match get ("/transaction/verify/" +++ reference) with
       | AxiosGetError => (Throw AxiosRequestError, w)
       | AxiosGetResponse status message d =>
           if negb status then (Throw (BadRequestException message), w)
           else match d with
                | Some d => (Ok d, w)
                | None => (Throw TypeError, w)
                end
       end)
    (fun _ =>
       throw (InternalServerErrorException
                "Failed to verify payment. Please try again.")).

End PaystackVerification.

(** ** [WalletService.verifyDepositStatus] and its route *)

Module DepositStatus.

Import PaystackVerification.

Module Service.

Definition transaction_findUnique_reference (r : string) : M (option Transaction) :=
  fun w => (Ok (findBy tx_reference r (transactions w)), w).

Record StatusResult : Type := {
  status_reference : string;
  status_status : TransactionStatus;
  status_amount : JsNumber.number
}.

Definition is_pending (st : TransactionStatus) : bool :=
  match st with pending => true | _ => false end.

(** src/wallet/wallet.service.ts, [verifyDepositStatus]. *)
Definition verifyDepositStatus (get : string -> AxiosGetResult) (reference : string)
  : M StatusResult :=
  transaction <- transaction_findUnique_reference reference ;;
  match transaction with
  | None => throw (NotFoundException "Transaction not found")
  | Some transaction =>
      (if (Js.truthy_opt (tx_paystackRef transaction)
           && is_pending (tx_status transaction))%bool
       then
         match tx_paystackRef transaction with
         | Some paystackRef => verifyTransaction get paystackRef ;;; ret tt
         | None => ret tt
         end
       else ret tt) ;;;
      ret {| status_reference := tx_reference transaction;
             status_status := tx_status transaction;
             status_amount := tx_amount transaction |}
  end.

End Service.

Module Controller.

Import Service.

(** src/wallet/wallet.controller.ts, [verifyDepositStatus]: the handler of
    [GET wallet/deposit/:reference/status]. *)
Definition verifyDepositStatus (jwtService : JwtAuthGuard.JwtService) (now : Z)
  (get : string -> AxiosGetResult) (request : Request) (reference : string)
  : M StatusResult :=
  WalletController.UseGuards jwtService now request (fun request =>
    WalletController.require request "read" ;;;
    Service.verifyDepositStatus get reference).

End Controller.

End DepositStatus.

(** ** Listings: [getTransactionHistory] and [listApiKeys] *)

Module Listing.

(** [orderBy: { createdAt: 'desc' }].  The column [createdAt] is not among
    the columns of the rows here; the creation time of a row is given by the
    function [createdAt].  Rows created at the same time keep their order in
    the table (the database may return them in any order). *)
Fixpoint insert_desc {A : Type} (createdAt : A -> Z) (r : A) (rows : list A)
  : list A :=
  match rows with
  | [] => [r]
  | x :: rest =>
      if createdAt x <=? createdAt r then r :: rows
      else x :: insert_desc createdAt r rest
  end.

Definition orderBy_desc {A : Type} (createdAt : A -> Z) (rows : list A) : list A :=
  fold_right (insert_desc createdAt) [] rows.

(** [arr.map ((x) => f x)] where the callback reads the clock: [now i] is
    the reading while element [i] is mapped. *)
Fixpoint map_at {A B : Type} (f : Z -> A -> B) (now : nat -> Z) (i : nat)
  (l : list A) : list B :=
  match l with
  | [] => []
  | x :: r => f (now i) x :: map_at f now (S i) r
  end.

(** [prisma.transaction.findMany ({ where: { walletId }, orderBy, take })]. *)
Definition transaction_findMany_walletId (createdAt : Transaction -> Z)
  (walletId : string) (take : nat) : M (list Transaction) :=
  fun w =>
    (Ok (firstn take
           (orderBy_desc createdAt
              (filter (fun t => String.eqb (tx_walletId t) walletId)
                      (transactions w)))), w).

(** [prisma.apiKey.findMany ({ where: { userId }, orderBy })]. *)
Definition apiKey_findMany_userId (createdAt : ApiKey -> Z) (userId : string)
  : M (list ApiKey) :=
  fun w =>
    (Ok (orderBy_desc createdAt
           (filter (fun k => String.eqb (key_userId k) userId) (apiKeys w))), w).

Record HistoryEntry : Type := {
  entry_id : string;
  entry_type : TransactionType;
  entry_amount : JsNumber.number;
  entry_status : TransactionStatus;
  entry_description : option string;
  entry_reference : string;
  entry_createdAt : Z
}.

Definition history_entry (createdAt : Transaction -> Z) (t : Transaction)
  : HistoryEntry :=
  {| entry_id := tx_id t;
     entry_type := tx_type t;
     entry_amount := tx_amount t;
     entry_status := tx_status t;
     entry_description := tx_description t;
     entry_reference := tx_reference t;
     entry_createdAt := createdAt t |}.

(** src/wallet/wallet.service.ts, [getTransactionHistory]. *)
Definition getTransactionHistory (createdAt : Transaction -> Z) (userId : string)
  (limit : nat) : M (list HistoryEntry) :=
  wallet <- wallet_findUnique_userId userId ;;
  match wallet with
  | None => throw (NotFoundException "Wallet not found")
  | Some wallet =>
      transactions <-
        transaction_findMany_walletId createdAt (wallet_id wallet) limit ;;
      ret (map (history_entry createdAt) transactions)
  end.

(** src/wallet/wallet.controller.ts, [getTransactions]: the service method
    is called without a limit, which then is 50. *)
Definition getTransactions (jwtService : JwtAuthGuard.JwtService) (now : Z)
  (createdAt : Transaction -> Z) (request : Request) : M (list HistoryEntry) :=
  WalletController.UseGuards jwtService now request (fun request =>
    WalletController.require request "read" ;;;
    user_id <- WalletService.field (WalletController.CurrentUser request) id ;;
    getTransactionHistory createdAt user_id 50).

(** One element of the answer of [listApiKeys]; the times are kept as time
    values. *)
Record ListedKey : Type := {
  listed_id : string;
  listed_name : string;
  listed_key : string;
  listed_permissions : list string;
  listed_expires_at : Z;
  listed_revoked_at : option Z;
  is_active : bool;
  listed_created_at : Z
}.

Definition listed (createdAt : ApiKey -> Z) (now : Z) (key : ApiKey) : ListedKey :=
  {| listed_id := key_id key;
     listed_name := key_name key;
     listed_key := key_key key;
     listed_permissions := key_permissions key;
     listed_expires_at := key_expiresAt key;
     listed_revoked_at := key_revokedAt key;
     is_active := (negb (ApiKeyService.is_set (key_revokedAt key))
                   && (now <? key_expiresAt key))%bool;
     listed_created_at := createdAt key |}.

(** src/common/services/api-key.service.ts, [listApiKeys]. *)
Definition listApiKeys (createdAt : ApiKey -> Z) (now : nat -> Z) (userId : string)
  : M (list ListedKey) :=
  try_catch
    (keys <- apiKey_findMany_userId createdAt userId ;;
     ret (map_at (listed createdAt) now 0 keys))
    (fun _ => throw (BadRequestException "Failed to list API keys")).

End Listing.

(** ** [ApiKeyController] (src/common/controllers/api-key.controller.ts) *)

Module ApiKeyController.

(** [@UseGuards (JwtAuthGuard)] on the class: the one guard before every
    handler. *)
Definition UseGuards {A : Type} (jwtService : JwtAuthGuard.JwtService)
  (request : Request) (handler : Request -> M A) : M A :=
  request1 <- JwtAuthGuard.canActivate jwtService request ;;
  handler request1.

Definition createApiKey (LocalTZA : Z -> bool -> Z)
  (jwtService : JwtAuthGuard.JwtService)
  (env : ApiKeyService.KeyEnv) (request : Request)
  (createApiKeyDto : ApiKeyService.CreateApiKeyDto) : M ApiKeyService.ApiKeyResult :=
  UseGuards jwtService request (fun request =>
    user_id <- WalletService.field (WalletController.CurrentUser request) id ;;
    ApiKeyService.createApiKey LocalTZA env user_id createApiKeyDto).

Definition revokeApiKey (jwtService : JwtAuthGuard.JwtService) (now : Z)
  (request : Request) (keyId : string) : M ApiKeyService.RevokeResult :=
  UseGuards jwtService request (fun request =>
    user_id <- WalletService.field (WalletController.CurrentUser request) id ;;
    ApiKeyService.revokeApiKey now user_id keyId).

Definition rolloverApiKey (LocalTZA : Z -> bool -> Z)
  (jwtService : JwtAuthGuard.JwtService)
  (env : ApiKeyService.KeyEnv) (request : Request)
  (rolloverDto : ApiKeyService.RolloverApiKeyDto) : M ApiKeyService.ApiKeyResult :=
  UseGuards jwtService request (fun request =>
    user_id <- WalletService.field (WalletController.CurrentUser request) id ;;
    ApiKeyService.rolloverApiKey LocalTZA env user_id rolloverDto).

Definition listApiKeys (jwtService : JwtAuthGuard.JwtService)
  (createdAt : ApiKey -> Z) (now : nat -> Z) (request : Request)
  : M (list Listing.ListedKey) :=
  UseGuards jwtService request (fun request =>
    user_id <- WalletService.field (WalletController.CurrentUser request) id ;;
    Listing.listApiKeys createdAt now user_id).

End ApiKeyController.

(** ** Further notions and sample data *)

Module Notions.

(** No white space character in the string. *)
Fixpoint no_space (s : string) : bool :=
  match s with
  | EmptyString => true
  | String c r =>
      (match Js.after_space s with None => true | Some _ => false end
       && no_space r)%bool
  end.

(** The number of keys of [userId] that count as active at [now]. *)
Definition active_keys (userId : string) (now : Z) (w : World) : nat :=
  List.length (filter (ApiKeyService.active_for userId now) (apiKeys w)).

(** What a guard hands on when it lets a request through as [user] with
    [permissions]. *)
Definition admitted (request : Request) (user : option RequestUser)
  (permissions : list string) (keyId : option string) : Request :=
  {| url := url request;
     header_authorization := header_authorization request;
     header_x_api_key := header_x_api_key request;
     request_user := user;
     apiKeyPermissions := Some permissions;
     apiKeyId := keyId |}.

(** A service method behind the permission test of its route. *)
Definition allowed {A : Type} (permissions : list string) (permission : string)
  (method : M A) : M A :=
  fun w => if Js.includes permissions permission then method w
           else (Throw WalletController.not_permitted, w).

(** One expired key and five active ones. *)
Definition world_six_keys : World :=
  with_apiKeys (Sample.key "old" Sample.last_new_year None
                  :: apiKeys Sample.world_five_keys) Sample.world0.

(** A request to [url] with the given headers. *)
Definition request_to (u : string) (authorization x_api_key : option string) : Request :=
  {| url := u; header_authorization := authorization;
     header_x_api_key := x_api_key; request_user := None;
     apiKeyPermissions := None; apiKeyId := None |}.

(** The header [Bearer ] followed by a no-break space (U+00A0) and nothing
    else. *)
Definition bearer_no_break_space : string :=
  "Bearer " +++ String (Js.char 194) (String (Js.char 160) EmptyString).

(** A token verifier that accepts the token ["alice.jwt"] for Alice. *)
Definition jwt_alice : JwtAuthGuard.JwtService :=
  fun token => if String.eqb token "alice.jwt" then inl "user_a"%string
               else inr "invalid signature"%string.

(** A gateway that cannot be reached. *)
Definition gateway_down : PaystackService.t :=
  {| PaystackService.secretKey := "sk_test_secret";
     PaystackService.post_transaction_initialize :=
       fun _ => PaystackService.AxiosError |}.

(** A gateway that reports every transaction as paid. *)
Definition gateway_paid : string -> PaystackVerification.AxiosGetResult :=
  fun path =>
    PaystackVerification.AxiosGetResponse true "Verification successful"
      (Some {| PaystackVerification.verify_status := "success";
               PaystackVerification.verify_reference := "ref_1";
               PaystackVerification.verify_amount := JsNumber.of_Z 500000;
               PaystackVerification.verify_currency := "NGN";
               PaystackVerification.verify_customer := JSON.JNull |}).

(** A signed [charge.success] notification that carries no [data]. *)
Definition bare_notification : JSON.json :=
  JSON.JObj [("event"%string, JSON.JStr "charge.success")].
Definition bare_notification_signature : string :=
  Spec.expected_signature Sample.paystack bare_notification.

(** Newest first. *)
Definition newest_first {A : Type} (createdAt : A -> Z) (rows : list A) : Prop :=
  StronglySorted (fun a b => createdAt b <= createdAt a) rows.

(** Creation times for the sample rows: the digits of the identifier. *)
Definition sample_createdAt (t : Transaction) : Z :=
  if String.eqb (tx_id t) "tx_0" then 1704000000000
  else if String.eqb (tx_id t) "tx_1" then 1704099600000
  else 1704185600000.

End Notions.

(* ===================================================================== *)
(** * Part II: properties *)
(* ===================================================================== *)

Unset Implicit Arguments.

(** ** Tactics *)

(** Replace [monthStart] at a given month by its value. *)
Ltac eval_monthStart :=
  repeat match goal with
    | |- context [JsDate.monthStart ?l ?m] =>
        let v := eval vm_compute in (JsDate.monthStart l m) in
        change (JsDate.monthStart l m) with v
    | H : context [JsDate.monthStart ?l ?m] |- _ =>
        let v := eval vm_compute in (JsDate.monthStart l m) in
        change (JsDate.monthStart l m) with v in H
    end.

(** Decide the tests of a chain of conditionals from the first one on. *)
Ltac chain :=
  repeat (match goal with
          | |- context [if ?a <? ?b then _ else _] => destruct (Z.ltb_spec a b)
          end; cbv iota).

(** ** Numbers: exact arithmetic on safe integers, order and sign *)

Section NumberFacts.

Import JsNumber.

Lemma digits_log2 (p : positive) : Zpos (digits2_pos p) = Z.log2 (Zpos p) + 1.
Proof.
  induction p as [p IH|p IH|]; cbn [digits2_pos]; try reflexivity.
  - rewrite Pos2Z.inj_succ, IH.
    change (Zpos p~1) with (2 * Zpos p + 1). rewrite Z.log2_succ_double by lia. lia.
  - rewrite Pos2Z.inj_succ, IH.
    change (Zpos p~0) with (2 * Zpos p). rewrite Z.log2_double by lia. lia.
Qed.

Lemma log2_shift (n k : Z) : 0 < n -> 0 <= k -> Z.log2 (n * 2 ^ k) = Z.log2 n + k.
Proof. intros Hn Hk. rewrite Z.log2_mul_pow2 by lia. lia. Qed.

Lemma iter_pos_nat {A : Type} (f : A -> A) (p : positive) (x : A) :
  iter_pos f p x = Nat.iter (Pos.to_nat p) f x.
Proof.
  revert x. induction p as [p IH|p IH|]; intros x; cbn [iter_pos].
  - rewrite !IH, Pos2Nat.inj_xI. cbn [Nat.mul].
    rewrite Nat.add_0_r, <- Nat.iter_succ_r, <- Nat.iter_add.
    f_equal. lia.
  - rewrite !IH, Pos2Nat.inj_xO. cbn [Nat.mul].
    now rewrite Nat.add_0_r, Nat.iter_add.
  - reflexivity.
Qed.

Lemma shr_1_even (q : Z) :
  0 <= q -> shr_1 {| shr_m := 2 * q; shr_r := false; shr_s := false |}
            = {| shr_m := q; shr_r := false; shr_s := false |}.
Proof. intros Hq. destruct q as [|q|q]; [reflexivity|reflexivity|lia]. Qed.

Lemma shr_iter_exact (n : nat) (q : Z) :
  0 <= q ->
  Nat.iter n shr_1 {| shr_m := q * 2 ^ Z.of_nat n; shr_r := false; shr_s := false |}
  = {| shr_m := q; shr_r := false; shr_s := false |}.
Proof.
  intros Hq. induction n as [|n IH].
  - cbn [Nat.iter]. now rewrite Z.mul_1_r.
  - rewrite Nat.iter_succ_r, Nat2Z.inj_succ, Z.pow_succ_r by lia.
    replace (q * (2 * 2 ^ Z.of_nat n)) with (2 * (q * 2 ^ Z.of_nat n)) by ring.
    rewrite shr_1_even by (apply Z.mul_nonneg_nonneg; [lia | apply Z.pow_nonneg; lia]).
    exact IH.
Qed.

Lemma shr_exact (q e k : Z) :
  0 <= q -> 0 <= k ->
  shr {| shr_m := q * 2 ^ k; shr_r := false; shr_s := false |} e k
  = ({| shr_m := q; shr_r := false; shr_s := false |}, e + k).
Proof.
  intros Hq Hk. unfold shr. destruct k as [|p|p]; [|..|lia].
  - now rewrite Z.mul_1_r, Z.add_0_r.
  - rewrite iter_pos_nat. rewrite <- (positive_nat_Z p) at 1.
    now rewrite shr_iter_exact.
Qed.

Lemma shift_pos_value (m k : positive) : Zpos (Pos.iter xO m k) = Zpos m * 2 ^ Zpos k.
Proof.
  revert m. induction k as [|k IH] using Pos.peano_ind; intros m.
  - cbn. lia.
  - rewrite Pos.iter_succ, Pos2Z.inj_succ, Z.pow_succ_r by lia.
    change (Zpos (Pos.iter xO m k)~0) with (2 * Zpos (Pos.iter xO m k)).
    rewrite IH. ring.
Qed.

Lemma Zdigits2_log2 (n : Z) : 0 < n -> Zdigits2 n = Z.log2 n + 1.
Proof. destruct n as [|p|p]; try lia. intros _. apply digits_log2. Qed.

(** A mantissa that ends in as many zero bits as have to go is rounded
    without loss. *)
Lemma round_aux_exact (s : bool) (q : positive) (e k : Z) :
  0 <= k ->
  fexp prec emax (Z.log2 (Zpos q) + 1 + (e + k)) = e + k ->
  e + k <= emax - prec ->
  binary_round_aux prec emax s (Zpos q * 2 ^ k) e loc_Exact = S754_finite s q (e + k).
Proof.
  intros Hk Hf Hmax.
  assert (0 < Zpos q * 2 ^ k) as Hpos by (apply Z.mul_pos_pos; [lia | apply Z.pow_pos_nonneg; lia]).
  unfold binary_round_aux, shr_fexp.
  rewrite (Zdigits2_log2 _ Hpos), log2_shift by lia.
  replace (Z.log2 (Zpos q) + k + 1 + e) with (Z.log2 (Zpos q) + 1 + (e + k)) by ring.
  rewrite Hf. replace (e + k - e) with k by ring.
  cbn [shr_record_of_loc]. rewrite shr_exact by lia.
  cbn [shr_m loc_of_shr_record round_nearest_even].
  rewrite (Zdigits2_log2 (Zpos q)) by lia. rewrite Hf, Z.sub_diag.
  cbn [shr shr_record_of_loc shr_m].
  apply Z.leb_le in Hmax. now rewrite Hmax.
Qed.

Lemma shl_align_value (m : positive) (e e' : Z) :
  let r := shl_align m e e' in
  snd r = Z.min e e' /\ Zpos (fst r) = Zpos m * 2 ^ (e - Z.min e e').
Proof.
  unfold shl_align. destruct (e' - e) as [|d|d] eqn:E; cbn [fst snd].
  - replace (Z.min e e') with e by lia. now rewrite Z.sub_diag, Z.mul_1_r.
  - replace (Z.min e e') with e by lia. now rewrite Z.sub_diag, Z.mul_1_r.
  - replace (Z.min e e') with e' by lia. rewrite shift_pos_value.
    split; [reflexivity|]. f_equal. f_equal. lia.
Qed.

(** Rounding a number of the form [n * 2 ^ e] with [n] a positive integer
    below [2 ^ 53] gives the canonical form of [n]. *)
Lemma round_int (s : bool) (m : positive) (e n : Z) :
  e <= 0 -> 0 < n < 2 ^ 53 -> Zpos m = n * 2 ^ (- e) ->
  binary_round prec emax s m e = canon s n.
Proof.
  intros He Hn Hm. unfold binary_round.
  assert (0 <= Z.log2 n < 53) as Hl.
  { split; [apply Z.log2_nonneg|]. apply Z.log2_lt_pow2; lia. }
  rewrite digits_log2, Hm, log2_shift by lia.
  set (E := fexp prec emax (Z.log2 n + - e + 1 + e)).
  assert (E = Z.log2 n + 1 - 53) as HE
      by (unfold E, fexp, emin, prec, emax; lia).
  pose proof (shl_align_value m e E) as [Hs Hv]. cbv zeta in Hs, Hv.
  destruct (shl_align m e E) as [mz ez]. cbn [fst snd] in Hs, Hv. subst ez.
  set (q := Z.to_pos (n * 2 ^ (53 - (Z.log2 n + 1)))).
  assert (0 < n * 2 ^ (53 - (Z.log2 n + 1))) as Hq
      by (apply Z.mul_pos_pos; [lia | apply Z.pow_pos_nonneg; lia]).
  assert (Zpos q = n * 2 ^ (53 - (Z.log2 n + 1))) as Hqv
      by (unfold q; now rewrite Z2Pos.id).
  assert (Z.log2 (Zpos q) = 52) as Hlq by (rewrite Hqv, log2_shift by lia; lia).
  assert (Zpos mz = Zpos q * 2 ^ (E - Z.min e E)) as Hmz.
  { rewrite Hv, Hm, Hqv, <- !Z.mul_assoc, <- !Z.pow_add_r by lia.
    f_equal. f_equal. lia. }
  rewrite Hmz.
  rewrite round_aux_exact.
  - unfold canon. fold q. f_equal. lia.
  - lia.
  - rewrite Hlq. unfold fexp, emin, prec, emax. lia.
  - unfold prec, emax. lia.
Qed.

Lemma of_Z_pos (n : Z) : 0 < n < 2 ^ 53 -> of_Z n = canon false n.
Proof.
  intros Hn. unfold of_Z, binary_normalize. destruct n as [|p|p]; try lia.
  apply round_int; [lia | lia | now rewrite Z.mul_1_r].
Qed.

Lemma of_Z_neg (n : Z) : 0 < n < 2 ^ 53 -> of_Z (- n) = canon true n.
Proof.
  intros Hn. unfold of_Z, binary_normalize. destruct n as [|p|p]; try lia.
  cbn [Z.opp]. apply round_int; [lia | lia | now rewrite Z.mul_1_r].
Qed.


(** The Number of a safe integer, by the sign of the integer. *)
Lemma of_Z_signed (s : bool) (n : Z) :
  0 < n < 2 ^ 53 -> of_Z (signed s n) = canon s n.
Proof. destruct s; [apply of_Z_neg | apply of_Z_pos]. Qed.

Lemma safe_cases (n : Z) :
  Z.abs n <= max_safe ->
  n = 0 \/ exists s m, 0 < m < 2 ^ 53 /\ n = signed s m.
Proof.
  unfold max_safe. intros H. destruct (Z.lt_trichotomy n 0) as [L|[E|L]]; [|now left|].
  - right. exists true, (- n). cbn. lia.
  - right. exists false, n. cbn. lia.
Qed.

Lemma normalize_int (z ez n : Z) :
  ez <= 0 -> Z.abs n <= max_safe -> z = n * 2 ^ (- ez) ->
  binary_normalize prec emax z ez false = of_Z n.
Proof.
  intros He Hn Hz.
  assert (0 < 2 ^ (- ez)) as Hp by (apply Z.pow_pos_nonneg; lia).
  destruct (safe_cases n Hn) as [->|(s & m & Hm & ->)].
  - subst z. reflexivity.
  - rewrite of_Z_signed by exact Hm. unfold binary_normalize.
    destruct s; cbn [signed cond_Zopp] in Hz.
    + destruct z as [|p|p]; try nia.
      apply round_int; [exact He | exact Hm | nia].
    + destruct z as [|p|p]; try nia.
      apply round_int; [exact He | exact Hm | nia].
Qed.

Lemma canon_aligned (s : bool) (n ez : Z) :
  0 < n < 2 ^ 53 -> ez <= Z.log2 n + 1 - 53 ->
  signed s (Zpos (fst (shl_align (Z.to_pos (n * 2 ^ (53 - (Z.log2 n + 1))))
                         (Z.log2 n + 1 - 53) ez)))
  = signed s n * 2 ^ (- ez).
Proof.
  intros Hn He.
  assert (0 <= Z.log2 n < 53) as Hl.
  { split; [apply Z.log2_nonneg|]. apply Z.log2_lt_pow2; lia. }
  pose proof (shl_align_value (Z.to_pos (n * 2 ^ (53 - (Z.log2 n + 1))))
                (Z.log2 n + 1 - 53) ez) as [_ Hv]. cbv zeta in Hv.
  rewrite Hv, Z2Pos.id
    by (apply Z.mul_pos_pos; [lia | apply Z.pow_pos_nonneg; lia]).
  replace (Z.min (Z.log2 n + 1 - 53) ez) with ez by lia.
  rewrite <- Z.mul_assoc, <- Z.pow_add_r by lia.
  replace (53 - (Z.log2 n + 1) + (Z.log2 n + 1 - 53 - ez)) with (- ez) by ring.
  destruct s; cbn [signed cond_Zopp]; ring.
Qed.

(** Addition and subtraction of safe integers are exact as long as the
    result is a safe integer. *)
Theorem add_exact (a b : Z) :
  Z.abs a <= max_safe -> Z.abs b <= max_safe -> Z.abs (a + b) <= max_safe ->
  add (of_Z a) (of_Z b) = of_Z (a + b).
Proof.
  intros Ha Hb Hab.
  destruct (safe_cases a Ha) as [->|(sa & ma & Hma & ->)];
    destruct (safe_cases b Hb) as [->|(sb & mb & Hmb & ->)].
  - reflexivity.
  - rewrite Z.add_0_l, of_Z_signed by exact Hmb. reflexivity.
  - rewrite Z.add_0_r, of_Z_signed by exact Hma. reflexivity.
  - rewrite !of_Z_signed by assumption.
    unfold add, SFadd, canon. cbv zeta.
    fold (signed sa). fold (signed sb).
    set (ez := Z.min (Z.log2 ma + 1 - 53) (Z.log2 mb + 1 - 53)).
    assert (ez <= 0) as Hez.
    { assert (Z.log2 ma < 53) by (apply Z.log2_lt_pow2; lia). lia. }
    rewrite !canon_aligned by (try assumption; lia).
    apply normalize_int; [exact Hez | exact Hab | ring].
Qed.

Theorem sub_exact (a b : Z) :
  Z.abs a <= max_safe -> Z.abs b <= max_safe -> Z.abs (a - b) <= max_safe ->
  sub (of_Z a) (of_Z b) = of_Z (a - b).
Proof.
  intros Ha Hb Hab.
  destruct (safe_cases a Ha) as [->|(sa & ma & Hma & ->)];
    destruct (safe_cases b Hb) as [->|(sb & mb & Hmb & ->)].
  - reflexivity.
  - replace (0 - signed sb mb) with (signed (negb sb) mb)
      by (destruct sb; cbn; lia).
    rewrite !of_Z_signed by exact Hmb. reflexivity.
  - rewrite Z.sub_0_r, of_Z_signed by exact Hma. reflexivity.
  - rewrite !of_Z_signed by assumption.
    unfold sub, SFsub, canon. cbv zeta.
    fold (signed sa). fold (signed sb).
    set (ez := Z.min (Z.log2 ma + 1 - 53) (Z.log2 mb + 1 - 53)).
    assert (ez <= 0) as Hez.
    { assert (Z.log2 ma < 53) by (apply Z.log2_lt_pow2; lia). lia. }
    rewrite !canon_aligned by (try assumption; lia).
    apply normalize_int; [exact Hez | exact Hab | ring].
Qed.

Lemma canon_mantissa (n : Z) :
  0 < n < 2 ^ 53 ->
  Zpos (Z.to_pos (n * 2 ^ (53 - (Z.log2 n + 1)))) = n * 2 ^ (53 - (Z.log2 n + 1)) /\
  0 <= Z.log2 n < 53.
Proof.
  intros Hn.
  assert (0 <= Z.log2 n < 53) as Hl.
  { split; [apply Z.log2_nonneg|]. apply Z.log2_lt_pow2; lia. }
  split; [|exact Hl].
  apply Z2Pos.id. apply Z.mul_pos_pos; [lia | apply Z.pow_pos_nonneg; lia].
Qed.




Theorem to_Z_of_Z (n : Z) : Z.abs n <= max_safe -> to_Z (of_Z n) = n.
Proof.
  intros Hn. destruct (safe_cases n Hn) as [->|(s & m & Hm & ->)]; [reflexivity|].
  rewrite of_Z_signed by exact Hm.
  destruct (canon_mantissa m Hm) as [Qm Lm].
  unfold to_Z, canon, signed. rewrite Qm. f_equal.
  set (j := 53 - (Z.log2 m + 1)).
  replace (Z.log2 m + 1 - 53) with (- j) by (unfold j; ring).
  rewrite Z.shiftl_opp_r, Z.shiftr_div_pow2 by (unfold j; lia).
  apply Z.div_mul. apply Z.pow_nonzero; unfold j; lia.
Qed.

Lemma aligned_canon (s : bool) (n ez : Z) :
  0 < n < 2 ^ 53 -> ez <= Z.log2 n + 1 - 53 ->
  aligned ez (canon s n) = signed s n * 2 ^ (- ez).
Proof.
  intros Hn He. destruct (canon_mantissa n Hn) as [Qn Ln].
  unfold aligned, canon. rewrite Qn.
  rewrite <- Z.mul_assoc, <- Z.pow_add_r by lia.
  replace (53 - (Z.log2 n + 1) + (Z.log2 n + 1 - 53 - ez)) with (- ez) by ring.
  destruct s; cbn [signed cond_Zopp]; ring.
Qed.

Lemma aligned_of_Z (n ez : Z) :
  Z.abs n <= max_safe -> ez <= exponent (of_Z n) ->
  aligned ez (of_Z n) = n * 2 ^ (- ez).
Proof.
  intros Hn. destruct (safe_cases n Hn) as [->|(s & m & Hm & ->)]; [reflexivity|].
  rewrite of_Z_signed by exact Hm. intros He.
  apply aligned_canon; [exact Hm | exact He].
Qed.

Lemma of_Z_shape (n : Z) :
  Z.abs n <= max_safe ->
  of_Z n = S754_zero false \/
  exists s m e, of_Z n = S754_finite s m e /\ e <= 0.
Proof.
  intros Hn. destruct (safe_cases n Hn) as [->|(s & m & Hm & ->)]; [left; reflexivity|].
  right. rewrite of_Z_signed by exact Hm.
  destruct (canon_mantissa m Hm) as [_ Lm].
  unfold canon. do 3 eexists. split; [reflexivity | lia].
Qed.

(** [<] on safe integers is the order of the integers. *)
Theorem lt_exact (a b : Z) :
  Z.abs a <= max_safe -> Z.abs b <= max_safe ->
  lt (of_Z a) (of_Z b) = (a <? b).
Proof.
  intros Ha Hb.
  assert (forall ez, ez <= exponent (of_Z a) -> ez <= exponent (of_Z b) -> ez <= 0 ->
          (aligned ez (of_Z a) <? aligned ez (of_Z b)) = (a <? b)) as Hcmp.
  { intros ez H1 H2 H3. rewrite !aligned_of_Z by assumption.
    assert (0 < 2 ^ (- ez)) by (apply Z.pow_pos_nonneg; lia).
    destruct (Z.ltb_spec a b), (Z.ltb_spec (a * 2 ^ (- ez)) (b * 2 ^ (- ez)));
      try reflexivity; nia. }
  specialize (Hcmp (Z.min (exponent (of_Z a)) (exponent (of_Z b)))).
  destruct (of_Z_shape a Ha) as [Ea|(sa & ma & ea & Ea & La)];
    destruct (of_Z_shape b Hb) as [Eb|(sb & mb & eb & Eb & Lb)];
    rewrite Ea, Eb in *; cbn [lt exponent] in *; apply Hcmp; lia.
Qed.

Lemma le_zero_sign (x : number) : le zero x = true <-> sign_is false x.
Proof.
  destruct x as [s|s| |s m e]; cbv [le lt zero aligned exponent sign_is].
  - split; reflexivity.
  - destruct s; cbn; split; congruence.
  - split; [discriminate | tauto].
  - change (cond_Zopp false 0) with 0.
    assert (0 < Zpos m * 2 ^ (e - Z.min e 0))
      by (apply Z.mul_pos_pos; [lia | apply Z.pow_pos_nonneg; lia]).
    destruct s; cbn [cond_Zopp].
    + destruct (Z.ltb_spec (- (Zpos m * 2 ^ (e - Z.min e 0))) 0); cbn; split;
        try congruence; lia.
    + destruct (Z.ltb_spec (Zpos m * 2 ^ (e - Z.min e 0)) 0); cbn; split;
        try congruence; lia.
Qed.

Lemma shr_1_nonneg (mrs : shr_record) : 0 <= shr_m mrs -> 0 <= shr_m (shr_1 mrs).
Proof.
  destruct mrs as [m r s]. cbn [shr_m]. intros H.
  destruct m as [|[p|p|]|p]; cbn; lia.
Qed.

Lemma shr_nonneg (mrs : shr_record) (e n : Z) :
  0 <= shr_m mrs -> 0 <= shr_m (fst (shr mrs e n)).
Proof.
  intros H. destruct n as [|p|p]; cbn [shr fst]; try exact H.
  rewrite iter_pos_nat. induction (Pos.to_nat p) as [|k IH]; [exact H|].
  cbn [Nat.iter]. apply shr_1_nonneg, IH.
Qed.

Lemma shr_fexp_nonneg (m e : Z) (l : location) :
  0 <= m -> 0 <= shr_m (fst (shr_fexp prec emax m e l)).
Proof.
  intros H. unfold shr_fexp. apply shr_nonneg.
  destruct l as [|[| |]]; exact H.
Qed.

Lemma round_nearest_even_nonneg (m : Z) (l : location) :
  0 <= m -> 0 <= round_nearest_even m l.
Proof.
  intros H. destruct l as [|[| |]]; cbn; try lia.
  destruct (Z.even m); lia.
Qed.

Lemma round_aux_sign (s : bool) (m e : Z) (l : location) :
  0 <= m ->
  match binary_round_aux prec emax s m e l with
  | S754_nan => False
  | S754_zero s' | S754_infinity s' | S754_finite s' _ _ => s' = s
  end.
Proof.
  intros H. unfold binary_round_aux.
  pose proof (shr_fexp_nonneg m e l H) as H1.
  destruct (shr_fexp prec emax m e l) as [mrs1 e1]. cbn [fst] in H1.
  pose proof (shr_fexp_nonneg _ e1 loc_Exact
                (round_nearest_even_nonneg _ (loc_of_shr_record mrs1) H1)) as H2.
  destruct (shr_fexp prec emax (round_nearest_even (shr_m mrs1) (loc_of_shr_record mrs1))
              e1 loc_Exact) as [mrs2 e2]. cbn [fst] in H2.
  destruct (shr_m mrs2) as [|p|p]; [reflexivity | | lia].
  destruct (e2 <=? emax - prec); reflexivity.
Qed.

Lemma round_sign (s : bool) (m : positive) (e : Z) :
  match binary_round prec emax s m e with
  | S754_nan => False
  | S754_zero s' | S754_infinity s' | S754_finite s' _ _ => s' = s
  end.
Proof.
  unfold binary_round.
  destruct (shl_align m e (fexp prec emax (Zpos (digits2_pos m) + e))) as [mz ez].
  apply round_aux_sign. lia.
Qed.

Lemma normalize_nonneg (z e : Z) :
  0 <= z -> sign_is false (binary_normalize prec emax z e false).
Proof.
  intros H. destruct z as [|p|p]; [reflexivity | | lia].
  cbn [binary_normalize]. pose proof (round_sign false p e) as R.
  destruct (binary_round prec emax false p e); cbn; auto.
Qed.

(** The sum of two numbers that are not negative is not negative. *)
Theorem add_nonneg (x y : number) :
  le zero x = true -> le zero y = true -> le zero (add x y) = true.
Proof.
  rewrite !le_zero_sign. intros Hx Hy.
  destruct x as [sx|sx| |sx mx ex], y as [sy|sy| |sy my ey]; cbn in Hx, Hy;
    subst; try contradiction; try reflexivity;
    try solve [repeat match goal with b : bool |- _ => destruct b end; reflexivity].
  unfold add, SFadd. cbv zeta. apply normalize_nonneg. cbn [cond_Zopp]. lia.
Qed.

(** When [x < y] is false, [y] is finite and neither is negative, [x - y]
    is not negative. *)
Theorem sub_nonneg (x y : number) :
  le zero x = true -> le zero y = true -> is_finite y = true ->
  lt x y = false -> le zero (sub x y) = true.
Proof.
  rewrite !le_zero_sign. intros Hx Hy Hf Hlt.
  destruct x as [sx|sx| |sx mx ex], y as [sy|sy| |sy my ey]; cbn in Hx, Hy, Hf;
    subst; try contradiction; try discriminate; try reflexivity;
    try solve [repeat match goal with b : bool |- _ => destruct b end; reflexivity].
  - exfalso. cbv [lt aligned exponent] in Hlt.
    change (cond_Zopp false ?z) with z in Hlt.
    assert (0 < Zpos my * 2 ^ (ey - Z.min 0 ey))
      by (apply Z.mul_pos_pos; [lia | apply Z.pow_pos_nonneg; lia]).
    destruct (Z.ltb_spec 0 (Zpos my * 2 ^ (ey - Z.min 0 ey))); [discriminate | lia].
  - unfold sub, SFsub. cbv zeta. apply normalize_nonneg. cbn [cond_Zopp].
    cbv [lt aligned exponent] in Hlt.
    change (cond_Zopp false ?z) with z in Hlt.
    pose proof (shl_align_value mx ex (Z.min ex ey)) as [_ Vx].
    pose proof (shl_align_value my ey (Z.min ex ey)) as [_ Vy].
    cbv zeta in Vx, Vy. rewrite Vx, Vy.
    replace (Z.min ex (Z.min ex ey)) with (Z.min ex ey) by lia.
    replace (Z.min ey (Z.min ex ey)) with (Z.min ex ey) by lia.
    destruct (Z.ltb_spec (Zpos mx * 2 ^ (ex - Z.min ex ey))
                (Zpos my * 2 ^ (ey - Z.min ex ey))); [discriminate | lia].
Qed.

End NumberFacts.

(** ** Strings *)

Section StringFacts.

Import Spec.

Lemma append_assoc (a b c : string) : (a +++ b) +++ c = a +++ (b +++ c).
Proof. induction a as [|x a IH]; simpl; [reflexivity | now rewrite IH]. Qed.

Lemma append_length (a b : string) :
  String.length (a +++ b) = (String.length a + String.length b)%nat.
Proof. induction a as [|x a IH]; simpl; [reflexivity | now rewrite IH]. Qed.

Lemma append_inj_l (a x y : string) : a +++ x = a +++ y -> x = y.
Proof.
  induction a as [|c a IH]; simpl; intros H; [exact H|].
  injection H as H. auto.
Qed.

(** The last underscore of a string determines how it splits. *)
Lemma split_at_last_underscore (x y a b : string) :
  no_underscore a -> no_underscore b ->
  x +++ String "_" a = y +++ String "_" b -> x = y /\ a = b.
Proof.
  intros Ha Hb. revert y.
  induction x as [|c x IH]; intros [|d y]; simpl; intros H.
  - injection H as H. auto.
  - injection H as Hc H. subst a. exfalso. clear - Ha.
    induction y as [|e y IHy]; simpl in Ha; [tauto | apply IHy; tauto].
  - injection H as Hc H. subst b. exfalso. clear - Hb.
    induction x as [|e x IHx]; simpl in Hb; [tauto | apply IHx; tauto].
  - injection H as Hc H. subst d. destruct (IH _ H) as [-> ->]. auto.
Qed.

Lemma append_underscore (x a b : string) :
  x +++ String "_" (a +++ b) = (x +++ String "_" a) +++ b.
Proof. now rewrite append_assoc. Qed.

Lemma no_underscore_uint (d : Decimal.uint) :
  no_underscore (NilEmpty.string_of_uint d).
Proof. induction d; simpl; auto; split; auto; discriminate. Qed.

Lemma no_underscore_string_of_Z (n : Z) : no_underscore (Js.string_of_Z n).
Proof.
  unfold Js.string_of_Z. destruct (Z.to_int n); simpl.
  - apply no_underscore_uint.
  - split; [discriminate | apply no_underscore_uint].
Qed.

Lemma hexDigit_not_underscore (n : Z) :
  0 <= n < 16 -> Crypto.hexDigit n <> "_"%char.
Proof.
  intros H. rewrite <- (Z2Nat.id n) by lia.
  assert (Z.to_nat n < 16)%nat as Hk by lia.
  revert Hk. generalize (Z.to_nat n) as k. intros k Hk.
  do 16 (destruct k as [|k]; [intros E; vm_compute in E; discriminate E|]).
  lia.
Qed.

Lemma byte_range (b : Byte.byte) : 0 <= Z.of_N (Byte.to_N b) < 256.
Proof. pose proof (Byte.to_N_bounded b). lia. Qed.

Lemma no_underscore_toHex (bs : list Byte.byte) :
  no_underscore (Crypto.toHex (Crypto.octets bs)).
Proof.
  induction bs as [|b bs IH]; simpl; [exact I|].
  pose proof (byte_range b) as Hb.
  repeat split; try exact IH; apply hexDigit_not_underscore.
  - split; [apply Z.div_pos; lia | apply Z.div_lt_upper_bound; lia].
  - apply Z.mod_pos_bound; lia.
Qed.

(** A reference [`${prefix}_${Date.now()}_${hex}`] determines its prefix. *)
Lemma reference_prefix_inj (p q : string) (t u : Z) (r s : list Byte.byte) :
  p +++ "_" +++ Js.string_of_Z t +++ "_" +++ Crypto.toHex (Crypto.octets r) =
  q +++ "_" +++ Js.string_of_Z u +++ "_" +++ Crypto.toHex (Crypto.octets s) ->
  p = q.
Proof.
  intros H.
  change (p +++ String "_" (Js.string_of_Z t +++ String "_" (Crypto.toHex (Crypto.octets r))) =
          q +++ String "_" (Js.string_of_Z u +++ String "_" (Crypto.toHex (Crypto.octets s)))) in H.
  rewrite !append_underscore in H.
  apply split_at_last_underscore in H; try apply no_underscore_toHex.
  destruct H as [H _].
  apply split_at_last_underscore in H; try apply no_underscore_string_of_Z.
  tauto.
Qed.

End StringFacts.

(** ** Tables *)

Section TableFacts.

Context {A : Type}.
Variable col : A -> string.

Lemma findBy_Some (v : string) (rows : list A) (r : A) :
  findBy col v rows = Some r -> In r rows /\ col r = v.
Proof.
  unfold findBy. intros H. apply find_some in H. destruct H as [Hin Heq].
  apply String.eqb_eq in Heq. auto.
Qed.

Lemma findBy_None (v : string) (rows : list A) (r : A) :
  findBy col v rows = None -> In r rows -> col r <> v.
Proof.
  unfold findBy. intros H Hin Heq.
  apply (find_none _ _ H) in Hin. apply String.eqb_neq in Hin. auto.
Qed.

Lemma findBy_In (rows : list A) (r : A) :
  In r rows -> exists r', findBy col (col r) rows = Some r'.
Proof.
  intros Hin. destruct (findBy col (col r) rows) as [r'|] eqn:E; [eauto|].
  exfalso. exact (findBy_None _ _ _ E Hin eq_refl).
Qed.

(** With a unique column, the row found is the row asked for. *)
Lemma findBy_unique (rows : list A) (r : A) :
  NoDup (map col rows) -> In r rows -> findBy col (col r) rows = Some r.
Proof.
  unfold findBy. induction rows as [|x rows IH]; simpl; intros Hnd Hin; [tauto|].
  inversion Hnd as [|? ? Hx Hnd']; subst.
  destruct (String.eqb_spec (col x) (col r)) as [E|E].
  - destruct Hin as [->|Hin]; [reflexivity|].
    exfalso. apply Hx. rewrite E. now apply in_map.
  - destruct Hin as [->|Hin]; [congruence | auto].
Qed.

(** A search on a criterion the update does not touch finds the same row,
    updated. *)
Lemma find_updateBy (p : A -> bool) (v : string) (f : A -> A) (rows : list A) :
  (forall r, p (f r) = p r) ->
  find p (updateBy col v f rows) =
  option_map (fun r => if String.eqb (col r) v then f r else r) (find p rows).
Proof.
  intros Hp. unfold updateBy. induction rows as [|x rows IH]; simpl; [reflexivity|].
  destruct (String.eqb (col x) v) eqn:E; rewrite ?Hp;
    destruct (p x); simpl; rewrite ?E; auto.
Qed.

Lemma updateBy_fresh (v : string) (f : A -> A) (rows : list A) :
  (forall r, In r rows -> col r <> v) -> updateBy col v f rows = rows.
Proof.
  unfold updateBy. induction rows as [|x rows IH]; simpl; intros H; [reflexivity|].
  destruct (String.eqb_spec (col x) v) as [E|E].
  - exfalso. exact (H x (or_introl eq_refl) E).
  - f_equal. apply IH. intros r Hr. apply H. now right.
Qed.

Lemma updateBy_app (v : string) (f : A -> A) (l1 l2 : list A) :
  updateBy col v f (l1 ++ l2) = updateBy col v f l1 ++ updateBy col v f l2.
Proof. unfold updateBy. apply map_app. Qed.

Lemma updateBy_length (v : string) (f : A -> A) (rows : list A) :
  List.length (updateBy col v f rows) = List.length rows.
Proof. unfold updateBy. apply length_map. Qed.

End TableFacts.

Lemma distinct_NoDup (l : list string) : Spec.distinct l = true -> NoDup l.
Proof.
  induction l as [|x l IH]; simpl; intros H; [constructor|].
  apply andb_prop in H. destruct H as [Hx Hl].
  constructor; [|auto].
  intros Hin. apply negb_true_iff in Hx.
  assert (existsb (String.eqb x) l = true) as E
    by (apply existsb_exists; exists x; split; [exact Hin | apply String.eqb_refl]).
  congruence.
Qed.

Lemma set_status_same (t : Transaction) :
  tx_status t = success -> set_status success t = t.
Proof. destruct t; simpl; intros ->; reflexivity. Qed.

(** ** The monad *)

Section MonadFacts.

Context {A B : Type}.

Lemma bind_Ok (m : M A) (k : A -> M B) (w w' : World) (b : B) :
  bind m k w = (Ok b, w') ->
  exists a w1, m w = (Ok a, w1) /\ k a w1 = (Ok b, w').
Proof.
  unfold bind. destruct (m w) as [[a|e] w1]; intros H; [eauto | discriminate].
Qed.

Lemma transaction_block_Ok (m : M A) (w w' : World) (a : A) :
  transaction_block m w = (Ok a, w') -> m w = (Ok a, w').
Proof.
  unfold transaction_block. destruct (m w) as [[x|e] w1]; intros H;
    [exact H | discriminate].
Qed.

(** A block that throws leaves the store as it found it. *)
Lemma transaction_block_Throw (m : M A) (w w' : World) (e : Exception) :
  transaction_block m w = (Throw e, w') -> w' = w.
Proof.
  unfold transaction_block. destruct (m w) as [[x|e'] w1]; intros H;
    [discriminate | now inversion H].
Qed.

End MonadFacts.

(** ** The webhook *)

Section Webhook.

Import WalletService PaystackService Spec.

Variable paystackService : PaystackService.t.

Lemma webhook_invalid_signature (event : JSON.json) (signature : string) (w : World) :
  verifyWebhookSignature paystackService event signature = false ->
  handlePaystackWebhook paystackService event signature w =
  (Throw (BadRequestException "Invalid webhook signature"), w).
Proof. intros H. unfold handlePaystackWebhook. rewrite H. reflexivity. Qed.

Lemma webhook_other_event (event : JSON.json) (signature : string) (w : World)
  (v : option JSON.json) :
  verifyWebhookSignature paystackService event signature = true ->
  JSON.prop event "event" = Some v ->
  is_charge_success v = false ->
  handlePaystackWebhook paystackService event signature w = (Ok acknowledgement, w).
Proof.
  intros Hv Hp Hn. unfold handlePaystackWebhook, bind, member.
  rewrite Hv, Hp. simpl. rewrite Hn. reflexivity.
Qed.

(** How the handler reads a [charge.success] notification. *)
Lemma webhook_charge_success (event : JSON.json) (signature r : string) (w : World) :
  verifyWebhookSignature paystackService event signature = true ->
  charge_success_for event r ->
  handlePaystackWebhook paystackService event signature w =
  match by_paystackRef r w with
  | None => (Ok acknowledgement, w)
  | Some tx =>
      match tx_status tx with
      | success => (Ok acknowledgement, w)
      | _ =>
          match findBy wallet_id (tx_walletId tx) (wallets w) with
          | Some wl => (Ok acknowledgement, settled tx wl w)
          | None => (Throw TypeError, w)
          end
      end
  end.
Proof.
  intros Hv (He & data & Hd & Hr).
  unfold handlePaystackWebhook, bind, member_of, member.
  rewrite Hv, He. simpl. rewrite Hd. simpl. rewrite Hr. simpl.
  unfold transaction_findUnique_paystackRef, by_paystackRef.
  destruct (find (fun t => same_ref (tx_paystackRef t) r) (transactions w))
    as [tx|] eqn:Hf; [|reflexivity].
  unfold wallet_findUnique_id.
  assert (findBy tx_id (tx_id tx) (transactions w) <> None) as Htx.
  { apply find_some in Hf. destruct Hf as [Hin _].
    destruct (findBy_In tx_id _ _ Hin) as [t' Ht']. congruence. }
  destruct (tx_status tx); try reflexivity;
    unfold transaction_block, bind, transaction_update, field, wallet_update, ret, throw;
    (destruct (findBy tx_id (tx_id tx) (transactions w)) as [t'|]; [|congruence]);
    (destruct (findBy wallet_id (tx_walletId tx) (wallets w)) as [wl|] eqn:Hw;
     [|reflexivity]); simpl;
    destruct (findBy_Some wallet_id _ _ _ Hw) as [_ Hid];
    rewrite <- Hid in Hw; rewrite Hw; reflexivity.
Qed.

(** Every outcome of the handler: it throws and writes nothing, or it
    acknowledges and writes nothing, or it settles the transaction stored
    under the notified reference. *)
Lemma webhook_cases (event : JSON.json) (signature : string) (w : World) :
  (exists e, handlePaystackWebhook paystackService event signature w = (Throw e, w)) \/
  handlePaystackWebhook paystackService event signature w = (Ok acknowledgement, w) \/
  (exists r tx wl,
      verifyWebhookSignature paystackService event signature = true /\
      charge_success_for event r /\
      by_paystackRef r w = Some tx /\
      tx_status tx <> success /\
      findBy wallet_id (tx_walletId tx) (wallets w) = Some wl /\
      handlePaystackWebhook paystackService event signature w = (Ok acknowledgement, settled tx wl w)).
Proof.
  destruct (verifyWebhookSignature paystackService event signature) eqn:Hv.
  2:{ left. eexists. now apply webhook_invalid_signature. }
  destruct (JSON.prop event "event") as [v|] eqn:He.
  2:{ left. exists TypeError. unfold handlePaystackWebhook, bind, member.
      rewrite Hv, He. reflexivity. }
  destruct (is_charge_success v) eqn:Hc.
  2:{ right. left. eapply webhook_other_event; eauto. }
  assert (v = Some (JSON.JStr "charge.success")) as ->.
  { destruct v as [[| | |s| |]|]; simpl in Hc; try discriminate.
    apply String.eqb_eq in Hc. now subst. }
  destruct (JSON.prop event "data") as [[data|]|] eqn:Hd.
  - destruct (JSON.prop data "reference") as [[[| | |r| |]|]|] eqn:Hr;
      try (left; eexists; unfold handlePaystackWebhook, bind, member_of, member;
           rewrite Hv, He; simpl; rewrite Hd; simpl; rewrite Hr; reflexivity).
    assert (charge_success_for event r) as Hcs by (split; eauto).
    pose proof (webhook_charge_success event signature r w Hv Hcs) as H.
    destruct (by_paystackRef r w) as [tx|] eqn:Hf; [|now (right; left)].
    destruct (tx_status tx) eqn:Hs; try (now (right; left));
      (destruct (findBy wallet_id (tx_walletId tx) (wallets w)) as [wl|] eqn:Hw;
       [right; right; exists r, tx, wl;
        (split; [reflexivity|]); (split; [exact Hcs|]); (split; [assumption|]);
        (split; [congruence|]); split; assumption
       | left; eauto]).
  - left. exists TypeError. unfold handlePaystackWebhook, bind, member_of, member.
    rewrite Hv, He. simpl. rewrite Hd. reflexivity.
  - left. exists TypeError. unfold handlePaystackWebhook, bind, member_of, member.
    rewrite Hv, He. simpl. rewrite Hd. reflexivity.
Qed.


End Webhook.

Section WebhookProperties.

Import WalletService PaystackService Spec.


Lemma settled_balance (tx : Transaction) (wl : Wallet) (w : World) :
  findBy wallet_id (tx_walletId tx) (wallets w) = Some wl ->
  findBy wallet_id (wallet_id wl) (wallets (settled tx wl w)) =
  Some (set_balance (JsNumber.add (wallet_balance wl) (tx_amount tx)) wl).
Proof.
  intros Hw. destruct (findBy_Some wallet_id _ _ _ Hw) as [_ Hid].
  unfold settled, findBy. simpl.
  rewrite (find_updateBy wallet_id) by reflexivity.
  rewrite <- Hid in Hw. unfold findBy in Hw. rewrite Hw. simpl.
  now rewrite String.eqb_refl.
Qed.

Lemma settled_transactions (tx : Transaction) (wl : Wallet) (w : World) :
  Forall2 settled_or_same (transactions w) (transactions (settled tx wl w)).
Proof.
  unfold settled. simpl. unfold updateBy.
  induction (transactions w) as [|t ts IH]; simpl; constructor; auto.
  destruct (String.eqb (tx_id t) (tx_id tx)); [|now left].
  destruct (tx_status t) eqn:Hs.
  - right. split; [congruence | reflexivity].
  - left. now apply set_status_same.
  - right. split; [congruence | reflexivity].
Qed.

Lemma Forall2_same {A : Type} (R : A -> A -> Prop) (l : list A) :
  (forall x, R x x) -> Forall2 R l l.
Proof. intros H. induction l; constructor; auto. Qed.





Lemma sample_other_verified :
  verifyWebhookSignature Sample.paystack Sample.other_notification
    Sample.other_notification_signature = true.
Proof. vm_compute. reflexivity. Qed.

Lemma settled_only_pending (tx : Transaction) (wl : Wallet) (w : World) :
  written_statuses w ->
  only_pending_to_success w (settled tx wl w).
Proof.
  unfold written_statuses, only_pending_to_success, settled. simpl. unfold updateBy.
  induction (transactions w) as [|t ts IH]; intros Hst; simpl; constructor.
  - destruct (String.eqb (tx_id t) (tx_id tx)); [|now left].
    destruct (Hst t (or_introl eq_refl)) as [Hs|Hs].
    + right. unfold pending_to_success. cbn. auto 12.
    + left. apply set_status_same. exact Hs.
  - apply IH. intros t' Hin. apply Hst. now right.
Qed.

Lemma only_pending_statuses (w w' : World) :
  written_statuses w -> only_pending_to_success w w' -> written_statuses w'.
Proof.
  unfold written_statuses, only_pending_to_success. intros Hst HF.
  induction HF as [|t t' l l' Htt HF IH]; intros x Hin; [destruct Hin|].
  destruct Hin as [<-|Hin].
  - destruct Htt as [->|(_ & Hs & _)]; [apply Hst; now left | now right].
  - apply IH; [|exact Hin]. intros y Hy. apply Hst. now right.
Qed.

(** C10.  In a store whose transactions have the statuses the code writes
    ([pending], [success]): a payload with a valid signature whose [event]
    member is not ['charge.success'] is acknowledged and nothing is written
    (a payload that is [null] has no [event] member: reading it throws and
    nothing is written either).  Whatever the payload, the handler writes no
    transfer, user or key, and every transaction row is left as it was or,
    being [pending], is set to [success] with nothing else changed: no row is
    ever moved to [failed].  The store changes at all only on a validly
    signed [charge.success] notification whose reference a stored [pending]
    transaction carries. *)
Theorem webhook_frame (paystackService : PaystackService.t)
  (event : JSON.json) (signature : string) (w : World)
  (res : Result Acknowledgement) (w' : World) :
  written_statuses w ->
  handlePaystackWebhook paystackService event signature w = (res, w') ->
  (forall v,
      verifyWebhookSignature paystackService event signature = true ->
      JSON.prop event "event" = Some v ->
      is_charge_success v = false ->
      res = Ok acknowledgement /\ w' = w) /\
  (event = JSON.JNull -> w' = w) /\
  users w' = users w /\ transfers w' = transfers w /\ apiKeys w' = apiKeys w /\
  only_pending_to_success w w' /\
  (forall t', In t' (transactions w') -> tx_status t' <> failed) /\
  (w' = w \/
   exists r tx wl wl',
     verifyWebhookSignature paystackService event signature = true /\
     charge_success_for event r /\
     by_paystackRef r w = Some tx /\
     tx_status tx = pending /\
     findBy wallet_id (tx_walletId tx) (wallets w) = Some wl /\
     findBy wallet_id (tx_walletId tx) (wallets w') = Some wl' /\
     wallet_balance wl' = JsNumber.add (wallet_balance wl) (tx_amount tx)).
Proof.
  intros Hst H.
  assert (only_pending_to_success w w'
          /\ users w' = users w /\ transfers w' = transfers w
          /\ apiKeys w' = apiKeys w
          /\ (w' = w \/
              exists r tx wl wl',
                verifyWebhookSignature paystackService event signature = true /\
                charge_success_for event r /\
                by_paystackRef r w = Some tx /\
                tx_status tx = pending /\
                findBy wallet_id (tx_walletId tx) (wallets w) = Some wl /\
                findBy wallet_id (tx_walletId tx) (wallets w') = Some wl' /\
                wallet_balance wl' = JsNumber.add (wallet_balance wl) (tx_amount tx)))
    as (HF & Hu & Ht & Hk & Hc).
  { destruct (webhook_cases paystackService event signature w)
      as [[e He] | [Hk | (r & tx & wl & Hv & Hcs & Hf & Hs & Hw & Hk)]];
      rewrite H in *.
    - inversion He; subst. repeat split; auto.
      apply Forall2_same. now left.
    - inversion Hk; subst. repeat split; auto.
      apply Forall2_same. now left.
    - inversion Hk; subst. repeat split; auto.
      + now apply settled_only_pending.
      + right.
        exists r, tx, wl,
          (set_balance (JsNumber.add (wallet_balance wl) (tx_amount tx)) wl).
        repeat (split; [assumption|]).
        assert (In tx (transactions w)) as Hin
            by (unfold by_paystackRef in Hf; now apply find_some in Hf).
        split; [destruct (Hst tx Hin); [assumption | contradiction]|].
        split; [exact Hw|]. split; [|reflexivity].
        destruct (findBy_Some wallet_id _ _ _ Hw) as [_ Hid].
        rewrite <- Hid. now apply settled_balance. }
  split.
  { intros v Hv Hp Hn.
    rewrite (webhook_other_event _ _ _ _ v Hv Hp Hn) in H. now inversion H. }
  split.
  { intros ->. unfold handlePaystackWebhook in H.
    destruct (verifyWebhookSignature paystackService JSON.JNull signature);
      cbn in H; now inversion H. }
  repeat (split; [assumption|]).
  split; [|exact Hc].
  intros t' Hin Hfailed.
  destruct (only_pending_statuses w w' Hst HF t' Hin); congruence.
Qed.

Lemma sample_statuses : written_statuses (Sample.world_with_deposit pending).
Proof. intros t [<-|[]]. now left. Qed.

(** A notification of another event, validly signed, for the pending
    deposit: acknowledged, nothing written. *)
Lemma webhook_frame_witness :
  handlePaystackWebhook Sample.paystack Sample.other_notification
    Sample.other_notification_signature (Sample.world_with_deposit pending)
  = (Ok acknowledgement, Sample.world_with_deposit pending).
Proof.
  pose (r := handlePaystackWebhook Sample.paystack Sample.other_notification
               Sample.other_notification_signature
               (Sample.world_with_deposit pending)).
  destruct (webhook_frame Sample.paystack Sample.other_notification
              Sample.other_notification_signature
              (Sample.world_with_deposit pending) (fst r) (snd r)
              sample_statuses (surjective_pairing r)) as [H _].
  destruct (H (Some (JSON.JStr "transfer.success"))
              sample_other_verified eq_refl eq_refl) as [H1 H2].
  change (r = (Ok acknowledgement, Sample.world_with_deposit pending)).
  rewrite (surjective_pairing r), H1, H2. reflexivity.
Defined.

End WebhookProperties.

(** ** Transfers *)

Section Transfers.

Import WalletService Spec.

Lemma bind_Throw {A B : Type} (m : M A) (k : A -> M B) (w w' : World) (e : Exception) :
  bind m k w = (Throw e, w') ->
  m w = (Throw e, w') \/ exists a w1, m w = (Ok a, w1) /\ k a w1 = (Throw e, w').
Proof.
  unfold bind. destruct (m w) as [[a|e'] w1]; intros H;
    [right; eauto | left; inversion H; reflexivity].
Qed.

Lemma wallet_ids_unique (ws : list Wallet) (x y : Wallet) :
  NoDup (map wallet_id ws) -> In x ws -> In y ws -> wallet_id x = wallet_id y -> x = y.
Proof.
  intros Hnd Hx Hy E.
  pose proof (findBy_unique wallet_id ws x Hnd Hx) as H1.
  pose proof (findBy_unique wallet_id ws y Hnd Hy) as H2.
  rewrite E in H1. congruence.
Qed.

(** The four guards of [transferFunds], in the order of the source. *)
Lemma transferFunds_guards (env : TransferEnv) (senderId : string)
  (transferDto : TransferDto) (w : World) :
  match findBy wallet_userId senderId (wallets w) with
  | None =>
      transferFunds env senderId transferDto w =
      (Throw (NotFoundException "Sender wallet not found"), w)
  | Some senderWallet =>
      match findBy wallet_walletNumber (wallet_number transferDto) (wallets w) with
      | None =>
          transferFunds env senderId transferDto w =
          (Throw (NotFoundException "Recipient wallet not found"), w)
      | Some recipientWallet =>
          if String.eqb (wallet_userId senderWallet) (wallet_userId recipientWallet)
          then transferFunds env senderId transferDto w =
               (Throw (BadRequestException "Cannot transfer to your own wallet"), w)
          else if JsNumber.lt (wallet_balance senderWallet)
                    (transfer_dto_amount transferDto)
          then transferFunds env senderId transferDto w =
               (Throw (BadRequestException "Insufficient balance"), w)
          else True
      end
  end.
Proof.
  unfold transferFunds, bind, wallet_findUnique_userId,
    wallet_findUnique_walletNumber, user_findUnique_id.
  destruct (findBy wallet_userId senderId (wallets w)) as [S|]; [|reflexivity].
  destruct (findBy wallet_walletNumber (wallet_number transferDto) (wallets w))
    as [R|]; [|reflexivity].
  destruct (String.eqb (wallet_userId S) (wallet_userId R)); [reflexivity|].
  destruct (JsNumber.lt (wallet_balance S) (transfer_dto_amount transferDto));
    [reflexivity|exact I].
Qed.

(** A transfer that throws, for whatever reason, has written nothing. *)
Lemma transferFunds_Throw (env : TransferEnv) (senderId : string)
  (transferDto : TransferDto) (w w' : World) (e : Exception) :
  transferFunds env senderId transferDto w = (Throw e, w') -> w' = w.
Proof.
  unfold transferFunds, bind at 1 2 3 4, wallet_findUnique_userId,
    wallet_findUnique_walletNumber, user_findUnique_id.
  destruct (findBy wallet_userId senderId (wallets w)) as [S|];
    [|intros H; now inversion H].
  destruct (findBy wallet_walletNumber (wallet_number transferDto) (wallets w))
    as [R|]; [|intros H; now inversion H].
  destruct (String.eqb (wallet_userId S) (wallet_userId R));
    [intros H; now inversion H|].
  destruct (JsNumber.lt (wallet_balance S) (transfer_dto_amount transferDto));
    [intros H; now inversion H|].
  intros H. apply bind_Throw in H.
  destruct H as [H | (a & w1 & _ & H)].
  - now apply transaction_block_Throw in H.
  - inversion H.
Qed.

(** C3.  The preconditions of a transfer are tested in this order, each with
    its own exception: no wallet for the sender (404, sender wallet not
    found); no wallet with the recipient's wallet number (404, recipient
    wallet not found); both wallets owned by the same identity, in particular
    one and the same wallet (400, own wallet); sender balance below the
    amount (400, insufficient balance).  A transfer that throws leaves the
    whole store, hence both balances, both histories and the transfer
    records, as it was. *)
Theorem transfer_preconditions (env : TransferEnv) (senderId : string)
  (transferDto : TransferDto) (w : World) :
  (findBy wallet_userId senderId (wallets w) = None ->
   transferFunds env senderId transferDto w =
   (Throw (NotFoundException "Sender wallet not found"), w)) /\
  (forall senderWallet,
      findBy wallet_userId senderId (wallets w) = Some senderWallet ->
      findBy wallet_walletNumber (wallet_number transferDto) (wallets w) = None ->
      transferFunds env senderId transferDto w =
      (Throw (NotFoundException "Recipient wallet not found"), w)) /\
  (forall senderWallet recipientWallet,
      findBy wallet_userId senderId (wallets w) = Some senderWallet ->
      findBy wallet_walletNumber (wallet_number transferDto) (wallets w)
        = Some recipientWallet ->
      wallet_userId senderWallet = wallet_userId recipientWallet ->
      transferFunds env senderId transferDto w =
      (Throw (BadRequestException "Cannot transfer to your own wallet"), w)) /\
  (forall senderWallet recipientWallet,
      findBy wallet_userId senderId (wallets w) = Some senderWallet ->
      findBy wallet_walletNumber (wallet_number transferDto) (wallets w)
        = Some recipientWallet ->
      wallet_userId senderWallet <> wallet_userId recipientWallet ->
      JsNumber.lt (wallet_balance senderWallet) (transfer_dto_amount transferDto) = true ->
      transferFunds env senderId transferDto w =
      (Throw (BadRequestException "Insufficient balance"), w)) /\
  (forall e w', transferFunds env senderId transferDto w = (Throw e, w') -> w' = w) /\
  NoDup [NotFoundException "Sender wallet not found";
         NotFoundException "Recipient wallet not found";
         BadRequestException "Cannot transfer to your own wallet";
         BadRequestException "Insufficient balance"].
Proof.
  pose proof (transferFunds_guards env senderId transferDto w) as G.
  repeat split.
  - intros HS. now rewrite HS in G.
  - intros S HS HR. now rewrite HS, HR in G.
  - intros S R HS HR E. rewrite HS, HR in G.
    apply String.eqb_eq in E. now rewrite E in G.
  - intros S R HS HR E Hb. rewrite HS, HR in G.
    apply String.eqb_neq in E. rewrite E in G.
    now rewrite Hb in G.
  - intros e w'. apply transferFunds_Throw.
  - repeat constructor; simpl; intuition discriminate.
Qed.

(** Alice, holding 10000, tries to send 20000 to Bob; she sends to her own
    wallet number; she sends to a number no wallet has; a stranger sends. *)
Lemma transfer_preconditions_witness :
  transferFunds Sample.transfer_env "user_a" (Sample.to_bob 20000) Sample.world0 =
  (Throw (BadRequestException "Insufficient balance"), Sample.world0) /\
  transferFunds Sample.transfer_env "user_a"
    {| wallet_number := "4566678954356"; transfer_dto_amount := JsNumber.of_Z 1;
       description := None |} Sample.world0 =
  (Throw (BadRequestException "Cannot transfer to your own wallet"), Sample.world0) /\
  transferFunds Sample.transfer_env "user_a"
    {| wallet_number := "0000000000000"; transfer_dto_amount := JsNumber.of_Z 1;
       description := None |} Sample.world0 =
  (Throw (NotFoundException "Recipient wallet not found"), Sample.world0) /\
  transferFunds Sample.transfer_env "user_z" (Sample.to_bob 1) Sample.world0 =
  (Throw (NotFoundException "Sender wallet not found"), Sample.world0).
Proof.
  split; [|split; [|split]].
  - destruct (transfer_preconditions Sample.transfer_env "user_a"
                (Sample.to_bob 20000) Sample.world0) as (_ & _ & _ & H & _).
    apply (H Sample.walletA Sample.walletB); try reflexivity.
    discriminate.
  - destruct (transfer_preconditions Sample.transfer_env "user_a"
                {| wallet_number := "4566678954356"; transfer_dto_amount := JsNumber.of_Z 1;
                   description := None |} Sample.world0) as (_ & _ & H & _).
    apply (H Sample.walletA Sample.walletA); reflexivity.
  - destruct (transfer_preconditions Sample.transfer_env "user_a"
                {| wallet_number := "0000000000000"; transfer_dto_amount := JsNumber.of_Z 1;
                   description := None |} Sample.world0) as (_ & H & _).
    apply (H Sample.walletA); reflexivity.
  - destruct (transfer_preconditions Sample.transfer_env "user_z"
                (Sample.to_bob 1) Sample.world0) as (H & _).
    apply H. reflexivity.
Defined.

Lemma existsb_false_forall {A : Type} (p : A -> bool) (l : list A) (x : A) :
  existsb p l = false -> In x l -> p x = false.
Proof.
  intros H Hin. destruct (p x) eqn:E; [|reflexivity].
  assert (existsb p l = true) by (apply existsb_exists; eauto). congruence.
Qed.

(** What a transfer that returns has done. *)
Lemma transferFunds_Ok (env : TransferEnv) (senderId : string)
  (transferDto : TransferDto) (w w' : World) (r : TransferResult) :
  transferFunds env senderId transferDto w = (Ok r, w') ->
  exists S R sender_name recipient_name,
    findBy wallet_userId senderId (wallets w) = Some S /\
    findBy wallet_walletNumber (wallet_number transferDto) (wallets w) = Some R /\
    wallet_userId S <> wallet_userId R /\
    JsNumber.lt (wallet_balance S) (transfer_dto_amount transferDto) = false /\
    r = {| result_status := "success"; result_message := "Transfer completed" |} /\
    let amount := transfer_dto_amount transferDto in
    let transferRow :=
      {| transfer_id := transferId env;
         transfer_senderId := senderId;
         transfer_recipientId := wallet_userId R;
         transfer_amount := amount;
         transfer_reference :=
           "transfer_" +++ wallet_userId S +++ "_" +++ wallet_userId R +++ "_"
           +++ Js.string_of_Z (now_transfer env) +++ "_"
           +++ Crypto.toHex (Crypto.octets (random_transfer env));
         transfer_status := success;
         transfer_description := description transferDto |} in
    let senderRow :=
      {| tx_id := senderTxId env;
         tx_walletId := wallet_id S;
         tx_type := transfer;
         tx_amount := amount;
         tx_reference :=
           "transfer_" +++ wallet_userId R +++ "_"
           +++ Js.string_of_Z (now_sender env) +++ "_"
           +++ Crypto.toHex (Crypto.octets (random_sender env));
         tx_paystackRef := None;
         tx_status := success;
         tx_description := Some ("Transfer to " +++ recipient_name);
         tx_paystackAuthorizationUrl := None |} in
    let recipientRow :=
      {| tx_id := recipientTxId env;
         tx_walletId := wallet_id R;
         tx_type := transfer;
         tx_amount := amount;
         tx_reference :=
           "transfer_" +++ wallet_userId S +++ "_"
           +++ Js.string_of_Z (now_recipient env) +++ "_"
           +++ Crypto.toHex (Crypto.octets (random_recipient env));
         tx_paystackRef := None;
         tx_status := success;
         tx_description := Some ("Received from " +++ sender_name);
         tx_paystackAuthorizationUrl := None |} in
    users w' = users w /\ apiKeys w' = apiKeys w /\
    gateway_requests w' = gateway_requests w /\
    wallets w' =
      updateBy wallet_id (wallet_id R)
        (set_balance (JsNumber.add (wallet_balance R) amount))
        (updateBy wallet_id (wallet_id S)
           (set_balance (JsNumber.sub (wallet_balance S) amount))
           (wallets w)) /\
    transfers w' = transfers w ++ [transferRow] /\
    transactions w' = transactions w ++ [senderRow; recipientRow].
Proof.
  unfold transferFunds, bind at 1 2 3 4, wallet_findUnique_userId,
    wallet_findUnique_walletNumber, user_findUnique_id.
  destruct (findBy wallet_userId senderId (wallets w)) as [S|] eqn:HS;
    [|intros H; inversion H].
  destruct (findBy wallet_walletNumber (wallet_number transferDto) (wallets w))
    as [R|] eqn:HR; [|intros H; inversion H].
  destruct (String.eqb_spec (wallet_userId S) (wallet_userId R)) as [E|E];
    [intros H; inversion H|].
  destruct (JsNumber.lt (wallet_balance S) (transfer_dto_amount transferDto)) eqn:Hb;
    [intros H; inversion H|].
  intros H. apply bind_Ok in H. destruct H as (u & w1 & H & Hret).
  inversion Hret; subst w1 r; clear Hret.
  apply transaction_block_Ok in H.
  unfold bind, wallet_update, transfer_create, transaction_create, field in H.
  destruct (findBy wallet_id (wallet_id S) (wallets w)); [|inversion H].
  cbn [wallets with_wallets] in H.
  destruct (findBy wallet_id (wallet_id R) _); [|inversion H].
  cbn [transfers with_wallets with_transfers] in H.
  destruct (existsb _ (transfers w)); [inversion H|].
  destruct (findBy user_id (wallet_userId R) (users w)) as [ru|]; [|inversion H].
  cbn [ret transactions with_wallets with_transfers with_transactions] in H.
  destruct (existsb _ (transactions w)); [inversion H|].
  destruct (findBy user_id (wallet_userId S) (users w)) as [su|]; [|inversion H].
  cbn [ret transactions with_wallets with_transfers with_transactions] in H.
  destruct (existsb _ (transactions w ++ _)); [inversion H|].
  inversion H; subst w'; clear H.
  exists S, R, (user_name su), (user_name ru).
  cbn. rewrite <- app_assoc. repeat split; auto.
Qed.

Lemma updateBy_other {A : Type} (col : A -> string) (v : string) (f : A -> A)
  (rows : list A) (x : A) :
  In x rows -> col x <> v -> In x (updateBy col v f rows).
Proof.
  intros Hin Hne. unfold updateBy. apply in_map_iff. exists x. split; [|exact Hin].
  apply String.eqb_neq in Hne. now rewrite Hne.
Qed.

(** The three references of one transfer differ from one another. *)
Lemma transfer_references_differ (S R : string) (t1 t2 t3 : Z)
  (r1 r2 r3 : list Byte.byte) :
  S <> R ->
  let transferReference :=
    "transfer_" +++ S +++ "_" +++ R +++ "_" +++ Js.string_of_Z t1 +++ "_"
    +++ Crypto.toHex (Crypto.octets r1) in
  let recipientReference :=
    "transfer_" +++ S +++ "_" +++ Js.string_of_Z t2 +++ "_"
    +++ Crypto.toHex (Crypto.octets r2) in
  let senderReference :=
    "transfer_" +++ R +++ "_" +++ Js.string_of_Z t3 +++ "_"
    +++ Crypto.toHex (Crypto.octets r3) in
  transferReference <> senderReference /\
  transferReference <> recipientReference /\
  senderReference <> recipientReference.
Proof.
  intros Hne. cbv zeta. repeat split; intros H.
  - change ("transfer_" +++ S +++ "_" +++ R +++ "_" +++ Js.string_of_Z t1 +++ "_"
            +++ Crypto.toHex (Crypto.octets r1))
      with (("transfer_" +++ S) +++ "_" +++ R +++ "_" +++ Js.string_of_Z t1 +++ "_"
            +++ Crypto.toHex (Crypto.octets r1)) in H.
    rewrite <- (append_assoc ("transfer_" +++ S) "_") in H.
    rewrite <- (append_assoc (("transfer_" +++ S) +++ "_") R) in H.
    change ("transfer_" +++ R +++ "_" +++ Js.string_of_Z t3 +++ "_"
            +++ Crypto.toHex (Crypto.octets r3))
      with (("transfer_" +++ R) +++ "_" +++ Js.string_of_Z t3 +++ "_"
            +++ Crypto.toHex (Crypto.octets r3)) in H.
    apply reference_prefix_inj in H.
    rewrite !append_assoc in H. apply (append_inj_l "transfer_") in H.
    apply (f_equal String.length) in H. rewrite !append_length in H.
    simpl in H. lia.
  - change ("transfer_" +++ S +++ "_" +++ R +++ "_" +++ Js.string_of_Z t1 +++ "_"
            +++ Crypto.toHex (Crypto.octets r1))
      with (("transfer_" +++ S) +++ "_" +++ R +++ "_" +++ Js.string_of_Z t1 +++ "_"
            +++ Crypto.toHex (Crypto.octets r1)) in H.
    rewrite <- (append_assoc ("transfer_" +++ S) "_") in H.
    rewrite <- (append_assoc (("transfer_" +++ S) +++ "_") R) in H.
    change ("transfer_" +++ S +++ "_" +++ Js.string_of_Z t2 +++ "_"
            +++ Crypto.toHex (Crypto.octets r2))
      with (("transfer_" +++ S) +++ "_" +++ Js.string_of_Z t2 +++ "_"
            +++ Crypto.toHex (Crypto.octets r2)) in H.
    apply reference_prefix_inj in H.
    rewrite !append_assoc in H. apply (append_inj_l "transfer_") in H.
    apply (f_equal String.length) in H. rewrite !append_length in H.
    simpl in H. lia.
  - change ("transfer_" +++ R +++ "_" +++ Js.string_of_Z t3 +++ "_"
            +++ Crypto.toHex (Crypto.octets r3))
      with (("transfer_" +++ R) +++ "_" +++ Js.string_of_Z t3 +++ "_"
            +++ Crypto.toHex (Crypto.octets r3)) in H.
    change ("transfer_" +++ S +++ "_" +++ Js.string_of_Z t2 +++ "_"
            +++ Crypto.toHex (Crypto.octets r2))
      with (("transfer_" +++ S) +++ "_" +++ Js.string_of_Z t2 +++ "_"
            +++ Crypto.toHex (Crypto.octets r2)) in H.
    apply reference_prefix_inj in H.
    apply (append_inj_l "transfer_") in H. congruence.
Qed.

(** When both wallets and their owners are there, the owners differ, the
    balance covers the amount, and the three rows to be written repeat no
    identifier or reference, the transfer returns. *)
Lemma transferFunds_succeeds (env : TransferEnv) (senderId : string)
  (transferDto : TransferDto) (w : World) (S R : Wallet) (su ru : User) :
  findBy wallet_userId senderId (wallets w) = Some S ->
  findBy wallet_walletNumber (wallet_number transferDto) (wallets w) = Some R ->
  findBy user_id (wallet_userId S) (users w) = Some su ->
  findBy user_id (wallet_userId R) (users w) = Some ru ->
  wallet_userId S <> wallet_userId R ->
  JsNumber.lt (wallet_balance S) (transfer_dto_amount transferDto) = false ->
  (forall t, In t (transfers w) ->
     transfer_id t <> transferId env /\
     transfer_reference t <>
       "transfer_" +++ wallet_userId S +++ "_" +++ wallet_userId R +++ "_"
       +++ Js.string_of_Z (now_transfer env) +++ "_"
       +++ Crypto.toHex (Crypto.octets (random_transfer env))) ->
  (forall t, In t (transactions w) ->
     tx_id t <> senderTxId env /\ tx_id t <> recipientTxId env /\
     tx_reference t <>
       "transfer_" +++ wallet_userId R +++ "_"
       +++ Js.string_of_Z (now_sender env) +++ "_"
       +++ Crypto.toHex (Crypto.octets (random_sender env)) /\
     tx_reference t <>
       "transfer_" +++ wallet_userId S +++ "_"
       +++ Js.string_of_Z (now_recipient env) +++ "_"
       +++ Crypto.toHex (Crypto.octets (random_recipient env))) ->
  senderTxId env <> recipientTxId env ->
  exists w',
    transferFunds env senderId transferDto w =
    (Ok {| result_status := "success"; result_message := "Transfer completed" |}, w').
Proof.
  intros HS HR Hsu Hru Hne Hb Htr Htx Hids.
  destruct (findBy_Some wallet_userId _ _ _ HS) as [HinS _].
  destruct (findBy_Some wallet_walletNumber _ _ _ HR) as [HinR _].
  destruct (findBy_In wallet_id _ _ HinS) as [S' HS'].
  destruct (findBy_In wallet_id _ _ HinR) as [R' HR'].
  unfold transferFunds, bind at 1 2 3 4, wallet_findUnique_userId,
    wallet_findUnique_walletNumber, user_findUnique_id.
  rewrite HS, HR.
  apply String.eqb_neq in Hne. rewrite Hne.
  rewrite Hb.
  unfold bind, transaction_block, wallet_update, transfer_create,
    transaction_create, field, ret.
  rewrite HS'. cbn [wallets with_wallets].
  unfold findBy at 1. rewrite (find_updateBy wallet_id) by reflexivity.
  unfold findBy in HR'. rewrite HR'.
  cbn [option_map transfers with_wallets with_transfers].
  assert (existsb
            (transfer_clash
               {| transfer_id := transferId env;
                  transfer_senderId := senderId;
                  transfer_recipientId := wallet_userId R;
                  transfer_amount := transfer_dto_amount transferDto;
                  transfer_reference :=
                    "transfer_" +++ wallet_userId S +++ "_" +++ wallet_userId R +++ "_"
                    +++ Js.string_of_Z (now_transfer env) +++ "_"
                    +++ Crypto.toHex (Crypto.octets (random_transfer env));
                  transfer_status := success;
                  transfer_description := description transferDto |})
            (transfers w) = false) as C1.
  { match goal with |- ?x = false => destruct x eqn:E end; [|reflexivity].
    apply existsb_exists in E. destruct E as (t & Hin & E).
    destruct (Htr t Hin) as [H1 H2]. unfold transfer_clash in E.
    cbn [transfer_id transfer_reference] in E.
    apply String.eqb_neq in H1, H2. now rewrite H1, H2 in E. }
  rewrite C1. rewrite Hru, Hsu.
  cbn [transactions with_wallets with_transfers with_transactions].
  match goal with |- context [existsb ?p (transactions w)] =>
    assert (existsb p (transactions w) = false) as C2 end.
  { match goal with |- ?x = false => destruct x eqn:E end; [|reflexivity].
    apply existsb_exists in E. destruct E as (t & Hin & E).
    destruct (Htx t Hin) as (H1 & _ & H2 & _). unfold transaction_clash in E.
    cbn [tx_id tx_reference tx_paystackRef] in E.
    apply String.eqb_neq in H1, H2. now rewrite H1, H2 in E. }
  rewrite C2. cbn [transactions with_wallets with_transfers with_transactions].
  match goal with |- context [existsb ?p (transactions w ++ ?l)] =>
    assert (existsb p (transactions w ++ l) = false) as C3 end.
  { rewrite existsb_app. apply orb_false_iff. split.
    - match goal with |- ?x = false => destruct x eqn:E end; [|reflexivity].
      apply existsb_exists in E. destruct E as (t & Hin & E).
      destruct (Htx t Hin) as (_ & H1 & _ & H2). unfold transaction_clash in E.
      cbn [tx_id tx_reference tx_paystackRef] in E.
      apply String.eqb_neq in H1, H2. now rewrite H1, H2 in E.
    - apply String.eqb_neq in Hne.
      destruct (transfer_references_differ (wallet_userId S) (wallet_userId R)
                  (now_transfer env) (now_recipient env) (now_sender env)
                  (random_transfer env) (random_recipient env) (random_sender env) Hne)
        as (_ & _ & D).
      cbv zeta in D. apply String.eqb_neq in D, Hids.
      unfold transaction_clash, existsb.
      cbn [tx_id tx_reference tx_paystackRef].
      now rewrite D, Hids. }
  rewrite C3. eexists. reflexivity.
Qed.

(** C2, as stated, fails: the balances are binary64 Numbers.  When Alice,
    holding 9007199254740992 (2 ^ 53), sends all of it to Bob, who holds 1,
    the transfer returns and Bob's balance is 9007199254740992: it has grown
    by 9007199254740991, not by the amount sent. *)
Lemma transfer_credit_is_rounded :
  exists r w' R',
    transferFunds Sample.transfer_env "user_a" (Sample.to_bob 9007199254740992)
      Sample.world_large = (Ok r, w') /\
    findBy wallet_walletNumber "1234567890123" (wallets Sample.world_large)
      = Some (set_balance (JsNumber.of_Z 1) Sample.walletB) /\
    findBy wallet_walletNumber "1234567890123" (wallets w') = Some R' /\
    JsNumber.to_Z (wallet_balance R') = 9007199254740992 /\
    JsNumber.to_Z (wallet_balance R') <> 1 + 9007199254740992.
Proof.
  pose (res := transferFunds Sample.transfer_env "user_a"
                 (Sample.to_bob 9007199254740992) Sample.world_large).
  exists {| result_status := "success"; result_message := "Transfer completed" |},
    (snd res), (set_balance (JsNumber.of_Z 9007199254740992) Sample.walletB).
  split; [vm_compute; reflexivity|]. split; [vm_compute; reflexivity|].
  split; [vm_compute; reflexivity|]. split; [vm_compute; reflexivity|].
  vm_compute. discriminate.
Qed.

(** C2, amended.  A transfer of [amount] that returns has set the sender's
    balance to the Number [balance - amount] and the recipient's to the
    Number [balance + amount] (binary64 arithmetic), which is exactly
    [amount] less and exactly [amount] more whenever the balances, the
    amount and the results are integers of magnitude [2 ^ 53 - 1] at most;
    it has changed nothing else of the two wallets, left every other wallet
    alone, appended one transfer record and two transaction records of type
    [transfer] and status [success], the first on the sender's wallet and
    the second on the recipient's, and the three references are pairwise
    different.  (Wallet identifiers are the primary key of the wallet
    table.) *)
Theorem transfer_success (env : TransferEnv) (senderId : string)
  (transferDto : TransferDto) (w w' : World) (r : TransferResult) :
  NoDup (map wallet_id (wallets w)) ->
  transferFunds env senderId transferDto w = (Ok r, w') ->
  let amount := transfer_dto_amount transferDto in
  exists S R S' R' transferRow senderRow recipientRow,
    findBy wallet_userId senderId (wallets w) = Some S /\
    findBy wallet_walletNumber (wallet_number transferDto) (wallets w) = Some R /\
    S <> R /\ JsNumber.lt (wallet_balance S) amount = false /\
    findBy wallet_userId senderId (wallets w') = Some S' /\
    findBy wallet_walletNumber (wallet_number transferDto) (wallets w') = Some R' /\
    wallet_balance S' = JsNumber.sub (wallet_balance S) amount /\
    wallet_balance R' = JsNumber.add (wallet_balance R) amount /\
    (forall a s, wallet_balance S = JsNumber.of_Z s -> amount = JsNumber.of_Z a ->
                 Z.abs s <= JsNumber.max_safe -> Z.abs a <= JsNumber.max_safe ->
                 Z.abs (s - a) <= JsNumber.max_safe ->
                 wallet_balance S' = JsNumber.of_Z (s - a)) /\
    (forall a b, wallet_balance R = JsNumber.of_Z b -> amount = JsNumber.of_Z a ->
                 Z.abs b <= JsNumber.max_safe -> Z.abs a <= JsNumber.max_safe ->
                 Z.abs (b + a) <= JsNumber.max_safe ->
                 wallet_balance R' = JsNumber.of_Z (b + a)) /\
    (wallet_id S', wallet_userId S', wallet_walletNumber S')
      = (wallet_id S, wallet_userId S, wallet_walletNumber S) /\
    (wallet_id R', wallet_userId R', wallet_walletNumber R')
      = (wallet_id R, wallet_userId R, wallet_walletNumber R) /\
    (forall x, In x (wallets w) -> x <> S -> x <> R -> In x (wallets w')) /\
    List.length (wallets w') = List.length (wallets w) /\
    transfers w' = transfers w ++ [transferRow] /\
    transactions w' = transactions w ++ [senderRow; recipientRow] /\
    transfer_amount transferRow = amount /\
    transfer_status transferRow = success /\
    transfer_senderId transferRow = wallet_userId S /\
    transfer_recipientId transferRow = wallet_userId R /\
    tx_walletId senderRow = wallet_id S /\
    tx_walletId recipientRow = wallet_id R /\
    tx_type senderRow = transfer /\ tx_type recipientRow = transfer /\
    tx_status senderRow = success /\ tx_status recipientRow = success /\
    tx_amount senderRow = amount /\ tx_amount recipientRow = amount /\
    transfer_reference transferRow <> tx_reference senderRow /\
    transfer_reference transferRow <> tx_reference recipientRow /\
    tx_reference senderRow <> tx_reference recipientRow.
Proof.
  intros Hnd H. apply transferFunds_Ok in H.
  destruct H as (S & R & sn & rn & HS & HR & Hne & Hb & _ & H).
  cbv zeta in H. destruct H as (_ & _ & _ & Hw & Ht & Hx).
  destruct (findBy_Some wallet_userId _ _ _ HS) as [HinS HuS].
  destruct (findBy_Some wallet_walletNumber _ _ _ HR) as [HinR _].
  assert (wallet_id S <> wallet_id R) as Hid.
  { intros E. apply Hne. f_equal. now apply (wallet_ids_unique (wallets w)). }
  cbv zeta.
  exists S, R,
    (set_balance (JsNumber.sub (wallet_balance S) (transfer_dto_amount transferDto)) S),
    (set_balance (JsNumber.add (wallet_balance R) (transfer_dto_amount transferDto)) R).
  eexists _, _, _.
  split; [exact HS|]. split; [exact HR|]. split; [congruence|]. split; [exact Hb|].
  split; [|split].
  - rewrite Hw. unfold findBy in *.
    rewrite !(find_updateBy wallet_id) by reflexivity. rewrite HS. simpl.
    rewrite String.eqb_refl. simpl.
    apply String.eqb_neq in Hid. now rewrite Hid.
  - rewrite Hw. unfold findBy in *.
    rewrite !(find_updateBy wallet_id) by reflexivity. rewrite HR. simpl.
    assert (wallet_id R <> wallet_id S) as Hid' by congruence.
    apply String.eqb_neq in Hid'. rewrite Hid'. now rewrite String.eqb_refl.
  - cbn [wallet_balance wallet_id wallet_userId wallet_walletNumber set_balance].
    split; [reflexivity|]. split; [reflexivity|].
    split; [intros a s0 Es Ea Hs Ha Hsa; rewrite Es, Ea; now apply sub_exact|].
    split; [intros a b0 Eb Ea Hb0 Ha Hba; rewrite Eb, Ea; now apply add_exact|].
    split; [reflexivity|]. split; [reflexivity|].
    split; [|split; [|split; [exact Ht|split; [exact Hx|]]]].
    + intros x Hin HxS HxR. rewrite Hw.
      apply updateBy_other; [apply updateBy_other; [exact Hin|]|];
        intros E; [apply HxS | apply HxR]; now apply (wallet_ids_unique (wallets w)).
    + rewrite Hw. now rewrite !updateBy_length.
    + pose proof (transfer_references_differ (wallet_userId S) (wallet_userId R)
                    (now_transfer env) (now_recipient env) (now_sender env)
                    (random_transfer env) (random_recipient env) (random_sender env)
                    Hne) as D.
      cbv zeta in D. destruct D as (D1 & D2 & D3).
      repeat match goal with |- _ /\ _ => split end;
        try reflexivity; try (symmetry; exact HuS);
        [exact D1 | exact D2 | exact D3].
Qed.

(** The scenario of the specification: wallet A holds 10000 and wallet B
    holds 0; after A sends 3000 to B they hold 7000 and 3000, and one
    transfer record and two transaction records have been written. *)
Lemma transfer_success_witness :
  exists r w' S' R',
    transferFunds Sample.transfer_env "user_a" (Sample.to_bob 3000) Sample.world0
      = (Ok r, w') /\
    findBy wallet_userId "user_a" (wallets w') = Some S' /\
    findBy wallet_walletNumber "1234567890123" (wallets w') = Some R' /\
    wallet_balance S' = JsNumber.of_Z 7000 /\
    wallet_balance R' = JsNumber.of_Z 3000 /\
    List.length (transfers w') = 1%nat /\ List.length (transactions w') = 2%nat.
Proof.
  pose (res := transferFunds Sample.transfer_env "user_a" (Sample.to_bob 3000)
                 Sample.world0).
  assert (res = (Ok {| result_status := "success";
                       result_message := "Transfer completed" |}, snd res)) as E
    by (vm_compute; reflexivity).
  assert (NoDup (map wallet_id (wallets Sample.world0))) as Hnd
    by (apply distinct_NoDup; reflexivity).
  destruct (transfer_success Sample.transfer_env "user_a" (Sample.to_bob 3000)
              Sample.world0 (snd res) _ Hnd E)
    as (S & R & S' & R' & tr & ts & trr & HS & HR & _ & _ & H1 & H2 & _ & _
        & E1 & E2 & _ & _ & _ & _ & H3 & H4 & _).
  exists {| result_status := "success"; result_message := "Transfer completed" |},
    (snd res), S', R'.
  split; [exact E|]. split; [exact H1|]. split; [exact H2|].
  assert (Some S = Some Sample.walletA) as ES by (rewrite <- HS; reflexivity).
  assert (Some R = Some Sample.walletB) as ER by (rewrite <- HR; reflexivity).
  injection ES as ->. injection ER as ->.
  split; [apply (E1 3000 10000); try reflexivity; vm_compute; discriminate|].
  split; [apply (E2 3000 0); try reflexivity; vm_compute; discriminate|].
  rewrite H3, H4. split; reflexivity.
Defined.

End Transfers.

(** ** References: what a reference determines *)

Section ReferenceFacts.

Lemma string_of_Z_inj (a b : Z) : Js.string_of_Z a = Js.string_of_Z b -> a = b.
Proof.
  unfold Js.string_of_Z. intros H.
  assert (Some (Z.to_int a) = Some (Z.to_int b)) as E
      by (rewrite <- !NilEmpty.isi, H; reflexivity).
  injection E as E. apply (f_equal Z.of_int) in E.
  now rewrite !DecimalZ.of_to in E.
Qed.

Lemma hexDigit_inj (a b : Z) :
  0 <= a < 16 -> 0 <= b < 16 -> Crypto.hexDigit a = Crypto.hexDigit b -> a = b.
Proof.
  intros Ha Hb H. unfold Crypto.hexDigit in H.
  apply (f_equal nat_of_ascii) in H.
  rewrite !nat_ascii_embedding in H
    by (destruct (a <? 10), (b <? 10); lia).
  destruct (Z.ltb_spec a 10), (Z.ltb_spec b 10); lia.
Qed.

Lemma toHex_inj (l1 l2 : Crypto.bytes) :
  Forall (fun b => 0 <= b < 256) l1 -> Forall (fun b => 0 <= b < 256) l2 ->
  Crypto.toHex l1 = Crypto.toHex l2 -> l1 = l2.
Proof.
  intros H1. revert l2.
  induction H1 as [|a l1 Ha _ IH]; intros l2 H2 H; destruct H2 as [|b l2 Hb H2];
    simpl in H; try discriminate; [reflexivity|].
  injection H as Hhi Hlo Hr.
  apply hexDigit_inj in Hhi;
    [|split; [apply Z.div_pos|apply Z.div_lt_upper_bound]; lia
     |split; [apply Z.div_pos|apply Z.div_lt_upper_bound]; lia].
  apply hexDigit_inj in Hlo; [|apply Z.mod_pos_bound; lia|apply Z.mod_pos_bound; lia].
  f_equal; [|now apply IH].
  rewrite (Z.div_mod a 16), (Z.div_mod b 16) by lia. congruence.
Qed.

Lemma octets_inj (r s : list Byte.byte) : Crypto.octets r = Crypto.octets s -> r = s.
Proof.
  revert s. induction r as [|a r IH]; intros [|b s] H; simpl in H;
    try discriminate; [reflexivity|].
  injection H as Hab H. f_equal; [|now apply IH].
  apply N2Z.inj in Hab.
  pose proof (Byte.of_to_N a) as Ea. rewrite Hab, Byte.of_to_N in Ea. congruence.
Qed.

Lemma toHex_octets_inj (r s : list Byte.byte) :
  Crypto.toHex (Crypto.octets r) = Crypto.toHex (Crypto.octets s) -> r = s.
Proof.
  intros H. apply octets_inj. apply toHex_inj in H; [exact H| |];
    apply Forall_forall; intros x Hx; apply in_map_iff in Hx;
    destruct Hx as (b & <- & _); apply byte_range.
Qed.

Lemma toHex_length (bs : Crypto.bytes) :
  String.length (Crypto.toHex bs) = (2 * List.length bs)%nat.
Proof. induction bs as [|b bs IH]; simpl; [reflexivity | rewrite IH; lia]. Qed.

(** A reference [`${prefix}_${Date.now()}_${hex}`] determines its three
    parts. *)
Lemma reference_inj (p q : string) (t u : Z) (r s : list Byte.byte) :
  p +++ "_" +++ Js.string_of_Z t +++ "_" +++ Crypto.toHex (Crypto.octets r) =
  q +++ "_" +++ Js.string_of_Z u +++ "_" +++ Crypto.toHex (Crypto.octets s) ->
  p = q /\ t = u /\ r = s.
Proof.
  intros H.
  change (p +++ String "_" (Js.string_of_Z t +++ String "_" (Crypto.toHex (Crypto.octets r))) =
          q +++ String "_" (Js.string_of_Z u +++ String "_" (Crypto.toHex (Crypto.octets s)))) in H.
  rewrite !append_underscore in H.
  apply split_at_last_underscore in H; try apply no_underscore_toHex.
  destruct H as [H Hr].
  apply split_at_last_underscore in H; try apply no_underscore_string_of_Z.
  destruct H as [Hp Ht].
  split; [exact Hp|]. split; [now apply string_of_Z_inj | now apply toHex_octets_inj].
Qed.

End ReferenceFacts.

(** ** Deposits *)

Section Deposits.

Import WalletService PaystackService Spec.

Lemma find_app {A : Type} (p : A -> bool) (l1 l2 : list A) :
  find p (l1 ++ l2) = match find p l1 with Some x => Some x | None => find p l2 end.
Proof. induction l1 as [|x l1 IH]; simpl; [reflexivity|]. now destruct (p x). Qed.

Lemma find_existsb_false {A : Type} (p q : A -> bool) (l : list A) :
  existsb q l = false -> (forall x, p x = true -> q x = true) -> find p l = None.
Proof.
  intros H Hpq. induction l as [|x l IH]; simpl in *; [reflexivity|].
  apply orb_false_iff in H. destruct H as [Hx Hl].
  destruct (p x) eqn:E; [|auto]. apply Hpq in E. congruence.
Qed.

(** What a deposit initiation that returns has done. *)
Lemma initializeDeposit_Ok (paystackService : PaystackService.t) (env : DepositEnv)
  (userId : string) (depositDto : CreateDepositDto) (w w1 : World)
  (res : DepositResult) :
  initializeDeposit paystackService env userId depositDto w = (Ok res, w1) ->
  exists wallet user message d,
    findBy wallet_userId userId (wallets w) = Some wallet /\
    findBy user_id (wallet_userId wallet) (users w) = Some user /\
    let reference :=
      "wallet_" +++ userId +++ "_" +++ Js.string_of_Z (deposit_now env)
      +++ "_" +++ Crypto.toHex (Crypto.octets (deposit_random env)) in
    let request :=
      {| req_email := user_email user;
         req_amount :=
           JsNumber.Math_round
             (JsNumber.mul (deposit_amount depositDto) (JsNumber.of_Z 100));
         req_reference := reference;
         req_metadata := (userId, wallet_id wallet) |} in
    let row :=
      {| tx_id := deposit_txId env;
         tx_walletId := wallet_id wallet;
         tx_type := deposit;
         tx_amount := deposit_amount depositDto;
         tx_reference := reference;
         tx_paystackRef := Some (data_reference d);
         tx_status := pending;
         tx_description := None;
         tx_paystackAuthorizationUrl := Some (data_authorization_url d) |} in
    post_transaction_initialize paystackService request
      = AxiosResponse true message (Some d) /\
    existsb (transaction_clash row) (transactions w) = false /\
    res = {| reference := reference;
             authorization_url := data_authorization_url d |} /\
    w1 = with_transactions (transactions w ++ [row])
           (with_gateway_requests (gateway_requests w ++ [request]) w).
Proof.
  unfold initializeDeposit, bind at 1 2, wallet_findUnique_userId, user_findUnique_id.
  destruct (findBy wallet_userId userId (wallets w)) as [wallet|] eqn:Hw;
    [|intros H; inversion H].
  destruct (findBy user_id (wallet_userId wallet) (users w)) as [user|] eqn:Hu;
    [|intros H; inversion H].
  unfold bind, field, ret, initializeTransaction, try_catch, throw, transaction_create.
  destruct (post_transaction_initialize paystackService _)
    as [|st message [d|]] eqn:Hg; try (intros H; now inversion H);
    (destruct st; simpl; [|intros H; now inversion H]); [|intros H; now inversion H].
  destruct (existsb _ (transactions w)) eqn:Hc; intros H; inversion H; subst.
  exists wallet, user, message, d. cbv zeta. repeat split; auto.
Qed.

(** When the wallet and its owner are there, the gateway answers, and the
    new row repeats no identifier or reference, the initiation returns. *)
Lemma initializeDeposit_succeeds (paystackService : PaystackService.t)
  (env : DepositEnv) (userId : string) (depositDto : CreateDepositDto) (w : World)
  (wallet : Wallet) (user : User) (message : string) (d : InitializeData) :
  findBy wallet_userId userId (wallets w) = Some wallet ->
  findBy user_id (wallet_userId wallet) (users w) = Some user ->
  let reference :=
    "wallet_" +++ userId +++ "_" +++ Js.string_of_Z (deposit_now env)
    +++ "_" +++ Crypto.toHex (Crypto.octets (deposit_random env)) in
  post_transaction_initialize paystackService
    {| req_email := user_email user;
       req_amount :=
         JsNumber.Math_round
           (JsNumber.mul (deposit_amount depositDto) (JsNumber.of_Z 100));
       req_reference := reference;
       req_metadata := (userId, wallet_id wallet) |}
    = AxiosResponse true message (Some d) ->
  (forall t, In t (transactions w) ->
             tx_id t <> deposit_txId env /\ tx_reference t <> reference /\
             tx_paystackRef t <> Some (data_reference d)) ->
  exists w1,
    initializeDeposit paystackService env userId depositDto w =
    (Ok {| reference := reference;
           authorization_url := data_authorization_url d |}, w1).
Proof.
  intros Hw Hu reference Hg Hfresh.
  unfold initializeDeposit, bind at 1 2, wallet_findUnique_userId, user_findUnique_id.
  rewrite Hw, Hu.
  unfold bind, field, ret, initializeTransaction, try_catch, throw, transaction_create.
  fold reference. rewrite Hg. simpl.
  match goal with |- context [existsb ?p ?l] => destruct (existsb p l) eqn:Hc end.
  - exfalso. apply existsb_exists in Hc. destruct Hc as (t & Hin & Hc).
    destruct (Hfresh t Hin) as (H1 & H2 & H3).
    unfold transaction_clash in Hc. simpl in Hc.
    apply String.eqb_neq in H1, H2. rewrite H1, H2 in Hc. simpl in Hc.
    destruct (tx_paystackRef t) as [x|]; simpl in Hc; [|discriminate].
    apply String.eqb_eq in Hc. congruence.
  - eexists. reflexivity.
Qed.

(** An initiation that throws has at most put its request on record. *)
Lemma initializeDeposit_Throw (paystackService : PaystackService.t)
  (env : DepositEnv) (userId : string) (depositDto : CreateDepositDto)
  (w w' : World) (e : Exception) :
  initializeDeposit paystackService env userId depositDto w = (Throw e, w') ->
  w' = w \/
  exists request, w' = with_gateway_requests (gateway_requests w ++ [request]) w.
Proof.
  unfold initializeDeposit, bind at 1 2, wallet_findUnique_userId, user_findUnique_id.
  destruct (findBy wallet_userId userId (wallets w)) as [wallet|].
  2:{ intros H. inversion H; subst. now left. }
  destruct (findBy user_id (wallet_userId wallet) (users w)) as [user|].
  2:{ intros H. inversion H; subst. now left. }
  unfold bind, field, ret, initializeTransaction, try_catch, throw, transaction_create.
  intros H. right. eexists.
  destruct (post_transaction_initialize paystackService _) as [|st message [d|]].
  - inversion H; subst. reflexivity.
  - destruct st; cbn in H.
    + destruct (existsb _ _); inversion H; subst. reflexivity.
    + inversion H; subst. reflexivity.
  - destruct st; cbn in H; inversion H; subst; reflexivity.
Qed.



Lemma sample_paid_verified :
  verifyWebhookSignature Sample.paystack Sample.paid Sample.paid_signature = true.
Proof. vm_compute. reflexivity. Qed.


End Deposits.

(** ** The statuses the services write *)

Section Statuses.

Import WalletService PaystackService Spec.

(** The empty store has them, and a transfer and the initiation of a
    deposit keep them: every store the services produce has no row in a
    status other than [pending] and [success]. *)
Lemma written_statuses_kept (w w' : World) :
  written_statuses w ->
  (forall env senderId transferDto res,
      transferFunds env senderId transferDto w = (res, w') -> written_statuses w') /\
  (forall paystackService env userId depositDto res,
      initializeDeposit paystackService env userId depositDto w = (res, w') ->
      written_statuses w').
Proof.
  intros Hst. split.
  - intros env senderId transferDto [r|e] H.
    + apply transferFunds_Ok in H.
      destruct H as (S & R & sn & rn & _ & _ & _ & _ & _ & H).
      cbv zeta in H. destruct H as (_ & _ & _ & _ & _ & Htx).
      intros t Hin. rewrite Htx in Hin. apply in_app_iff in Hin.
      destruct Hin as [Hin|[<-|[<-|[]]]]; [now apply Hst | now right | now right].
    + apply transferFunds_Throw in H. now subst.
  - intros paystackService env userId depositDto [r|e] H.
    + apply initializeDeposit_Ok in H.
      destruct H as (wallet & user & message & d & _ & _ & H).
      cbv zeta in H. destruct H as (_ & _ & _ & ->).
      intros t Hin. cbn [transactions with_transactions with_gateway_requests] in Hin.
      apply in_app_iff in Hin.
      destruct Hin as [Hin|[<-|[]]]; [now apply Hst | now left].
    + apply initializeDeposit_Throw in H.
      destruct H as [-> | (request & ->)]; exact Hst.
Qed.

End Statuses.

(** ** The signature of a notification *)

Section Signature.

Import WalletService PaystackService Spec.

(** Once the signature is accepted, the only exceptions left are the ones of
    the run time and of Prisma. *)
Lemma webhook_verified_throws (paystackService : PaystackService.t)
  (event : JSON.json) (signature : string) (w w' : World) (e : Exception) :
  verifyWebhookSignature paystackService event signature = true ->
  WalletService.handlePaystackWebhook paystackService event signature w = (Throw e, w') ->
  e = TypeError \/ e = PrismaClientValidationError.
Proof.
  intros Hv.
  destruct (JSON.prop event "event") as [v|] eqn:He.
  2:{ unfold WalletService.handlePaystackWebhook, bind, member.
      rewrite Hv, He. simpl. intros H. inversion H. now left. }
  destruct (is_charge_success v) eqn:Hc.
  2:{ rewrite (webhook_other_event _ _ _ _ v Hv He Hc). intros H. inversion H. }
  assert (v = Some (JSON.JStr "charge.success")) as ->.
  { destruct v as [[| | |s| |]|]; simpl in Hc; try discriminate.
    apply String.eqb_eq in Hc. now subst. }
  destruct (JSON.prop event "data") as [[data|]|] eqn:Hd.
  - destruct (JSON.prop data "reference") as [[[| | |r| |]|]|] eqn:Hr;
      try (unfold WalletService.handlePaystackWebhook, bind, member_of, member;
           rewrite Hv, He; simpl; rewrite Hd; simpl; rewrite Hr; simpl;
           intros H; inversion H; tauto).
    assert (charge_success_for event r) as Hcs by (split; eauto).
    rewrite (webhook_charge_success _ _ _ r w Hv Hcs).
    destruct (by_paystackRef r w) as [tx|]; [|intros H; inversion H].
    destruct (tx_status tx); try (intros H; now inversion H);
      (destruct (findBy wallet_id (tx_walletId tx) (wallets w));
       intros H; inversion H; tauto).
  - unfold WalletService.handlePaystackWebhook, bind, member_of, member.
    rewrite Hv, He. simpl. rewrite Hd. simpl. intros H. inversion H. tauto.
  - unfold WalletService.handlePaystackWebhook, bind, member_of, member.
    rewrite Hv, He. simpl. rewrite Hd. simpl. intros H. inversion H. tauto.
Qed.

(** C4, as stated, fails.  The bytes received here are JSON with a space
    after each colon and comma.  Whether the body parser hands the handler
    the parsed payload or the text, the signature the gateway computes over
    exactly those bytes is refused, and the signature of the re-serialized
    payload, which is not the HMAC of the bytes received, is accepted. *)
Lemma webhook_signature_not_over_received_bytes :
  let w := Sample.world_with_deposit pending in
  JSON.parse Sample.spaced_body = Some Sample.notification /\
  JSON.stringify Sample.notification <> Sample.spaced_body /\
  WalletController.handlePaystackWebhook Sample.paystack Sample.notification
    Sample.spaced_body_signature w
  = (Throw (BadRequestException "Invalid webhook signature"), w) /\
  WalletController.handlePaystackWebhook Sample.paystack
    (JSON.JStr Sample.spaced_body) Sample.spaced_body_signature w
  = (Throw (BadRequestException "Invalid webhook signature"), w) /\
  Sample.notification_signature <> Sample.spaced_body_signature /\
  fst (WalletController.handlePaystackWebhook Sample.paystack Sample.notification
         Sample.notification_signature w) = Ok acknowledgement /\
  fst (WalletController.handlePaystackWebhook Sample.paystack
         (JSON.JStr Sample.spaced_body) Sample.notification_signature w)
  = Ok acknowledgement.
Proof.
  cbv zeta. split; [|split; [|split; [|split; [|split; [|split]]]]].
  - vm_compute. reflexivity.
  - apply String.eqb_neq. vm_compute. reflexivity.
  - vm_compute. reflexivity.
  - vm_compute. reflexivity.
  - apply String.eqb_neq. vm_compute. reflexivity.
  - vm_compute. reflexivity.
  - vm_compute. reflexivity.
Qed.

(** C4, amended.  For every payload, the handler accepts exactly the
    signature that is the lower-case hexadecimal HMAC-SHA512, keyed with the
    service's secret key, of [JSON.stringify] applied to the parsed payload
    (the payload reaches the service parsed, by the body parser or by the
    controller's own [JSON.parse] of a body that arrives as text; the bytes
    received are not hashed).  With any other signature it throws the 400
    exception for an invalid signature and writes nothing; with that
    signature it never throws that exception. *)
Theorem webhook_signature (paystackService : PaystackService.t)
  (body : JSON.json) (signature : string) (w : World) :
  (forall text,
      JSON.parse text = Some body ->
      WalletController.handlePaystackWebhook paystackService (JSON.JStr text) signature w =
      WalletService.handlePaystackWebhook paystackService body signature w) /\
  ((forall text, body <> JSON.JStr text) ->
   WalletController.handlePaystackWebhook paystackService body signature w =
   WalletService.handlePaystackWebhook paystackService body signature w) /\
  (signature <>
     Crypto.createHmac_sha512_hex (secretKey paystackService) (JSON.stringify body) ->
   WalletService.handlePaystackWebhook paystackService body signature w =
   (Throw (BadRequestException "Invalid webhook signature"), w)) /\
  (signature =
     Crypto.createHmac_sha512_hex (secretKey paystackService) (JSON.stringify body) ->
   forall message w',
     WalletService.handlePaystackWebhook paystackService body signature w <>
     (Throw (BadRequestException message), w')).
Proof.
  split; [|split; [|split]].
  - intros text Hp. unfold WalletController.handlePaystackWebhook.
    now rewrite Hp.
  - intros Hb. unfold WalletController.handlePaystackWebhook.
    destruct body; try reflexivity. now elim (Hb s).
  - intros Hne. apply webhook_invalid_signature.
    unfold verifyWebhookSignature. apply String.eqb_neq. congruence.
  - intros -> message w' H.
    apply webhook_verified_throws in H.
    + destruct H; discriminate.
    + unfold verifyWebhookSignature. apply String.eqb_refl.
Qed.

(** A notification presented with a signature that is not the expected
    one, and the same notification with the expected one. *)
Lemma webhook_signature_witness :
  WalletService.handlePaystackWebhook Sample.paystack Sample.notification
    "0000" (Sample.world_with_deposit pending) =
  (Throw (BadRequestException "Invalid webhook signature"),
   Sample.world_with_deposit pending) /\
  WalletService.handlePaystackWebhook Sample.paystack Sample.notification
    Sample.notification_signature (Sample.world_with_deposit pending) <>
  (Throw (BadRequestException "Invalid webhook signature"),
   Sample.world_with_deposit pending) /\
  WalletController.handlePaystackWebhook Sample.paystack
    (JSON.JStr Sample.spaced_body)
    Sample.notification_signature (Sample.world_with_deposit pending) =
  WalletService.handlePaystackWebhook Sample.paystack Sample.notification
    Sample.notification_signature (Sample.world_with_deposit pending).
Proof.
  split; [|split].
  - destruct (webhook_signature Sample.paystack Sample.notification "0000"
                (Sample.world_with_deposit pending)) as (_ & _ & H & _).
    apply H. apply String.eqb_neq. vm_compute. reflexivity.
  - destruct (webhook_signature Sample.paystack Sample.notification
                Sample.notification_signature
                (Sample.world_with_deposit pending)) as (_ & _ & _ & H).
    apply H. reflexivity.
  - destruct (webhook_signature Sample.paystack Sample.notification
                Sample.notification_signature
                (Sample.world_with_deposit pending)) as (H & _).
    apply H. vm_compute. reflexivity.
Defined.

End Signature.

(** ** The calendar *)

Section Calendar.

Import JsDate Spec.

Lemma mod_4_100 (y : Z) : y mod 4 = (y mod 100) mod 4.
Proof. symmetry. apply Z.mod_mod_divide. exists 25. reflexivity. Qed.
Lemma mod_100_400 (y : Z) : y mod 100 = (y mod 400) mod 100.
Proof. symmetry. apply Z.mod_mod_divide. exists 4. reflexivity. Qed.

Lemma DayFromYear_next (y : Z) : DayFromYear (y + 1) = DayFromYear y + DaysInYear y.
Proof.
  unfold DayFromYear, DaysInYear, InLeapYear.
  pose proof (mod_4_100 y). pose proof (mod_100_400 y).
  destruct (Z.eqb_spec (y mod 4) 0); simpl negb; cbv iota.
  2:{ Z.div_mod_to_equations; lia. }
  destruct (Z.eqb_spec (y mod 100) 0); simpl negb; cbv iota.
  2:{ Z.div_mod_to_equations; lia. }
  destruct (Z.eqb_spec (y mod 400) 0); simpl negb; cbv iota.
  all: Z.div_mod_to_equations; lia. 
Qed.

Lemma DayFromYear_mono (a b : Z) : a <= b -> DayFromYear a <= DayFromYear b.
Proof. unfold DayFromYear. intros. Z.div_mod_to_equations; lia. Qed.

Lemma year_bounds (d : Z) : DayFromYear (YearFromDay d) <= d < DayFromYear (YearFromDay d + 1).
Proof.
  unfold YearFromDay.
  set (g := 1970 + 400 * d / 146097).
  assert (DayFromYear (g - 1) <= d < DayFromYear (g + 2)) as Hg.
  { unfold g, DayFromYear. Z.div_mod_to_equations; lia. }
  destruct (Z.ltb_spec d (DayFromYear g)).
  - replace (g - 1 + 1) with g by lia. lia.
  - destruct (Z.leb_spec (DayFromYear (g + 1)) d).
    + replace (g + 1 + 1) with (g + 2) by lia. lia.
    + lia.
Qed.

Lemma time_of_day (t : Z) :
  MakeTime (HourFromTime t) (MinFromTime t) (SecFromTime t) 0 = TimeWithinDay t - msFromTime t.
Proof.
  unfold MakeTime, HourFromTime, MinFromTime, SecFromTime, TimeWithinDay, msFromTime,
    msPerHour, msPerMinute, msPerSecond, msPerDay. Z.div_mod_to_equations; lia.
Qed.

Lemma year_unique (d y : Z) : DayFromYear y <= d < DayFromYear (y + 1) -> YearFromDay d = y.
Proof.
  intros H. pose proof (year_bounds d) as B.
  destruct (Z.lt_trichotomy (YearFromDay d) y) as [L|[E|L]]; [|exact E|].
  - pose proof (DayFromYear_mono (YearFromDay d + 1) y). lia.
  - pose proof (DayFromYear_mono (y + 1) (YearFromDay d)). lia.
Qed.


Lemma month_cases (P : Z -> Prop) :
  P 0 -> P 1 -> P 2 -> P 3 -> P 4 -> P 5 -> P 6 -> P 7 -> P 8 -> P 9 -> P 10 -> P 11 ->
  forall m, 0 <= m <= 11 -> P m.
Proof.
  intros ? ? ? ? ? ? ? ? ? ? ? ? m Hm.
  rewrite <- (Z2Nat.id m) by lia.
  assert (Z.to_nat m < 12)%nat as Hk by lia.
  revert Hk. generalize (Z.to_nat m) as k. intros k Hk.
  do 12 (destruct k as [|k]; [assumption|]). lia.
Qed.

Lemma monthStart_bounds (leap : bool) (m dt : Z) :
  0 <= m <= 11 -> 1 <= dt <= monthStart leap (m + 1) - monthStart leap m ->
  0 <= monthStart leap m + dt - 1 < (if leap then 366 else 365).
Proof.
  intros Hm. revert dt. pattern m. apply month_cases; [..|exact Hm];
    intros dt; destruct leap; eval_monthStart; lia.
Qed.

Lemma Day_MakeDate (day time : Z) : 0 <= time < msPerDay -> Day (MakeDate day time) = day.
Proof. unfold Day, MakeDate, msPerDay. intros. Z.div_mod_to_equations; lia. Qed.

Lemma MakeDay_in_range (y m dt : Z) :
  0 <= m <= 11 -> MakeDay y m dt = DayFromYear y + monthStart (InLeapYear y) m + dt - 1.
Proof.
  intros Hm. unfold MakeDay. rewrite Z.div_small, Z.mod_small by lia.
  now rewrite Z.add_0_r.
Qed.

Lemma month_of_offset (leap : bool) (m dt : Z) :
  0 <= m <= 11 -> 1 <= dt <= monthStart leap (m + 1) - monthStart leap m ->
  let d := monthStart leap m + dt - 1 in
  (if d <? monthStart leap 1 then 0
   else if d <? monthStart leap 2 then 1
   else if d <? monthStart leap 3 then 2
   else if d <? monthStart leap 4 then 3
   else if d <? monthStart leap 5 then 4
   else if d <? monthStart leap 6 then 5
   else if d <? monthStart leap 7 then 6
   else if d <? monthStart leap 8 then 7
   else if d <? monthStart leap 9 then 8
   else if d <? monthStart leap 10 then 9
   else if d <? monthStart leap 11 then 10
   else 11) = m.
Proof.
  intros Hm. revert dt. pattern m. apply month_cases; [..|exact Hm];
    intros dt Hd; cbv zeta; destruct leap; eval_monthStart; chain; lia.
Qed.

Lemma fields_of_day (t y m dt : Z) :
  0 <= m <= 11 -> 1 <= dt <= DaysInMonth y m ->
  Day t = MakeDay y m dt ->
  YearFromTime t = y /\ MonthFromTime t = m /\ DateFromTime t = dt.
Proof.
  intros Hm Hd HD. rewrite MakeDay_in_range in HD by exact Hm.
  unfold DaysInMonth in Hd.
  pose proof (monthStart_bounds (InLeapYear y) m dt Hm Hd) as B.
  assert (YearFromTime t = y) as Hy.
  { unfold YearFromTime. apply year_unique. rewrite DayFromYear_next, HD.
    unfold DaysInYear. lia. }
  assert (DayWithinYear t = monthStart (InLeapYear y) m + dt - 1) as Hw.
  { unfold DayWithinYear. rewrite Hy, HD. lia. }
  assert (MonthFromTime t = m) as Hmo.
  { unfold MonthFromTime. rewrite Hy, Hw. now apply month_of_offset. }
  split; [exact Hy|]. split; [exact Hmo|].
  unfold DateFromTime. rewrite Hy, Hmo, Hw. lia.
Qed.

Lemma offset_of_month (leap : bool) (d : Z) :
  0 <= d < (if leap then 366 else 365) ->
  let m :=
    if d <? monthStart leap 1 then 0
    else if d <? monthStart leap 2 then 1
    else if d <? monthStart leap 3 then 2
    else if d <? monthStart leap 4 then 3
    else if d <? monthStart leap 5 then 4
    else if d <? monthStart leap 6 then 5
    else if d <? monthStart leap 7 then 6
    else if d <? monthStart leap 8 then 7
    else if d <? monthStart leap 9 then 8
    else if d <? monthStart leap 10 then 9
    else if d <? monthStart leap 11 then 10
    else 11 in
  0 <= m <= 11 /\ monthStart leap m <= d < monthStart leap (m + 1).
Proof.
  intros Hd. cbv zeta. destruct leap; chain; eval_monthStart; lia.
Qed.

Lemma day_of_fields (t : Z) :
  let y := YearFromTime t in let m := MonthFromTime t in let dt := DateFromTime t in
  0 <= m <= 11 /\ 1 <= dt <= DaysInMonth y m /\ Day t = MakeDay y m dt.
Proof.
  cbv zeta.
  pose proof (year_bounds (Day t)) as B. fold (YearFromTime t) in B.
  rewrite DayFromYear_next in B.
  assert (0 <= DayWithinYear t < (if InLeapYear (YearFromTime t) then 366 else 365)) as W
    by (unfold DayWithinYear, DaysInYear in *; lia).
  pose proof (offset_of_month _ _ W) as O. cbv zeta in O.
  fold (MonthFromTime t) in O. destruct O as [Hm Ho].
  split; [exact Hm|].
  rewrite MakeDay_in_range by exact Hm.
  unfold DateFromTime, DaysInMonth. unfold DayWithinYear in *. lia.
Qed.

Lemma DaysInMonth_bounds (y m : Z) : 0 <= m <= 11 -> 28 <= DaysInMonth y m <= 31.
Proof.
  intros Hm. unfold DaysInMonth. pattern m. apply month_cases; [..|exact Hm];
    destruct (InLeapYear y); eval_monthStart; lia.
Qed.

Lemma MakeDay_carry (y m dt : Z) : 0 <= m <= 11 ->
  MakeDay y (m + 1) dt = MakeDay y m dt + DaysInMonth y m.
Proof.
  intros Hm. rewrite (MakeDay_in_range y m) by exact Hm.
  unfold MakeDay, DaysInMonth.
  destruct (Z.eq_dec m 11) as [->|Hne].
  - change ((11 + 1) / 12) with 1. change ((11 + 1) mod 12) with 0.
    rewrite DayFromYear_next. unfold DaysInYear.
    destruct (InLeapYear y); eval_monthStart; lia.
  - rewrite Z.div_small, Z.mod_small by lia. rewrite Z.add_0_r. lia.
Qed.

Lemma next_month_range (y m : Z) : 0 <= m <= 11 -> 0 <= snd (next_month y m) <= 11.
Proof.
  intros. unfold next_month. simpl. pose proof (Z.mod_pos_bound (m + 1) 12). lia.
Qed.

Lemma MakeDay_next_month (y m dt : Z) :
  MakeDay y (m + 1) dt = MakeDay (fst (next_month y m)) (snd (next_month y m)) dt.
Proof.
  unfold next_month. simpl fst. simpl snd.
  rewrite (MakeDay_in_range _ ((m + 1) mod 12))
    by (pose proof (Z.mod_pos_bound (m + 1) 12); lia).
  reflexivity.
Qed.

(** The date fields of a day given by a year, a month and a day of the
    month that may run past the end of that month by less than a month. *)
Lemma fields_of_MakeDay (t y m dt : Z) :
  0 <= m <= 11 -> 1 <= dt <= 31 -> Day t = MakeDay y m dt ->
  (dt <= DaysInMonth y m ->
   YearFromTime t = y /\ MonthFromTime t = m /\ DateFromTime t = dt) /\
  (DaysInMonth y m < dt ->
   let (y2, m2) := next_month y m in
   YearFromTime t = y2 /\ MonthFromTime t = m2 /\ DateFromTime t = dt - DaysInMonth y m).
Proof.
  intros Hm Hd HD. split; intros H.
  - apply fields_of_day; [exact Hm | lia | exact HD].
  - pose proof (DaysInMonth_bounds y m Hm) as B.
    pose proof (next_month_range y m Hm) as R.
    pose proof (MakeDay_carry y m (dt - DaysInMonth y m) Hm) as C.
    rewrite MakeDay_next_month in C.
    destruct (next_month y m) as [y2 m2]. simpl in *.
    pose proof (DaysInMonth_bounds y2 m2 R) as B2.
    apply fields_of_day; [exact R | lia |].
    rewrite HD, C. rewrite !MakeDay_in_range by assumption. lia.
Qed.

Lemma clock_fields (day h mi s : Z) :
  0 <= h < 24 -> 0 <= mi < 60 -> 0 <= s < 60 ->
  let t := MakeDate day (MakeTime h mi s 0) in
  Day t = day /\ HourFromTime t = h /\ MinFromTime t = mi /\ SecFromTime t = s /\
  msFromTime t = 0.
Proof.
  intros Hh Hmi Hs. cbv zeta.
  unfold Day, HourFromTime, MinFromTime, SecFromTime, msFromTime, MakeDate, MakeTime,
    msPerDay, msPerHour, msPerMinute, msPerSecond.
  repeat split; Z.div_mod_to_equations; lia.
Qed.

Lemma year_from_1970 (t : Z) : 0 <= t -> 1970 <= YearFromTime t.
Proof.
  intros Ht. pose proof (year_bounds (Day t)) as B. fold (YearFromTime t) in B.
  destruct (Z.le_gt_cases 1970 (YearFromTime t)) as [L|L]; [exact L|].
  pose proof (DayFromYear_mono (YearFromTime t + 1) 1970).
  assert (DayFromYear 1970 = 0) by reflexivity.
  assert (0 <= Day t) by (unfold Day, msPerDay; Z.div_mod_to_equations; lia).
  lia.
Qed.

(** The local time built from the fields of the local time [nl], with the
    year and the month replaced: where it lands. *)
Lemma local_time_lands (nl y m y' m' : Z) :
  0 <= m' <= 11 ->
  (forall dt, MakeDay (full_year y) m dt = MakeDay y' m' dt) ->
  landed nl
    (local_time_of y m (DateFromTime nl) (HourFromTime nl) (MinFromTime nl)
       (SecFromTime nl))
    (y', m').
Proof.
  intros Hm E. unfold landed, local_time_of.
  set (t := MakeDate _ _).
  assert (0 <= HourFromTime nl < 24) as Hh by (apply Z.mod_pos_bound; lia).
  assert (0 <= MinFromTime nl < 60) as Hmi by (apply Z.mod_pos_bound; lia).
  assert (0 <= SecFromTime nl < 60) as Hs by (apply Z.mod_pos_bound; lia).
  destruct (clock_fields (MakeDay (full_year y) m (DateFromTime nl)) _ _ _ Hh Hmi Hs)
    as (HD & H1 & H2 & H3 & H4).
  fold t in HD, H1, H2, H3, H4.
  destruct (day_of_fields nl) as (Hm0 & Hd0 & _).
  pose proof (DaysInMonth_bounds (YearFromTime nl) _ Hm0) as B0.
  split; [exact H1|]. split; [exact H2|]. split; [exact H3|]. split; [exact H4|].
  rewrite E in HD.
  apply fields_of_MakeDay; [exact Hm | lia | exact HD].
Qed.

Lemma newDate_expires (LocalTZA : Z -> bool -> Z) (now y m y' m' : Z) :
  0 <= m' <= 11 ->
  (forall dt, MakeDay (full_year y) m dt = MakeDay y' m' dt) ->
  expires LocalTZA now
    (newDate LocalTZA y m (getDate LocalTZA now) (getHours LocalTZA now)
       (getMinutes LocalTZA now) (getSeconds LocalTZA now))
    (y', m').
Proof.
  intros Hm E. unfold expires, newDate.
  unfold getDate, getHours, getMinutes, getSeconds.
  pose proof (local_time_lands (LocalTime LocalTZA now) y m y' m' Hm E) as L.
  eexists. split; [reflexivity|]. split; [exact L|].
  intros Hback. rewrite Hback. exact L.
Qed.

(** C9, as stated, fails.  Computed on 31 January 2025 at 10:30:00.500, on
    a host on UTC, the expiry of a ['1M'] key is 3 March 2025 at
    10:30:00.000: not the same day of the following month, and not the same
    time to the millisecond. *)
Lemma one_month_after_january_31 :
  ApiKeyService.calculateExpireTime Sample.utc Sample.january_31 "1M"
    = Ok Sample.march_3 /\
  (getMonth Sample.utc Sample.january_31, getDate Sample.utc Sample.january_31,
   getMilliseconds Sample.utc Sample.january_31) = (0, 31, 500) /\
  (getMonth Sample.utc Sample.march_3, getDate Sample.utc Sample.march_3,
   getMilliseconds Sample.utc Sample.march_3) = (2, 3, 0) /\
  ~ same_day_next_month Sample.utc Sample.january_31 Sample.march_3.
Proof.
  split; [vm_compute; reflexivity|]. split; [vm_compute; reflexivity|].
  split; [vm_compute; reflexivity|].
  unfold same_day_next_month.
  replace (next_month (getFullYear Sample.utc Sample.january_31)
             (getMonth Sample.utc Sample.january_31))
    with (2025, 1) by (vm_compute; reflexivity).
  intros (_ & H & _).
  assert (getMonth Sample.utc Sample.march_3 = 2) as E by (vm_compute; reflexivity).
  rewrite E in H. discriminate H.
Qed.

(** C9, amended.  At every creation time [now], whatever the zone of the
    host: ['1H'] gives [now] plus 3600000 ms and ['1D'] gives [now] plus
    86400000 ms; ['1M'] gives the instant the host's zone assigns to the
    local day of the month, hour, minute and second of [now], with the
    milliseconds dropped, in the following calendar month (December rolls
    over into January of the next year), and ['1Y'] gives it in the same
    month of the following year; when that month has no such day, the
    result runs on into the month after it by the excess (31 January gives
    3 March, or 2 March in a leap year; 29 February gives 1 March).  The
    [Date] constructor takes a year from 0 to 99 for 1900 plus that year.
    Any other unit is refused with the 400 exception for an invalid expiry
    unit. *)
Theorem expiry_times (LocalTZA : Z -> bool -> Z) (now : Z) :
  ApiKeyService.calculateExpireTime LocalTZA now "1H" = Ok (now + 3600000) /\
  ApiKeyService.calculateExpireTime LocalTZA now "1D" = Ok (now + 86400000) /\
  (exists r,
      ApiKeyService.calculateExpireTime LocalTZA now "1M" = Ok r /\
      expires LocalTZA now r
        (next_month (full_year (getFullYear LocalTZA now)) (getMonth LocalTZA now))) /\
  (exists r,
      ApiKeyService.calculateExpireTime LocalTZA now "1Y" = Ok r /\
      expires LocalTZA now r
        (full_year (getFullYear LocalTZA now + 1), getMonth LocalTZA now)) /\
  (forall expiry,
      ~ In expiry ["1H"; "1D"; "1M"; "1Y"]%string ->
      ApiKeyService.calculateExpireTime LocalTZA now expiry =
      Throw (BadRequestException "Invalid expiry unit")).
Proof.
  destruct (day_of_fields (LocalTime LocalTZA now)) as (Hm & _ & _).
  fold (getMonth LocalTZA now) in Hm.
  split; [reflexivity|]. split; [reflexivity|]. split; [|split].
  - eexists. split; [reflexivity|].
    pose proof (next_month_range (full_year (getFullYear LocalTZA now))
                  (getMonth LocalTZA now) Hm) as R.
    pose proof (MakeDay_next_month (full_year (getFullYear LocalTZA now))
                  (getMonth LocalTZA now)) as E.
    destruct (next_month (full_year (getFullYear LocalTZA now)) (getMonth LocalTZA now))
      as [y' m'].
    apply newDate_expires; [exact R | exact E].
  - eexists. split; [reflexivity|].
    apply newDate_expires; [exact Hm | reflexivity].
  - intros expiry Hn. unfold ApiKeyService.calculateExpireTime.
    destruct (String.eqb_spec expiry "1H") as [->|_]; [exfalso; apply Hn; simpl; tauto|].
    destruct (String.eqb_spec expiry "1D") as [->|_]; [exfalso; apply Hn; simpl; tauto|].
    destruct (String.eqb_spec expiry "1M") as [->|_]; [exfalso; apply Hn; simpl; tauto|].
    destruct (String.eqb_spec expiry "1Y") as [->|_]; [exfalso; apply Hn; simpl; tauto|].
    reflexivity.
Qed.

Lemma calculateExpireTime_valid (LocalTZA : Z -> bool -> Z) (now : Z)
  (expiry : string) :
  In expiry ["1H"; "1D"; "1M"; "1Y"]%string ->
  exists t, ApiKeyService.calculateExpireTime LocalTZA now expiry = Ok t.
Proof.
  simpl. intros [<-|[<-|[<-|[<-|[]]]]]; eexists; reflexivity.
Qed.

End Calendar.

(** ** API keys *)

Section ApiKeys.

Import ApiKeyService Spec.

Lemma apiKey_fresh (data : ApiKey) (ks : list ApiKey) :
  (forall k, In k ks -> key_id k <> key_id data /\ key_key k <> key_key data) ->
  existsb (apiKey_clash data) ks = false.
Proof.
  intros H. destruct (existsb (apiKey_clash data) ks) eqn:E; [|reflexivity].
  apply existsb_exists in E. destruct E as (k & Hin & E).
  destruct (H k Hin) as [H1 H2]. unfold apiKey_clash in E.
  apply String.eqb_neq in H1, H2. now rewrite H1, H2 in E.
Qed.

(** Revoking rows cannot make the count of active keys grow, and revoking
    an active one makes it fall. *)
Lemma revoke_lowers_count (userId id : string) (now d : Z) (ks : list ApiKey)
  (k : ApiKey) :
  In k ks -> key_id k = id -> active_for userId now k = true ->
  (List.length (filter (active_for userId now)
                  (updateBy key_id id (set_revokedAt d) ks))
   < List.length (filter (active_for userId now) ks))%nat.
Proof.
  intros Hin Hid Hact.
  assert (forall l,
             (List.length (filter (active_for userId now)
                             (updateBy key_id id (set_revokedAt d) l))
              <= List.length (filter (active_for userId now) l))%nat) as Hle.
  { unfold updateBy. induction l as [|x l IH]; simpl; [lia|].
    destruct (String.eqb (key_id x) id).
    - unfold active_for at 1. simpl. rewrite andb_false_r. simpl.
      destruct (active_for userId now x); simpl; lia.
    - destruct (active_for userId now x); simpl; lia. }
  induction ks as [|x ks IH]; simpl in *; [tauto|].
  destruct Hin as [->|Hin].
  - unfold updateBy in *. rewrite Hid, String.eqb_refl, Hact.
    unfold active_for at 1. simpl. rewrite andb_false_r. simpl.
    specialize (Hle ks). lia.
  - specialize (IH Hin). unfold updateBy in *.
    destruct (String.eqb (key_id x) id).
    + unfold active_for at 1. simpl. rewrite andb_false_r. simpl.
      destruct (active_for userId now x); simpl; lia.
    + destruct (active_for userId now x); simpl; lia.
Qed.

Lemma createApiKey_refused (LocalTZA : Z -> bool -> Z) (env : KeyEnv) (userId : string)
  (createApiKeyDto : CreateApiKeyDto) (w : World) :
  5 <= Z.of_nat (List.length (filter (active_for userId (now_check env)) (apiKeys w))) ->
  createApiKey LocalTZA env userId createApiKeyDto w =
  (Throw (BadRequestException "Maximum of 5 active API keys allowed"), w).
Proof.
  intros H. unfold createApiKey, try_catch, bind, apiKey_count, MAX_ACTIVE_KEYS.
  apply Z.leb_le in H. rewrite H. reflexivity.
Qed.

Lemma createApiKey_accepted (LocalTZA : Z -> bool -> Z) (env : KeyEnv) (userId : string)
  (createApiKeyDto : CreateApiKeyDto) (w : World) :
  Z.of_nat (List.length (filter (active_for userId (now_check env)) (apiKeys w))) < 5 ->
  In (expiry createApiKeyDto) units ->
  (forall k, In k (apiKeys w) ->
             key_id k <> new_key_id env /\
             key_key k <> generateApiKey (key_random env)) ->
  exists expiresAt,
    calculateExpireTime LocalTZA (now_expiry env) (expiry createApiKeyDto) = Ok expiresAt /\
    createApiKey LocalTZA env userId createApiKeyDto w =
    (Ok {| api_key := generateApiKey (key_random env);
           expires_at := expiresAt;
           result_name := name createApiKeyDto;
           result_permissions := permissions createApiKeyDto |},
     with_apiKeys
       (apiKeys w ++
        [{| key_id := new_key_id env;
            key_userId := userId;
            key_name := name createApiKeyDto;
            key_key := generateApiKey (key_random env);
            key_permissions := permissions createApiKeyDto;
            key_expiresAt := expiresAt;
            key_revokedAt := None;
            key_rolledOverAt := None;
            key_rolledOverFrom := None |}]) w).
Proof.
  intros Hc Hu Hfresh.
  destruct (calculateExpireTime_valid LocalTZA (now_expiry env) _ Hu) as [t Ht].
  exists t. split; [exact Ht|].
  unfold createApiKey, try_catch, bind, apiKey_count, MAX_ACTIVE_KEYS, lift, apiKey_create.
  apply Z.leb_gt in Hc. rewrite Hc, Ht.
  rewrite apiKey_fresh by exact Hfresh. reflexivity.
Qed.

Lemma revokeApiKey_Ok (now : Z) (userId : string) (k : ApiKey) (w : World) :
  NoDup (map key_id (apiKeys w)) -> In k (apiKeys w) -> key_userId k = userId ->
  revokeApiKey now userId (key_id k) w =
  (Ok {| revoke_message := "API key revoked successfully";
         revoked_id := key_id k;
         revoked_at := Some now |},
   with_apiKeys (updateBy key_id (key_id k) (set_revokedAt now) (apiKeys w)) w).
Proof.
  intros Hnd Hin Hu.
  unfold revokeApiKey, bind, apiKey_findUnique_id, apiKey_update.
  rewrite (findBy_unique key_id _ _ Hnd Hin).
  apply String.eqb_eq in Hu. rewrite Hu. cbv beta iota delta [negb].
  rewrite (findBy_unique key_id _ _ Hnd Hin). reflexivity.
Qed.

(** C7.  With five or more keys of the identity active when the call is
    made (not revoked, and expiring strictly later), [createApiKey] throws
    the 400 exception for the limit and writes nothing.  With fewer than
    five, a valid expiry unit and a fresh identifier and secret, it appends
    the new key.  And when at most five are active, revoking one of them
    makes the next creation go through. *)
Theorem key_limit (LocalTZA : Z -> bool -> Z) (env : KeyEnv) (userId : string)
  (createApiKeyDto : CreateApiKeyDto) (w : World) :
  let active (w : World) :=
    Z.of_nat (List.length (filter (active_for userId (now_check env)) (apiKeys w))) in
  (5 <= active w ->
   createApiKey LocalTZA env userId createApiKeyDto w =
   (Throw (BadRequestException "Maximum of 5 active API keys allowed"), w)) /\
  (active w < 5 ->
   In (expiry createApiKeyDto) units ->
   (forall k, In k (apiKeys w) ->
              key_id k <> new_key_id env /\
              key_key k <> generateApiKey (key_random env)) ->
   exists res newKey,
     createApiKey LocalTZA env userId createApiKeyDto w =
       (Ok res, with_apiKeys (apiKeys w ++ [newKey]) w) /\
     api_key res = generateApiKey (key_random env) /\
     key_key newKey = api_key res /\ key_userId newKey = userId /\
     key_permissions newKey = permissions createApiKeyDto /\
     key_revokedAt newKey = None /\
     calculateExpireTime LocalTZA (now_expiry env) (expiry createApiKeyDto)
       = Ok (key_expiresAt newKey)) /\
  (forall k now,
      active w <= 5 ->
      NoDup (map key_id (apiKeys w)) ->
      In k (apiKeys w) -> active_for userId (now_check env) k = true ->
      In (expiry createApiKeyDto) units ->
      (forall k, In k (apiKeys w) ->
                 key_id k <> new_key_id env /\
                 key_key k <> generateApiKey (key_random env)) ->
      exists revoked w1 res w2,
        revokeApiKey now userId (key_id k) w = (Ok revoked, w1) /\
        active w1 < 5 /\
        createApiKey LocalTZA env userId createApiKeyDto w1 = (Ok res, w2) /\
        List.length (apiKeys w2) = S (List.length (apiKeys w))).
Proof.
  cbv zeta. split; [apply createApiKey_refused|]. split.
  - intros Hc Hu Hfresh.
    destruct (createApiKey_accepted LocalTZA env userId createApiKeyDto w Hc Hu Hfresh)
      as (t & Ht & H).
    eexists _, _. split; [exact H|]. simpl. repeat split; auto.
  - intros k now Hc Hnd Hin Hact Hu Hfresh.
    assert (key_userId k = userId) as Hown.
    { unfold active_for in Hact. apply andb_prop in Hact. destruct Hact as [Hact _].
      apply andb_prop in Hact. destruct Hact as [Hact _].
      now apply String.eqb_eq in Hact. }
    set (w1 := with_apiKeys
                 (updateBy key_id (key_id k) (set_revokedAt now) (apiKeys w)) w).
    pose proof (revoke_lowers_count userId (key_id k) (now_check env) now
                  (apiKeys w) k Hin eq_refl Hact) as Hlt.
    assert (Z.of_nat (List.length (filter (active_for userId (now_check env))
                                     (apiKeys w1))) < 5) as Hc1
      by (simpl; lia).
    assert (forall x, In x (apiKeys w1) ->
                      key_id x <> new_key_id env /\
                      key_key x <> generateApiKey (key_random env)) as Hfresh1.
    { simpl. unfold updateBy. intros x Hx. apply in_map_iff in Hx.
      destruct Hx as (x0 & <- & Hx0). specialize (Hfresh x0 Hx0).
      destruct (String.eqb (key_id x0) (key_id k)); simpl; exact Hfresh. }
    destruct (createApiKey_accepted LocalTZA env userId createApiKeyDto w1 Hc1 Hu Hfresh1)
      as (t & Ht & H).
    eexists _, w1, _, _.
    split; [now apply revokeApiKey_Ok|]. split; [exact Hc1|]. split; [exact H|].
    simpl. rewrite length_app, updateBy_length. simpl. lia.
Qed.

(** One active key: a second is created.  Five active keys: a sixth is
    refused; after one is revoked it is created. *)
Lemma key_limit_witness :
  (exists res w',
      createApiKey Sample.utc Sample.key_env "user_a" Sample.new_key_dto Sample.world_old_keys
        = (Ok res, w') /\
      List.length (apiKeys w') = 4%nat) /\
  createApiKey Sample.utc Sample.key_env "user_a" Sample.new_key_dto Sample.world_five_keys =
    (Throw (BadRequestException "Maximum of 5 active API keys allowed"),
     Sample.world_five_keys) /\
  exists revoked w1 res w2,
    revokeApiKey Sample.january_31 "user_a" "key_3" Sample.world_five_keys
      = (Ok revoked, w1) /\
    createApiKey Sample.utc Sample.key_env "user_a" Sample.new_key_dto w1 = (Ok res, w2) /\
    List.length (apiKeys w2) = 6%nat.
Proof.
  destruct (key_limit Sample.utc Sample.key_env "user_a" Sample.new_key_dto
              Sample.world_five_keys) as (H1 & _ & H3).
  split; [|split].
  - destruct (key_limit Sample.utc Sample.key_env "user_a" Sample.new_key_dto
                Sample.world_old_keys) as (_ & H2 & _).
    destruct H2 as (res & newKey & H & _).
    + vm_compute. reflexivity.
    + simpl. tauto.
    + intros k Hk. simpl in Hk.
      repeat (destruct Hk as [<-|Hk]; [split; apply String.eqb_neq; reflexivity|]).
      destruct Hk.
    + eexists _, _. split; [exact H|].
      cbn [apiKeys with_apiKeys]. rewrite length_app. reflexivity.
  - apply H1. vm_compute. discriminate.
  - destruct (H3 (Sample.key "3" Sample.next_year None) Sample.january_31)
      as (revoked & w1 & res & w2 & Hr & _ & Hc & Hl).
    + vm_compute. discriminate.
    + apply distinct_NoDup. reflexivity.
    + simpl. tauto.
    + reflexivity.
    + simpl. tauto.
    + intros k Hk. simpl in Hk.
      repeat (destruct Hk as [<-|Hk]; [split; apply String.eqb_neq; reflexivity|]).
      destruct Hk.
    + exists revoked, w1, res, w2. split; [exact Hr|]. split; [exact Hc|]. exact Hl.
Defined.

(** C6.  For a key the caller owns: while it is not revoked and the clock
    has not passed its expiry, [rolloverApiKey] throws the 400 exception
    saying the key is still active; when it is revoked it throws the 400
    exception saying it was revoked, a different message; in both cases
    nothing is written.  For an expired key that is not revoked (with a valid
    expiry unit, and a fresh identifier and secret for the new key) it
    appends a key with exactly the permissions of the old one and a link to
    the old one, and stamps the old one as rolled over, without revoking
    it. *)
Theorem rollover (LocalTZA : Z -> bool -> Z) (env : KeyEnv) (userId : string)
  (rolloverDto : RolloverApiKeyDto) (w : World) (oldKey : ApiKey) :
  findBy key_id (expired_key_id rolloverDto) (apiKeys w) = Some oldKey ->
  key_userId oldKey = userId ->
  (key_revokedAt oldKey = None -> now_check env <= key_expiresAt oldKey ->
   rolloverApiKey LocalTZA env userId rolloverDto w =
   (Throw (BadRequestException
             "API key is still active. Only expired keys can be rolled over"), w)) /\
  (key_revokedAt oldKey <> None ->
   rolloverApiKey LocalTZA env userId rolloverDto w =
   (Throw (BadRequestException
             "API key has been revoked. Only expired keys can be rolled over"), w)) /\
  (key_revokedAt oldKey = None -> key_expiresAt oldKey < now_check env ->
   In (rollover_expiry rolloverDto) units ->
   (forall k, In k (apiKeys w) ->
              key_id k <> new_key_id env /\
              key_key k <> generateApiKey (key_random env)) ->
   exists res newKey,
     rolloverApiKey LocalTZA env userId rolloverDto w =
       (Ok res,
        with_apiKeys
          (updateBy key_id (key_id oldKey) (set_rolledOverAt (now_stamp env))
             (apiKeys w) ++ [newKey]) w) /\
     api_key res = key_key newKey /\
     result_permissions res = key_permissions oldKey /\
     key_permissions newKey = key_permissions oldKey /\
     key_rolledOverFrom newKey = Some (key_id oldKey) /\
     key_userId newKey = userId /\
     key_revokedAt newKey = None /\
     calculateExpireTime LocalTZA (now_expiry env) (rollover_expiry rolloverDto)
       = Ok (key_expiresAt newKey) /\
     findBy key_id (key_id oldKey)
       (updateBy key_id (key_id oldKey) (set_rolledOverAt (now_stamp env))
          (apiKeys w) ++ [newKey])
       = Some (set_rolledOverAt (now_stamp env) oldKey) /\
     key_revokedAt (set_rolledOverAt (now_stamp env) oldKey) = None /\
     key_rolledOverAt (set_rolledOverAt (now_stamp env) oldKey)
       = Some (now_stamp env)).
Proof.
  intros Hf Hown. apply String.eqb_eq in Hown.
  destruct (findBy_Some key_id _ _ _ Hf) as [Hin Hid].
  split; [|split].
  - intros Hr Hlive. unfold rolloverApiKey, bind, apiKey_findUnique_id.
    rewrite Hf, Hown, Hr. apply Z.leb_le in Hlive. rewrite Hlive. reflexivity.
  - intros Hr. unfold rolloverApiKey, bind, apiKey_findUnique_id.
    rewrite Hf, Hown. destruct (key_revokedAt oldKey); [|congruence].
    simpl. rewrite andb_false_r. reflexivity.
  - intros Hr Hexp Hu Hfresh.
    destruct (calculateExpireTime_valid LocalTZA (now_expiry env) _ Hu) as [t Ht].
    eexists _, _. split.
    + unfold rolloverApiKey, bind, apiKey_findUnique_id.
      rewrite Hf, Hown, Hr. apply Z.leb_gt in Hexp. rewrite Hexp.
      cbv beta iota delta [negb andb is_set].
      unfold lift, apiKey_create. rewrite Ht.
      rewrite apiKey_fresh by exact Hfresh.
      unfold apiKey_update. cbn [apiKeys with_apiKeys].
      unfold findBy. rewrite find_app. unfold findBy in Hf. rewrite <- Hid in Hf.
      rewrite Hf. cbn [apiKeys with_apiKeys]. rewrite updateBy_app. simpl.
      destruct (Hfresh oldKey Hin) as [Hne _].
      assert (new_key_id env <> key_id oldKey) as Hne' by congruence.
      apply String.eqb_neq in Hne'. rewrite Hne'. reflexivity.
    + simpl. repeat split; auto.
      unfold findBy. rewrite find_app.
      rewrite (find_updateBy key_id) by reflexivity.
      unfold findBy in Hf. rewrite <- Hid in Hf. rewrite Hf. simpl.
      now rewrite String.eqb_refl.
Qed.

(** An expired key is rolled over; the key still active and the revoked
    key are refused, each with its own message. *)
Lemma rollover_witness :
  (exists res w',
      rolloverApiKey Sample.utc Sample.key_env "user_a" (Sample.rollover_dto "old")
        Sample.world_old_keys = (Ok res, w') /\
      result_permissions res = ["read"; "deposit"]%string /\
      List.length (apiKeys w') = 4%nat) /\
  rolloverApiKey Sample.utc Sample.key_env "user_a" (Sample.rollover_dto "live")
    Sample.world_old_keys =
  (Throw (BadRequestException
            "API key is still active. Only expired keys can be rolled over"),
   Sample.world_old_keys) /\
  rolloverApiKey Sample.utc Sample.key_env "user_a" (Sample.rollover_dto "gone")
    Sample.world_old_keys =
  (Throw (BadRequestException
            "API key has been revoked. Only expired keys can be rolled over"),
   Sample.world_old_keys).
Proof.
  split; [|split].
  - destruct (rollover Sample.utc Sample.key_env "user_a" (Sample.rollover_dto "old")
                Sample.world_old_keys (Sample.key "old" Sample.last_new_year None)
                eq_refl eq_refl) as (_ & _ & H).
    destruct H as (res & newKey & H & _ & Hp & _).
    + reflexivity.
    + vm_compute. reflexivity.
    + simpl. tauto.
    + intros k Hk. simpl in Hk.
      repeat (destruct Hk as [<-|Hk]; [split; apply String.eqb_neq; reflexivity|]).
      destruct Hk.
    + eexists _, _. split; [exact H|]. split; [exact Hp|].
      cbn [apiKeys with_apiKeys]. rewrite length_app, updateBy_length. reflexivity.
  - destruct (rollover Sample.utc Sample.key_env "user_a" (Sample.rollover_dto "live")
                Sample.world_old_keys (Sample.key "live" Sample.next_year None)
                eq_refl eq_refl) as (H & _ & _).
    apply H; [reflexivity | vm_compute; discriminate].
  - destruct (rollover Sample.utc Sample.key_env "user_a" (Sample.rollover_dto "gone")
                Sample.world_old_keys
                (Sample.key "gone" Sample.last_new_year (Some Sample.last_new_year))
                eq_refl eq_refl) as (_ & H & _).
    apply H. discriminate.
Defined.

End ApiKeys.

(** ** The access gate *)

Section AccessGate.

Import WalletController WalletService.

(** A request with neither a bearer token nor an API key is refused with
    status 401 by the first guard. *)
Lemma gate_unauthenticated {A : Type} (jwtService : JwtAuthGuard.JwtService)
  (now : Z) (request : Request) (handler : Request -> M A) (w : World) :
  Js.truthy_opt (header_authorization request) = false ->
  Js.truthy_opt (header_x_api_key request) = false ->
  exists message,
    UseGuards jwtService now request handler w =
    (Throw (UnauthorizedException message), w).
Proof.
  intros Ha Hk. unfold UseGuards, bind, JwtAuthGuard.canActivate.
  rewrite Ha, Hk. simpl.
  destruct (Js.startsWith (url request) "/keys"); simpl.
  - eexists. reflexivity.
  - destruct (header_authorization request) as [h|]; [|eexists; reflexivity].
    simpl in Ha. rewrite Ha. eexists. reflexivity.
Qed.

(** A request to a wallet route that presents an API key and no bearer
    token: an unknown, a revoked and an expired key are refused with status
    403, each with its own message; otherwise the handler runs with the
    owner and the permissions of the key. *)
Lemma gate_api_key {A : Type} (jwtService : JwtAuthGuard.JwtService)
  (now : Z) (request : Request) (handler : Request -> M A) (w : World)
  (apiKey : string) :
  header_authorization request = None ->
  header_x_api_key request = Some apiKey -> Js.truthy apiKey = true ->
  Js.startsWith (url request) "/keys" = false ->
  request_user request = None ->
  UseGuards jwtService now request handler w =
  match findBy key_key apiKey (apiKeys w) with
  | None => (Throw (ForbiddenException "Invalid API key"), w)
  | Some key =>
      match key_revokedAt key with
      | Some _ => (Throw (ForbiddenException "API key has been revoked"), w)
      | None =>
          if key_expiresAt key <? now
          then (Throw (ForbiddenException "API key has expired"), w)
          else
            handler
              {| url := url request;
                 header_authorization := None;
                 header_x_api_key := Some apiKey;
                 request_user :=
                   option_map (fun u => {| id := user_id u |})
                              (findBy user_id (key_userId key) (users w));
                 apiKeyPermissions := Some (key_permissions key);
                 apiKeyId := Some (key_id key) |} w
      end
  end.
Proof.
  intros Ha Hk Ht Hu Hr.
  unfold UseGuards, bind at 1 2, JwtAuthGuard.canActivate.
  rewrite Ha, Hk, Hu. simpl. rewrite Ht. simpl.
  unfold ApiKeyGuard.canActivate, ApiKeyGuard.user_has_id.
  rewrite Hr, Hk, Ht. simpl.
  unfold try_catch, bind, apiKey_findUnique_key, user_findUnique_id.
  destruct (findBy key_key apiKey (apiKeys w)) as [key|]; [|reflexivity].
  destruct (key_revokedAt key); simpl; [reflexivity|].
  destruct (key_expiresAt key <? now); simpl; [reflexivity|].
  rewrite Ha. reflexivity.
Qed.

(** A handler whose required permission is not in the resolved set throws
    the 401 exception. *)
Lemma require_missing (request : Request) (permissions : list string)
  (requiredPermission : string) (w : World) :
  ApiKeyPermissions request = Some permissions ->
  validateApiKeyPermission permissions requiredPermission = false ->
  require request requiredPermission w =
  (Throw (UnauthorizedException
            "This api key does not have the necessary permissions to  perform this action"),
   w).
Proof.
  intros Hp Hv. unfold require, bind, field. rewrite Hp. simpl. now rewrite Hv.
Qed.

(** C8, at the point where the code departs from it.  A key with the
    permissions [read] and [deposit], known, not revoked and not expired, is
    presented to the transfer route: the gate lets it through, the handler
    finds the [transfer] permission missing before any transfer is
    attempted, and what it throws is the 401 exception
    ([UnauthorizedException]), not the 403 one ([ForbiddenException]). *)
Theorem transfer_without_permission :
  let request := Sample.request_with_key "sk_live_1" in
  let w := Sample.world_five_keys in
  option_map key_permissions (findBy key_key "sk_live_1" (apiKeys w))
    = Some ["read"; "deposit"]%string /\
  WalletController.transfer Sample.no_jwt Sample.january_31 Sample.transfer_env
    request (Sample.to_bob 3000) w =
  (Throw (UnauthorizedException
            "This api key does not have the necessary permissions to  perform this action"),
   w) /\
  forall message w',
    WalletController.transfer Sample.no_jwt Sample.january_31 Sample.transfer_env
      request (Sample.to_bob 3000) w <> (Throw (ForbiddenException message), w').
Proof.
  cbv zeta.
  assert (WalletController.transfer Sample.no_jwt Sample.january_31 Sample.transfer_env
            (Sample.request_with_key "sk_live_1") (Sample.to_bob 3000)
            Sample.world_five_keys =
          (Throw (UnauthorizedException
                    "This api key does not have the necessary permissions to  perform this action"),
           Sample.world_five_keys)) as H by (vm_compute; reflexivity).
  split; [vm_compute; reflexivity|]. split; [exact H|].
  intros message w'. rewrite H. discriminate.
Qed.

End AccessGate.

(** ** The ledger *)

Section LedgerFacts.

Import WalletService PaystackService Spec Ledger.

Lemma sum_app {A : Type} (f : A -> Z) (l1 l2 : list A) :
  sum f (l1 ++ l2) = sum f l1 + sum f l2.
Proof. induction l1 as [|a l1 IH]; simpl; [reflexivity | rewrite IH; ring]. Qed.

Lemma map_updateBy {A B : Type} (col : A -> string) (c : A -> B) (v : string)
  (f : A -> A) (rows : list A) :
  (forall r, c (f r) = c r) -> map c (updateBy col v f rows) = map c rows.
Proof.
  intros Hc. unfold updateBy. rewrite map_map. apply map_ext.
  intros r. destruct (String.eqb (col r) v); [apply Hc | reflexivity].
Qed.

Lemma In_updateBy {A : Type} (col : A -> string) (v : string) (f : A -> A)
  (rows : list A) (x' : A) :
  In x' (updateBy col v f rows) ->
  exists x, In x rows /\ x' = if String.eqb (col x) v then f x else x.
Proof.
  unfold updateBy. rewrite in_map_iff. intros (x & E & Hin). exists x. auto.
Qed.

Lemma unique_by {A : Type} (col : A -> string) (rows : list A) (x y : A) :
  NoDup (map col rows) -> In x rows -> In y rows -> col x = col y -> x = y.
Proof.
  intros Hn Hx Hy E.
  pose proof (findBy_unique col rows x Hn Hx) as Fx.
  pose proof (findBy_unique col rows y Hn Hy) as Fy.
  rewrite E in Fx. congruence.
Qed.

(** Rewriting the one row with a given key changes a column sum by the
    difference on that row. *)
Lemma sum_updateBy {A : Type} (col : A -> string) (g : A -> Z) (f : A -> A)
  (rows : list A) (r : A) :
  NoDup (map col rows) -> In r rows ->
  sum g (updateBy col (col r) f rows) = sum g rows - g r + g (f r).
Proof.
  induction rows as [|a rows IH]; intros Hn Hin; [destruct Hin|].
  simpl in Hn. inversion Hn as [|? ? Hna Hn']; subst.
  destruct Hin as [->|Hin].
  - simpl. rewrite String.eqb_refl.
    change (map _ rows) with (updateBy col (col r) f rows).
    rewrite updateBy_fresh; [ring|].
    intros r' Hr' E. apply Hna. rewrite <- E. now apply in_map.
  - simpl. destruct (String.eqb_spec (col a) (col r)) as [E|E].
    + exfalso. apply Hna. rewrite E. now apply in_map.
    + change (map _ rows) with (updateBy col (col r) f rows).
      rewrite (IH Hn' Hin). ring.
Qed.

Lemma credit_not_deposit (walletId : string) (t : Transaction) :
  tx_type t <> deposit -> credit walletId t = 0.
Proof.
  intros H. unfold credit. destruct (tx_type t); try congruence;
    simpl; now rewrite andb_false_r.
Qed.

Lemma credit_not_success (walletId : string) (t : Transaction) :
  tx_status t <> success -> credit walletId t = 0.
Proof.
  intros H. unfold credit. destruct (tx_status t); try congruence;
    simpl; now rewrite andb_false_r.
Qed.

Lemma existsb_fresh_id (data : Transaction) (ts : list Transaction) :
  existsb (transaction_clash data) ts = false ->
  ~ In (tx_id data) (map tx_id ts).
Proof.
  intros H Hin. apply in_map_iff in Hin. destruct Hin as (t & E & Hin).
  pose proof (existsb_false_forall _ _ _ H Hin) as Hc.
  unfold transaction_clash in Hc. rewrite E, String.eqb_refl in Hc. discriminate.
Qed.

(** A transfer that returns has created its two history rows under
    identifiers that were not in use. *)
Lemma transferFunds_fresh (env : TransferEnv) (senderId : string)
  (transferDto : TransferDto) (w w' : World) (r : TransferResult) :
  transferFunds env senderId transferDto w = (Ok r, w') ->
  ~ In (senderTxId env) (map tx_id (transactions w)) /\
  ~ In (recipientTxId env) (map tx_id (transactions w)) /\
  senderTxId env <> recipientTxId env.
Proof.
  unfold transferFunds, bind at 1 2 3 4, wallet_findUnique_userId,
    wallet_findUnique_walletNumber, user_findUnique_id.
  destruct (findBy wallet_userId senderId (wallets w)) as [S|] eqn:HS;
    [|intros H; inversion H].
  destruct (findBy wallet_walletNumber (wallet_number transferDto) (wallets w))
    as [R|] eqn:HR; [|intros H; inversion H].
  destruct (String.eqb_spec (wallet_userId S) (wallet_userId R)) as [E|E];
    [intros H; inversion H|].
  destruct (JsNumber.lt (wallet_balance S) (transfer_dto_amount transferDto)) eqn:Hb;
    [intros H; inversion H|].
  intros H. apply bind_Ok in H. destruct H as (u & w1 & H & Hret).
  apply transaction_block_Ok in H.
  unfold bind, wallet_update, transfer_create, transaction_create, field in H.
  destruct (findBy wallet_id (wallet_id S) (wallets w)); [|inversion H].
  cbn [wallets with_wallets] in H.
  destruct (findBy wallet_id (wallet_id R) _); [|inversion H].
  cbn [transfers with_wallets with_transfers] in H.
  destruct (existsb _ (transfers w)); [inversion H|].
  destruct (findBy user_id (wallet_userId R) (users w)) as [ru|]; [|inversion H].
  cbn [ret transactions with_wallets with_transfers with_transactions] in H.
  destruct (existsb _ (transactions w)) eqn:H1; [inversion H|].
  destruct (findBy user_id (wallet_userId S) (users w)) as [su|]; [|inversion H].
  cbn [ret transactions with_wallets with_transfers with_transactions] in H.
  destruct (existsb _ (transactions w ++ _)) eqn:H2; [inversion H|].
  apply existsb_fresh_id in H1. apply existsb_fresh_id in H2.
  cbn [tx_id] in H1, H2. rewrite map_app, in_app_iff in H2. cbn in H2.
  split; [exact H1|]. split; [tauto|]. intros E'. apply H2. right. left. exact E'.
Qed.

Lemma NoDup_snoc {A : Type} (l : list A) (a : A) :
  NoDup l -> ~ In a l -> NoDup (l ++ [a]).
Proof.
  intros Hn Ha. apply NoDup_app; [exact Hn|repeat constructor; auto|].
  intros x Hx [<-|[]]. contradiction.
Qed.

(** X1.  Every balance is the ledger of its wallet (settled deposits plus
    transfers received minus transfers sent, in whole units), and a transfer
    of a whole amount that is not negative keeps it so, whether it returns
    or throws, as long as the ledger of the recipient stays within
    [2 ^ 53 - 1]. *)
Theorem transfer_keeps_ledger (env : TransferEnv) (senderId : string)
  (transferDto : TransferDto) (w w' : World) (res : Result TransferResult) :
  consistent w ->
  whole (transfer_dto_amount transferDto) ->
  0 <= JsNumber.to_Z (transfer_dto_amount transferDto) ->
  (forall R,
      findBy wallet_walletNumber (wallet_number transferDto) (wallets w) = Some R ->
      ledger R w + JsNumber.to_Z (transfer_dto_amount transferDto)
      <= JsNumber.max_safe) ->
  transferFunds env senderId transferDto w = (res, w') ->
  consistent w'.
Proof.
  intros C [HA EA] HA0 Hroom H. destruct res as [r|e].
  2:{ apply transferFunds_Throw in H. now subst. }
  destruct (transferFunds_fresh _ _ _ _ _ _ H) as (Hf1 & Hf2 & Hf3).
  apply transferFunds_Ok in H.
  destruct H as (S & R & sn & rn & HS & HR & Hne & Hbal & _ & H).
  cbv zeta in H. destruct H as (_ & _ & _ & Hw & Htr & Htx).
  specialize (Hroom R HR).
  destruct C as [Cid Cown Ctx Cgw Cta Ctr Cbal].
  destruct (findBy_Some _ _ _ _ HS) as [HSin HSu].
  destruct (findBy_Some _ _ _ _ HR) as [HRin _].
  set (A := JsNumber.to_Z (transfer_dto_amount transferDto)) in *.
  destruct (Cbal S HSin) as [BS ES]. destruct (Cbal R HRin) as [BR ER].
  assert (A <= ledger S w) as Hcover.
  { rewrite ES, EA in Hbal. fold A in Hbal.
    rewrite lt_exact in Hbal by assumption. now apply Z.ltb_ge in Hbal. }
  assert (JsNumber.sub (wallet_balance S) (transfer_dto_amount transferDto)
          = JsNumber.of_Z (ledger S w - A)) as NS.
  { rewrite ES, EA. fold A. apply sub_exact; try assumption.
    unfold JsNumber.max_safe in *. lia. }
  assert (JsNumber.add (wallet_balance R) (transfer_dto_amount transferDto)
          = JsNumber.of_Z (ledger R w + A)) as NR.
  { rewrite ER, EA. fold A. apply add_exact; try assumption.
    unfold JsNumber.max_safe in *. lia. }
  constructor.
  - rewrite Hw, !map_updateBy by reflexivity. exact Cid.
  - rewrite Hw, !map_updateBy by reflexivity. exact Cown.
  - rewrite Htx. change [?a; ?b] with ([a] ++ [b]).
    rewrite app_assoc, !map_app. cbn [map tx_id].
    apply NoDup_snoc; [apply NoDup_snoc; assumption|].
    rewrite in_app_iff. intros [Hi|[Hi|[]]]; [contradiction|congruence].
  - rewrite Htx. intros t Hin Hp. rewrite in_app_iff in Hin.
    destruct Hin as [Hin|[<-|[<-|[]]]]; [now apply Cgw | now elim Hp | now elim Hp].
  - rewrite Htx. intros t Hin. rewrite in_app_iff in Hin.
    destruct Hin as [Hin|[<-|[<-|[]]]]; [now apply Cta | split; assumption..].
  - rewrite Htr. intros t Hin. rewrite in_app_iff in Hin.
    destruct Hin as [Hin|[<-|[]]]; [now apply Ctr | split; assumption].
  - intros x' Hin. rewrite Hw in Hin.
    apply In_updateBy in Hin. destruct Hin as (x1 & Hin & ->).
    apply In_updateBy in Hin. destruct Hin as (x & Hin & ->).
    assert (wallet_id x = wallet_id S <-> x = S) as HxS.
    { split; [apply (unique_by wallet_id (wallets w)); assumption | now intros ->]. }
    assert (wallet_id x = wallet_id R <-> x = R) as HxR.
    { split; [apply (unique_by wallet_id (wallets w)); assumption | now intros ->]. }
    assert (wallet_userId x = wallet_userId S <-> x = S) as HuS.
    { split; [apply (unique_by wallet_userId (wallets w)); assumption | now intros ->]. }
    assert (wallet_userId x = wallet_userId R <-> x = R) as HuR.
    { split; [apply (unique_by wallet_userId (wallets w)); assumption | now intros ->]. }
    pose proof (Cbal x Hin) as Hx. unfold ledger in *.
    rewrite Htx, Htr, !sum_app. cbn [sum fold_right].
    rewrite !(credit_not_deposit _ _) by (cbn; discriminate).
    unfold incoming, outgoing in Hx, Hcover, NS, NR, BS, BR, Hroom |- *.
    cbn [transfer_recipientId transfer_senderId transfer_status transfer_amount is_success].
    rewrite !andb_true_r, <- HSu. fold A.
    assert (forall v b, wallet_id (if String.eqb (wallet_id x) v then set_balance b x else x)
                        = wallet_id x) as Hid
        by (intros v b; now destruct (String.eqb _ _)).
    destruct (String.eqb_spec (wallet_id x) (wallet_id S)) as [E1|E1].
    + apply HxS in E1. subst x.
      destruct (String.eqb_spec (wallet_id (set_balance (JsNumber.sub (wallet_balance S) (transfer_dto_amount transferDto)) S)) (wallet_id R)) as [E2|E2].
      * cbn in E2. apply HxR in E2. subst R. now elim Hne.
      * cbn [wallet_id wallet_userId wallet_balance set_balance].
        rewrite String.eqb_refl.
        destruct (String.eqb_spec (wallet_userId R) (wallet_userId S)) as [E3|E3];
          [now elim Hne|].
        rewrite NS.
        match goal with |- Z.abs ?n <= _ /\ _ = JsNumber.of_Z ?m =>
          replace n with m by lia end.
        split; [unfold JsNumber.max_safe in *; lia | f_equal; lia].
    + destruct (String.eqb_spec (wallet_id x) (wallet_id R)) as [E2|E2].
      * apply HxR in E2. subst x.
        cbn [wallet_id wallet_userId wallet_balance set_balance].
        rewrite String.eqb_refl.
        destruct (String.eqb_spec (wallet_userId S) (wallet_userId R)) as [E3|E3];
          [now elim Hne|].
        rewrite NR.
        split; [unfold JsNumber.max_safe in *; lia | f_equal; lia].
      * destruct (String.eqb_spec (wallet_userId R) (wallet_userId x)) as [E3|E3];
          [symmetry in E3; apply HuR in E3; subst x; now elim E2|].
        destruct (String.eqb_spec (wallet_userId S) (wallet_userId x)) as [E4|E4];
          [symmetry in E4; apply HuS in E4; subst x; now elim E1|].
        destruct Hx as [Bx Ex]. rewrite Ex.
        split; [lia | f_equal; lia].
Qed.

Lemma consistent_same (w w' : World) :
  wallets w' = wallets w -> transactions w' = transactions w ->
  transfers w' = transfers w -> consistent w -> consistent w'.
Proof.
  intros Hw Ht Hr [Cid Cown Ctx Cgw Cta Ctr Cbal].
  constructor; unfold ledger in *; rewrite ?Hw, ?Ht, ?Hr; assumption.
Qed.

Lemma whole_of_Z (n : Z) : Z.abs n <= JsNumber.max_safe -> whole (JsNumber.of_Z n).
Proof.
  intros H. unfold whole. rewrite to_Z_of_Z by exact H. split; [exact H | reflexivity].
Qed.

Lemma funded_consistent (st : TransactionStatus) :
  st <> success -> consistent (funded_with_deposit st).
Proof.
  intros Hst. constructor; cbn [funded_with_deposit with_transactions wallets
    transactions transfers Sample.world0 map].
  - repeat constructor; cbn; intuition discriminate.
  - repeat constructor; cbn; intuition discriminate.
  - repeat constructor; cbn; intuition discriminate.
  - intros t [<-|[<-|[]]] _; reflexivity.
  - intros t [<-|[<-|[]]]; apply whole_of_Z; vm_compute; discriminate.
  - intros t [].
  - intros x [<-|[<-|[]]]; destruct st; try congruence;
      (split; [vm_compute; discriminate | reflexivity]).
Qed.

Lemma transfer_keeps_ledger_witness :
  consistent (funded_with_deposit pending) /\
  consistent (snd (transferFunds Sample.transfer_env "user_a" (Sample.to_bob 3000)
                     (funded_with_deposit pending))).
Proof.
  assert (consistent (funded_with_deposit pending)) as C
      by (apply funded_consistent; discriminate).
  split; [exact C|].
  eapply (transfer_keeps_ledger Sample.transfer_env "user_a" (Sample.to_bob 3000)
            (funded_with_deposit pending));
    [exact C | apply whole_of_Z; vm_compute; discriminate | vm_compute; discriminate
     | | apply surjective_pairing].
  intros R HR.
  assert (Some R = Some Sample.walletB) as E by (rewrite <- HR; reflexivity).
  injection E as ->. vm_compute. discriminate.
Defined.

(** X2.  The webhook keeps every balance equal to the ledger of its wallet,
    as long as the ledgers stay within [2 ^ 53 - 1]: when it settles a
    deposit, the credited wallet is the one the row is booked on and the
    amount is the amount of the row; in every other case it writes
    nothing. *)
Theorem webhook_keeps_ledger (paystackService : PaystackService.t)
  (event : JSON.json) (signature : string) (w w' : World)
  (res : Result Acknowledgement) :
  consistent w ->
  handlePaystackWebhook paystackService event signature w = (res, w') ->
  (forall x, In x (wallets w') -> Z.abs (ledger x w') <= JsNumber.max_safe) ->
  consistent w'.
Proof.
  intros C H Hsafe.
  destruct (webhook_cases paystackService event signature w)
    as [(e & He)|[Ho|(r & tx & wl & Hv & Hcs & Hf & Hs & Hwl & Hset)]].
  - rewrite He in H. inversion H; subst. exact C.
  - rewrite Ho in H. inversion H; subst. exact C.
  - rewrite Hset in H. inversion H; subst w' res. clear H Hset.
    destruct C as [Cid Cown Ctx Cgw Cta Ctr Cbal].
    unfold by_paystackRef in Hf. apply find_some in Hf. destruct Hf as [Htin Href].
    assert (tx_type tx = deposit) as Hty.
    { apply Cgw; [exact Htin|]. intros E. rewrite E in Href. discriminate. }
    destruct (findBy_Some _ _ _ _ Hwl) as [Hwin Hwid].
    constructor; unfold settled in *;
      cbn [wallets transactions transfers with_wallets with_transactions] in *.
    + rewrite map_updateBy by reflexivity. exact Cid.
    + rewrite map_updateBy by reflexivity. exact Cown.
    + rewrite map_updateBy by reflexivity. exact Ctx.
    + intros t' Hin Hp. apply In_updateBy in Hin. destruct Hin as (t & Hin & ->).
      destruct (String.eqb (tx_id t) (tx_id tx)); [|now apply Cgw].
      cbn in Hp |- *. now apply Cgw.
    + intros t' Hin. apply In_updateBy in Hin. destruct Hin as (t & Hin & ->).
      destruct (String.eqb (tx_id t) (tx_id tx)); cbn [tx_amount set_status];
        now apply Cta.
    + exact Ctr.
    + intros x' Hin. split; [now apply Hsafe|].
      pose proof (Hsafe x' Hin) as Bx'.
      apply In_updateBy in Hin. destruct Hin as (x & Hin & ->).
      destruct (Cbal x Hin) as [Bx Ex]. destruct (Cta tx Htin) as [Ba Ea].
      unfold ledger in Bx, Ex, Bx' |- *.
      cbn [wallets transactions transfers with_wallets with_transactions] in *.
      assert (forall b, wallet_id (if String.eqb (wallet_id x) (wallet_id wl)
                                   then set_balance b x else x) = wallet_id x) as Hid
          by (intros b; now destruct (String.eqb _ _)).
      assert (forall b, wallet_userId (if String.eqb (wallet_id x) (wallet_id wl)
                                       then set_balance b x else x) = wallet_userId x)
        as Hu by (intros b; now destruct (String.eqb _ _)).
      rewrite Hid, Hu, (sum_updateBy tx_id _ _ _ tx Ctx Htin) in Bx' |- *.
      rewrite (credit_not_success _ tx Hs) in Bx' |- *.
      unfold credit at 2. unfold credit at 2 in Bx'.
      cbn [tx_walletId tx_type tx_status tx_amount set_status] in Bx' |- *.
      rewrite Hty in Bx' |- *. cbn [is_deposit is_success] in Bx' |- *.
      rewrite !andb_true_r, <- Hwid in Bx' |- *.
      destruct (String.eqb_spec (wallet_id x) (wallet_id wl)) as [E|E].
      * assert (x = wl) as -> by (apply (unique_by wallet_id (wallets w)); assumption).
        rewrite String.eqb_refl in Bx' |- *. cbn [wallet_balance set_balance].
        set (a := JsNumber.to_Z (tx_amount tx)) in *.
        rewrite Ex, Ea, add_exact; [f_equal; lia | exact Bx | exact Ba |].
        eapply Z.le_trans; [|exact Bx'].
        apply Z.eq_le_incl. f_equal. lia.
      * destruct (String.eqb_spec (wallet_id wl) (wallet_id x)) as [E'|E'];
          [now elim E|].
        rewrite Ex. f_equal. lia.
Qed.

Lemma sample_notification_settles :
  handlePaystackWebhook Sample.paystack Sample.notification
    Sample.notification_signature (funded_with_deposit pending)
  = (Ok acknowledgement,
     settled (Sample.deposit_tx pending) Sample.walletA (funded_with_deposit pending)).
Proof. vm_compute. reflexivity. Qed.

Lemma webhook_keeps_ledger_witness :
  consistent (funded_with_deposit pending) /\
  consistent (settled (Sample.deposit_tx pending) Sample.walletA
                (funded_with_deposit pending)).
Proof.
  assert (consistent (funded_with_deposit pending)) as C
      by (apply funded_consistent; discriminate).
  split; [exact C|].
  eapply (webhook_keeps_ledger Sample.paystack Sample.notification
            Sample.notification_signature (funded_with_deposit pending));
    [exact C | exact sample_notification_settles |].
  intros x [<-|[<-|[]]]; vm_compute; discriminate.
Defined.

End LedgerFacts.

Section LedgerOperations.

Import WalletService PaystackService Spec Ledger.

(** X3.  How [initializeDeposit] fails: without a wallet, or without the
    owner's row, before anything is sent; or after the request has gone to
    the gateway, because the gateway refused or could not be reached (500,
    one message for every cause) or because the new row repeats an
    identifier or a reference.  In the last two cases the request is on
    record at the gateway and no transaction row has been written. *)
Theorem initializeDeposit_failure (paystackService : PaystackService.t)
  (env : DepositEnv) (userId : string) (depositDto : CreateDepositDto)
  (w w' : World) (e : Exception) :
  initializeDeposit paystackService env userId depositDto w = (Throw e, w') ->
  (w' = w /\
   (e = NotFoundException "Wallet not found" /\
    findBy wallet_userId userId (wallets w) = None
    \/ e = TypeError)) \/
  (exists request,
      w' = with_gateway_requests (gateway_requests w ++ [request]) w /\
      req_reference request =
        "wallet_" +++ userId +++ "_" +++ Js.string_of_Z (deposit_now env)
        +++ "_" +++ Crypto.toHex (Crypto.octets (deposit_random env)) /\
      req_amount request =
        JsNumber.Math_round
          (JsNumber.mul (deposit_amount depositDto) (JsNumber.of_Z 100)) /\
      (e = InternalServerErrorException
             "Failed to initialize payment. Please try again."
       \/ e = unique_violation)).
Proof.
  unfold initializeDeposit, bind at 1 2, wallet_findUnique_userId, user_findUnique_id.
  destruct (findBy wallet_userId userId (wallets w)) as [wallet|] eqn:Hw.
  2:{ intros H. inversion H; subst. left. auto. }
  destruct (findBy user_id (wallet_userId wallet) (users w)) as [user|] eqn:Hu.
  2:{ intros H. inversion H; subst. left. auto. }
  unfold bind, field, ret, initializeTransaction, try_catch, throw, transaction_create.
  intros H. right. eexists.
  destruct (post_transaction_initialize paystackService _) as [|st message [d|]].
  - inversion H; subst. repeat split; auto.
  - destruct st; cbn in H.
    + destruct (existsb _ _); inversion H; subst. repeat split; auto.
    + inversion H; subst. repeat split; auto.
  - destruct st; cbn in H; inversion H; subst; repeat split; auto.
Qed.

(** With the gateway out of reach: the request for 5000 is on record, for
    the amount 500000, and nothing else has changed. *)
Lemma initializeDeposit_failure_witness :
  exists request,
    snd (initializeDeposit Notions.gateway_down Sample.deposit_env "user_a"
           {| deposit_amount := JsNumber.of_Z 5000 |} Sample.world0)
    = with_gateway_requests (gateway_requests Sample.world0 ++ [request]) Sample.world0 /\
    req_amount request = JsNumber.of_Z 500000.
Proof.
  pose (r := initializeDeposit Notions.gateway_down Sample.deposit_env "user_a"
               {| deposit_amount := JsNumber.of_Z 5000 |} Sample.world0).
  assert (r = (Throw (InternalServerErrorException
                        "Failed to initialize payment. Please try again."), snd r)) as E
      by (vm_compute; reflexivity).
  destruct (initializeDeposit_failure Notions.gateway_down Sample.deposit_env "user_a"
              {| deposit_amount := JsNumber.of_Z 5000 |} Sample.world0 (snd r) _ E)
    as [[Hw _] | (request & Hw & _ & Ha & _)].
  - exfalso. apply (f_equal (fun w => List.length (gateway_requests w))) in Hw.
    vm_compute in Hw. discriminate Hw.
  - exists request. split; [exact Hw|]. rewrite Ha. reflexivity.
Defined.

(** X4.  Initiating a deposit credits nothing: whatever the outcome, the
    wallet table and the transfer table are as they were, and so is the sum
    of the balances.  It also keeps every balance equal to the ledger of its
    wallet when the amount is whole: the row it may add is a pending
    deposit, which the ledger does not count. *)
Theorem deposit_keeps_ledger (paystackService : PaystackService.t)
  (env : DepositEnv) (userId : string) (depositDto : CreateDepositDto)
  (w w' : World) (res : Result DepositResult) :
  initializeDeposit paystackService env userId depositDto w = (res, w') ->
  wallets w' = wallets w /\ transfers w' = transfers w /\
  total_balance w' = total_balance w /\
  (consistent w -> whole (deposit_amount depositDto) -> consistent w').
Proof.
  intros H. destruct res as [r|e].
  - apply initializeDeposit_Ok in H.
    destruct H as (wallet & user & message & d & _ & _ & H).
    cbv zeta in H. destruct H as (_ & Hc & _ & ->).
    split; [reflexivity|]. split; [reflexivity|]. split; [reflexivity|].
    intros C HN.
    destruct C as [Cid Cown Ctx Cgw Cta Ctr Cbal].
    constructor; cbn [wallets transactions transfers with_transactions
                        with_gateway_requests]; auto.
    + rewrite map_app. apply NoDup_snoc; [exact Ctx|].
      apply existsb_fresh_id in Hc. exact Hc.
    + intros t Hin Hp. rewrite in_app_iff in Hin.
      destruct Hin as [Hin|[<-|[]]]; [now apply Cgw|reflexivity].
    + intros t Hin. rewrite in_app_iff in Hin.
      destruct Hin as [Hin|[<-|[]]]; [now apply Cta | exact HN].
    + intros x Hin. destruct (Cbal x Hin) as [Bx Ex]. rewrite Ex.
      unfold ledger in *.
      cbn [wallets transactions transfers with_transactions with_gateway_requests].
      rewrite sum_app. cbn [sum fold_right].
      rewrite (credit_not_success _ _) by (cbn; discriminate).
      split; [|f_equal]; lia.
  - apply initializeDeposit_Throw in H.
    destruct H as [-> | (request & ->)]; [auto|].
    split; [reflexivity|]. split; [reflexivity|]. split; [reflexivity|].
    intros C _. now apply (consistent_same w).
Qed.

Lemma funded_is_consistent : consistent Ledger.funded.
Proof.
  constructor; cbn [funded with_transactions wallets transactions transfers
    Sample.world0 map].
  - repeat constructor; cbn; intuition discriminate.
  - repeat constructor; cbn; intuition discriminate.
  - repeat constructor; cbn; intuition discriminate.
  - intros t [<-|[]] _; reflexivity.
  - intros t [<-|[]]; apply whole_of_Z; vm_compute; discriminate.
  - intros t [].
  - intros x [<-|[<-|[]]]; (split; [vm_compute; discriminate | reflexivity]).
Qed.

Lemma deposit_keeps_ledger_witness :
  consistent Ledger.funded /\
  consistent (snd (initializeDeposit Sample.paystack Sample.deposit_env "user_a"
                     {| deposit_amount := JsNumber.of_Z 5000 |} Ledger.funded)) /\
  map tx_status (transactions
                   (snd (initializeDeposit Sample.paystack Sample.deposit_env "user_a"
                           {| deposit_amount := JsNumber.of_Z 5000 |} Ledger.funded)))
  = [success; pending].
Proof.
  pose proof funded_is_consistent as C.
  split; [exact C|]. split; [|vm_compute; reflexivity].
  eapply (deposit_keeps_ledger Sample.paystack Sample.deposit_env "user_a"
            {| deposit_amount := JsNumber.of_Z 5000 |} Ledger.funded);
    [apply surjective_pairing | exact C | apply whole_of_Z; vm_compute; discriminate].
Defined.

(** X5.  A transfer neither creates nor destroys money: when the balances
    and the amount are whole, the amount is not negative and the recipient's
    balance plus the amount stays within [2 ^ 53 - 1], the sum of all
    balances is the same before and after, whether the transfer returns or
    throws. *)
Theorem transfer_conserves_total (env : TransferEnv) (senderId : string)
  (transferDto : TransferDto) (w w' : World) (res : Result TransferResult) :
  NoDup (map wallet_id (wallets w)) ->
  (forall x, In x (wallets w) -> whole (wallet_balance x)) ->
  whole (transfer_dto_amount transferDto) ->
  0 <= JsNumber.to_Z (transfer_dto_amount transferDto) ->
  (forall R,
      findBy wallet_walletNumber (wallet_number transferDto) (wallets w) = Some R ->
      JsNumber.to_Z (wallet_balance R) + JsNumber.to_Z (transfer_dto_amount transferDto)
      <= JsNumber.max_safe) ->
  transferFunds env senderId transferDto w = (res, w') ->
  total_balance w' = total_balance w.
Proof.
  intros Hn Hwhole [HA EA] HA0 Hroom H. destruct res as [r|e].
  2:{ apply transferFunds_Throw in H. now subst. }
  apply transferFunds_Ok in H.
  destruct H as (S & R & sn & rn & HS & HR & Hne & Hbal & _ & H).
  cbv zeta in H. destruct H as (_ & _ & _ & Hw & _).
  specialize (Hroom R HR).
  destruct (findBy_Some _ _ _ _ HS) as [HSin _].
  destruct (findBy_Some _ _ _ _ HR) as [HRin _].
  destruct (Hwhole S HSin) as [BS ES]. destruct (Hwhole R HRin) as [BR ER].
  set (A := JsNumber.to_Z (transfer_dto_amount transferDto)) in *.
  set (s := JsNumber.to_Z (wallet_balance S)) in *.
  set (b := JsNumber.to_Z (wallet_balance R)) in *.
  assert (A <= s) as Hcover.
  { rewrite ES, EA in Hbal. rewrite lt_exact in Hbal by assumption.
    now apply Z.ltb_ge in Hbal. }
  assert (JsNumber.to_Z (JsNumber.sub (wallet_balance S) (transfer_dto_amount transferDto))
          = s - A) as NS.
  { rewrite ES, EA, sub_exact, to_Z_of_Z; try assumption; try reflexivity;
      unfold JsNumber.max_safe in *; lia. }
  assert (JsNumber.to_Z (JsNumber.add (wallet_balance R) (transfer_dto_amount transferDto))
          = b + A) as NR.
  { rewrite ER, EA, add_exact, to_Z_of_Z; try assumption; try reflexivity;
      unfold JsNumber.max_safe in *; lia. }
  assert (wallet_id R <> wallet_id S) as Hid.
  { intros E. apply Hne. f_equal. symmetry.
    now apply (unique_by wallet_id (wallets w)). }
  unfold total_balance. rewrite Hw.
  rewrite (sum_updateBy wallet_id (fun x => JsNumber.to_Z (wallet_balance x)) _ _ R).
  - rewrite (sum_updateBy wallet_id (fun x => JsNumber.to_Z (wallet_balance x))
               _ _ S Hn HSin).
    cbn [wallet_balance set_balance]. rewrite NS, NR. fold s. fold b. ring.
  - rewrite map_updateBy by reflexivity. exact Hn.
  - now apply updateBy_other.
Qed.

Lemma transfer_conserves_total_witness :
  total_balance Sample.world0 = 10000 /\
  total_balance (snd (transferFunds Sample.transfer_env "user_a" (Sample.to_bob 3000)
                        Sample.world0)) = 10000 /\
  map (fun x => JsNumber.to_Z (wallet_balance x))
    (wallets (snd (transferFunds Sample.transfer_env "user_a" (Sample.to_bob 3000)
                     Sample.world0))) = [7000; 3000].
Proof.
  split; [reflexivity|]. split; [|vm_compute; reflexivity].
  change 10000 with (total_balance Sample.world0).
  eapply (transfer_conserves_total Sample.transfer_env "user_a" (Sample.to_bob 3000)
            Sample.world0); [| | | | |apply surjective_pairing].
  - repeat constructor; cbn; intuition discriminate.
  - intros x [<-|[<-|[]]]; apply whole_of_Z; vm_compute; discriminate.
  - apply whole_of_Z; vm_compute; discriminate.
  - vm_compute; discriminate.
  - intros R HR.
    assert (Some R = Some Sample.walletB) as E by (rewrite <- HR; reflexivity).
    injection E as ->. vm_compute. discriminate.
Defined.

(** X6.  No overdraft: if no balance is negative and the amount is a finite
    Number that is not negative, no balance is negative after the
    transfer. *)
Theorem transfer_no_overdraft (env : TransferEnv) (senderId : string)
  (transferDto : TransferDto) (w w' : World) (res : Result TransferResult) :
  (forall x, In x (wallets w) -> JsNumber.le JsNumber.zero (wallet_balance x) = true) ->
  JsNumber.le JsNumber.zero (transfer_dto_amount transferDto) = true ->
  JsNumber.is_finite (transfer_dto_amount transferDto) = true ->
  transferFunds env senderId transferDto w = (res, w') ->
  forall x, In x (wallets w') -> JsNumber.le JsNumber.zero (wallet_balance x) = true.
Proof.
  intros Hpos Ha Hfin H. destruct res as [r|e].
  2:{ apply transferFunds_Throw in H. now subst. }
  apply transferFunds_Ok in H.
  destruct H as (S & R & sn & rn & HS & HR & Hne & Hbal & _ & H).
  cbv zeta in H. destruct H as (_ & _ & _ & Hw & _).
  destruct (findBy_Some _ _ _ _ HS) as [HSin _].
  destruct (findBy_Some _ _ _ _ HR) as [HRin _].
  pose proof (Hpos R HRin) as HposR. pose proof (Hpos S HSin) as HposS.
  pose proof (sub_nonneg _ _ HposS Ha Hfin Hbal) as NS.
  pose proof (add_nonneg _ _ HposR Ha) as NR.
  intros x' Hin. rewrite Hw in Hin.
  apply In_updateBy in Hin. destruct Hin as (x1 & Hin & ->).
  apply In_updateBy in Hin. destruct Hin as (x & Hin & ->).
  pose proof (Hpos x Hin) as Hx.
  destruct (String.eqb (wallet_id x) (wallet_id S));
    match goal with |- context [String.eqb ?a ?b] => destruct (String.eqb a b) end;
    cbn [wallet_balance set_balance]; assumption.
Qed.

Lemma transfer_no_overdraft_witness :
  Forall (fun x => JsNumber.le JsNumber.zero (wallet_balance x) = true)
    (wallets (snd (transferFunds Sample.transfer_env "user_a"
                     (Sample.to_bob 10000) Sample.world0))).
Proof.
  apply Forall_forall.
  eapply (transfer_no_overdraft Sample.transfer_env "user_a" (Sample.to_bob 10000)
            Sample.world0); [| | |apply surjective_pairing].
  - intros x [<-|[<-|[]]]; reflexivity.
  - reflexivity.
  - reflexivity.
Defined.

(** X7.  The wallet service never creates or removes a wallet and never
    changes the identifier, the owner or the number of one: a transfer, a
    webhook notification and the initiation of a deposit leave the
    identities of the wallets as they were, in the same order. *)
Theorem wallet_identities_kept (w w' : World) :
  (forall env senderId transferDto res,
      transferFunds env senderId transferDto w = (res, w') ->
      map identity (wallets w') = map identity (wallets w)) /\
  (forall paystackService event signature res,
      handlePaystackWebhook paystackService event signature w = (res, w') ->
      map identity (wallets w') = map identity (wallets w)) /\
  (forall paystackService env userId depositDto res,
      initializeDeposit paystackService env userId depositDto w = (res, w') ->
      wallets w' = wallets w).
Proof.
  split; [|split].
  - intros env senderId transferDto [r|e] H.
    + apply transferFunds_Ok in H.
      destruct H as (S & R & sn & rn & _ & _ & _ & _ & _ & H).
      cbv zeta in H. destruct H as (_ & _ & _ & -> & _).
      now rewrite !map_updateBy by reflexivity.
    + apply transferFunds_Throw in H. now subst.
  - intros paystackService event signature res H.
    destruct (webhook_cases paystackService event signature w)
      as [(e & He)|[Ho|(r & tx & wl & _ & _ & _ & _ & _ & Hset)]].
    + rewrite He in H. inversion H; now subst.
    + rewrite Ho in H. inversion H; now subst.
    + rewrite Hset in H. inversion H; subst w' res. unfold settled.
      cbn [wallets with_wallets]. now rewrite map_updateBy by reflexivity.
  - intros paystackService env userId depositDto [r|e] H.
    + apply initializeDeposit_Ok in H.
      destruct H as (wallet & user & message & d & _ & _ & H).
      cbv zeta in H. destruct H as (_ & _ & _ & ->). reflexivity.
    + apply initializeDeposit_Throw in H.
      destruct H as [-> | (request & ->)]; reflexivity.
Qed.

Lemma wallet_identities_kept_witness :
  map identity
    (wallets (snd (transferFunds Sample.transfer_env "user_a" (Sample.to_bob 3000)
                     Sample.world0)))
  = [("wallet_a", "user_a", "4566678954356"); ("wallet_b", "user_b", "1234567890123")]%string.
Proof.
  change [("wallet_a", "user_a", "4566678954356");
          ("wallet_b", "user_b", "1234567890123")]%string
    with (map identity (wallets Sample.world0)).
  eapply (proj1 (wallet_identities_kept Sample.world0 _)).
  apply surjective_pairing.
Defined.

End LedgerOperations.

(** ** References and keys *)

Section References.

Import WalletService PaystackService Spec.

(** X8.  The reference of a deposit tells who initiated it, when, and with
    which random octets: two initiations that return the same reference were
    made for the same user, at the same millisecond, with the same octets.
    References of different users, or of one user at different
    milliseconds, never coincide. *)
Theorem deposit_reference_determines (ps1 ps2 : PaystackService.t)
  (env1 env2 : DepositEnv) (user1 user2 : string) (dto1 dto2 : CreateDepositDto)
  (w1 w2 w1' w2' : World) (res1 res2 : DepositResult) :
  initializeDeposit ps1 env1 user1 dto1 w1 = (Ok res1, w1') ->
  initializeDeposit ps2 env2 user2 dto2 w2 = (Ok res2, w2') ->
  reference res1 = reference res2 ->
  user1 = user2 /\ deposit_now env1 = deposit_now env2 /\
  deposit_random env1 = deposit_random env2.
Proof.
  intros H1 H2 E.
  apply initializeDeposit_Ok in H1. destruct H1 as (? & ? & ? & ? & _ & _ & H1).
  apply initializeDeposit_Ok in H2. destruct H2 as (? & ? & ? & ? & _ & _ & H2).
  cbv zeta in H1, H2.
  destruct H1 as (_ & _ & -> & _). destruct H2 as (_ & _ & -> & _).
  cbn [reference] in E.
  change ("wallet_" +++ user1 +++ "_" +++ Js.string_of_Z (deposit_now env1) +++ "_"
          +++ Crypto.toHex (Crypto.octets (deposit_random env1)))
    with (("wallet_" +++ user1) +++ "_" +++ Js.string_of_Z (deposit_now env1) +++ "_"
          +++ Crypto.toHex (Crypto.octets (deposit_random env1))) in E.
  change ("wallet_" +++ user2 +++ "_" +++ Js.string_of_Z (deposit_now env2) +++ "_"
          +++ Crypto.toHex (Crypto.octets (deposit_random env2)))
    with (("wallet_" +++ user2) +++ "_" +++ Js.string_of_Z (deposit_now env2) +++ "_"
          +++ Crypto.toHex (Crypto.octets (deposit_random env2))) in E.
  apply reference_inj in E. destruct E as (Hp & Ht & Hr).
  apply append_inj_l in Hp. auto.
Qed.

Lemma deposit_reference_determines_witness :
  "user_a"%string = "user_a"%string /\
  deposit_now Sample.deposit_env = deposit_now Sample.deposit_env /\
  deposit_random Sample.deposit_env = deposit_random Sample.deposit_env.
Proof.
  apply (deposit_reference_determines Sample.paystack Sample.paystack
           Sample.deposit_env Sample.deposit_env "user_a" "user_a"
           {| deposit_amount := JsNumber.of_Z 5000 |} {| deposit_amount := JsNumber.of_Z 7000 |}
           Sample.world0 Ledger.funded
           (snd (initializeDeposit Sample.paystack Sample.deposit_env "user_a"
                   {| deposit_amount := JsNumber.of_Z 5000 |} Sample.world0))
           (snd (initializeDeposit Sample.paystack Sample.deposit_env "user_a"
                   {| deposit_amount := JsNumber.of_Z 7000 |} Ledger.funded))
           {| reference := "wallet_user_a_1704099600000_a1b2c3d4";
              authorization_url := "https://checkout.paystack.com/0peioxfhpn" |}
           {| reference := "wallet_user_a_1704099600000_a1b2c3d4";
              authorization_url := "https://checkout.paystack.com/0peioxfhpn" |});
    reflexivity.
Defined.

End References.

(** ** API keys: creation, revocation, rollover and the gate *)

Section KeyLifeCycle.

Import ApiKeyService Spec Notions.

Lemma generateApiKey_inj (r s : list Byte.byte) :
  generateApiKey r = generateApiKey s -> r = s.
Proof.
  unfold generateApiKey. intros H. apply append_inj_l in H.
  now apply toHex_octets_inj.
Qed.

(** X9.  An API key is the text [sk_live_] followed by two hexadecimal
    digits for each random octet, and it determines the octets: two keys
    are the same text only if the same octets were drawn. *)
Theorem generateApiKey_shape (r s : list Byte.byte) :
  Js.startsWith (generateApiKey r) "sk_live_" = true /\
  String.length (generateApiKey r) = (8 + 2 * List.length r)%nat /\
  (generateApiKey r = generateApiKey s -> r = s).
Proof.
  split; [|split; [|apply generateApiKey_inj]].
  { unfold generateApiKey, Js.startsWith. cbn.
    now destruct (Crypto.toHex (Crypto.octets r)). }
  unfold generateApiKey. rewrite append_length, toHex_length.
  unfold Crypto.octets. rewrite length_map. reflexivity.
Qed.

Lemma generateApiKey_shape_witness :
  String.length (generateApiKey (key_random Sample.key_env)) = 72%nat /\
  (generateApiKey (key_random Sample.key_env) =
   generateApiKey (key_random Sample.key_env) ->
   key_random Sample.key_env = key_random Sample.key_env).
Proof.
  split.
  - exact (proj1 (proj2 (generateApiKey_shape (key_random Sample.key_env)
                           (key_random Sample.key_env)))).
  - exact (proj2 (proj2 (generateApiKey_shape (key_random Sample.key_env)
                           (key_random Sample.key_env)))).
Defined.

(** What a creation that returns has done. *)
Lemma createApiKey_Ok (LocalTZA : Z -> bool -> Z) (env : KeyEnv) (userId : string)
  (createApiKeyDto : CreateApiKeyDto) (w w' : World) (res : ApiKeyResult) :
  createApiKey LocalTZA env userId createApiKeyDto w = (Ok res, w') ->
  exists expiresAt,
    let newKey :=
      {| key_id := new_key_id env;
         key_userId := userId;
         key_name := name createApiKeyDto;
         key_key := generateApiKey (key_random env);
         key_permissions := permissions createApiKeyDto;
         key_expiresAt := expiresAt;
         key_revokedAt := None;
         key_rolledOverAt := None;
         key_rolledOverFrom := None |} in
    calculateExpireTime LocalTZA (now_expiry env) (expiry createApiKeyDto) = Ok expiresAt /\
    (active_keys userId (now_check env) w < 5)%nat /\
    existsb (apiKey_clash newKey) (apiKeys w) = false /\
    res = {| api_key := generateApiKey (key_random env);
             expires_at := expiresAt;
             result_name := name createApiKeyDto;
             result_permissions := permissions createApiKeyDto |} /\
    w' = with_apiKeys (apiKeys w ++ [newKey]) w.
Proof.
  unfold createApiKey, try_catch, bind, apiKey_count, MAX_ACTIVE_KEYS, lift,
    apiKey_create, active_keys.
  destruct (Z.leb_spec 5 (Z.of_nat (List.length
              (filter (active_for userId (now_check env)) (apiKeys w))))) as [Hc|Hc];
    [intros H; inversion H|].
  destruct (calculateExpireTime LocalTZA (now_expiry env) (expiry createApiKeyDto))
    as [t|e] eqn:Ht.
  2:{ destruct e; intros H; inversion H. }
  destruct (existsb _ (apiKeys w)) eqn:Hx; [intros H; inversion H|].
  intros H. inversion H; subst. exists t. cbv zeta.
  repeat split; auto. lia.
Qed.

(** X10.  Whatever goes wrong in [createApiKey] reaches the caller as a 400
    exception and nothing is written: the limit of five active keys, an
    expiry that is not one of the four units, and a new row that repeats an
    identifier or a key, each with its message. *)
Theorem createApiKey_failure (LocalTZA : Z -> bool -> Z) (env : KeyEnv) (userId : string)
  (createApiKeyDto : CreateApiKeyDto) (w w' : World) (e : Exception) :
  createApiKey LocalTZA env userId createApiKeyDto w = (Throw e, w') ->
  w' = w /\
  (e = BadRequestException "Maximum of 5 active API keys allowed" /\
   (5 <= active_keys userId (now_check env) w)%nat
   \/
   e = BadRequestException "Invalid expiry unit" /\
   ~ In (expiry createApiKeyDto) units
   \/
   e = BadRequestException "Failed to create API key" /\
   exists k, In k (apiKeys w) /\
             (key_id k = new_key_id env \/
              key_key k = generateApiKey (key_random env))).
Proof.
  unfold createApiKey, try_catch, bind, apiKey_count, MAX_ACTIVE_KEYS, lift,
    apiKey_create, active_keys.
  destruct (Z.leb_spec 5 (Z.of_nat (List.length
              (filter (active_for userId (now_check env)) (apiKeys w))))) as [Hc|Hc].
  { intros H. inversion H; subst. split; [reflexivity|]. left. split; [reflexivity|lia]. }
  unfold calculateExpireTime.
  destruct (String.eqb_spec (expiry createApiKeyDto) "1H") as [E1|E1];
    [|destruct (String.eqb_spec (expiry createApiKeyDto) "1D") as [E2|E2];
      [|destruct (String.eqb_spec (expiry createApiKeyDto) "1M") as [E3|E3];
        [|destruct (String.eqb_spec (expiry createApiKeyDto) "1Y") as [E4|E4]]]].
  5:{ intros H. inversion H; subst. split; [reflexivity|]. right. left.
      split; [reflexivity|]. unfold units. simpl. intuition congruence. }
  all: destruct (existsb _ (apiKeys w)) eqn:Hx; intros H; inversion H; subst;
    (split; [reflexivity|]); right; right; (split; [reflexivity|]);
    apply existsb_exists in Hx; destruct Hx as (k & Hin & Hk);
    exists k; (split; [exact Hin|]);
    unfold apiKey_clash in Hk; apply orb_true_iff in Hk;
    cbn [key_id key_key] in Hk;
    destruct Hk as [Hk|Hk]; apply String.eqb_eq in Hk; auto.
Qed.

Lemma createApiKey_failure_witness :
  Sample.world_five_keys = Sample.world_five_keys /\
  (BadRequestException "Maximum of 5 active API keys allowed"
   = BadRequestException "Maximum of 5 active API keys allowed" /\
   (5 <= active_keys "user_a" (now_check Sample.key_env) Sample.world_five_keys)%nat
   \/
   BadRequestException "Maximum of 5 active API keys allowed"
   = BadRequestException "Invalid expiry unit" /\
   ~ In (expiry Sample.new_key_dto) units
   \/
   BadRequestException "Maximum of 5 active API keys allowed"
   = BadRequestException "Failed to create API key" /\
   exists k, In k (apiKeys Sample.world_five_keys) /\
             (key_id k = new_key_id Sample.key_env \/
              key_key k = generateApiKey (key_random Sample.key_env))).
Proof.
  apply (createApiKey_failure Sample.utc Sample.key_env "user_a" Sample.new_key_dto
           Sample.world_five_keys Sample.world_five_keys).
  reflexivity.
Defined.

End KeyLifeCycle.

Section ExpiryOrder.

Import JsDate ApiKeyService Spec.

(** [new Date] on the local fields of [now] with another year and month:
    the local time it stands for, as a distance from the local time of
    [now]. *)
Lemma local_time_of_value (nl y m : Z) :
  100 <= y ->
  local_time_of y m (DateFromTime nl) (HourFromTime nl) (MinFromTime nl) (SecFromTime nl)
  = nl + (MakeDay y m (DateFromTime nl) - Day nl) * msPerDay - msFromTime nl.
Proof.
  intros Hy. unfold local_time_of, full_year.
  replace ((0 <=? y) && (y <=? 99))%bool with false
    by (symmetry; apply andb_false_iff; right; apply Z.leb_gt; lia).
  rewrite time_of_day. unfold MakeDate, TimeWithinDay, Day, msFromTime, msPerDay.
  Z.div_mod_to_equations; lia.
Qed.

Lemma MakeDay_next_year (y m dt : Z) :
  0 <= m <= 11 -> 365 <= MakeDay (y + 1) m dt - MakeDay y m dt <= 366.
Proof.
  intros Hm. rewrite !MakeDay_in_range by exact Hm.
  rewrite DayFromYear_next. unfold DaysInYear.
  pattern m. apply month_cases; [..|exact Hm];
    destruct (InLeapYear y) eqn:L1, (InLeapYear (y + 1)) eqn:L2;
    eval_monthStart; try lia;
    exfalso; unfold InLeapYear in L1, L2;
    destruct (Z.eqb_spec (y mod 4) 0), (Z.eqb_spec ((y + 1) mod 4) 0);
    cbn in L1, L2; try discriminate; Z.div_mod_to_equations; lia.
Qed.

(** X11.  The four expiry units are ordered and every expiry is in the
    future, on a host whose local clock is not before 1970 and whose zone
    offsets differ by a day at most: an hour and a day are fixed lengths; a
    month is the number of days of the current local month (28 to 31) less
    the milliseconds of the current second, shifted by the difference
    between the zone offset now and the offset at the expiry; a year is 365
    or 366 days less those milliseconds, shifted likewise.  Where the offset
    never changes there is no shift. *)
Theorem expiry_order (LocalTZA : Z -> bool -> Z) (now : Z) :
  (forall t u b c, Z.abs (LocalTZA t b - LocalTZA u c) <= msPerDay) ->
  0 <= LocalTime LocalTZA now ->
  exists h d m y,
    calculateExpireTime LocalTZA now "1H" = Ok h /\
    calculateExpireTime LocalTZA now "1D" = Ok d /\
    calculateExpireTime LocalTZA now "1M" = Ok m /\
    calculateExpireTime LocalTZA now "1Y" = Ok y /\
    now < h /\ h < d /\ d < m /\ m < y /\
    (exists shift,
        Z.abs shift <= msPerDay /\
        ((forall t u b c, LocalTZA t b = LocalTZA u c) -> shift = 0) /\
        m = now
            + DaysInMonth (getFullYear LocalTZA now) (getMonth LocalTZA now) * msPerDay
            - getMilliseconds LocalTZA now + shift) /\
    now + 27 * msPerDay - 1000 < m <= now + 32 * msPerDay /\
    now + 364 * msPerDay - 1000 < y <= now + 367 * msPerDay.
Proof.
  intros Hz Hnow.
  set (nl := LocalTime LocalTZA now) in *.
  pose proof (year_from_1970 nl Hnow) as Hy.
  destruct (day_of_fields nl) as (Hm & Hd & HD).
  pose proof (DaysInMonth_bounds (YearFromTime nl) _ Hm) as B.
  pose proof (MakeDay_next_year (YearFromTime nl) _ (DateFromTime nl) Hm) as By.
  pose proof (MakeDay_carry (YearFromTime nl) _ (DateFromTime nl) Hm) as Bm.
  assert (0 <= msFromTime nl < 1000) as Hms
      by (apply Z.mod_pos_bound; reflexivity).
  eexists _, _, _, _.
  split; [reflexivity|]. split; [reflexivity|].
  split; [reflexivity|]. split; [reflexivity|].
  unfold newDate, getFullYear, getMonth, getDate, getHours, getMinutes, getSeconds,
    getMilliseconds. fold nl.
  rewrite !local_time_of_value by lia.
  rewrite Bm. rewrite <- HD in *.
  set (tm := nl + _ - msFromTime nl).
  set (ty := nl + _ - msFromTime nl).
  unfold UTC.
  pose proof (Hz now tm true false) as Zm.
  pose proof (Hz now ty true false) as Zy.
  assert (nl = now + LocalTZA now true) as Enl by reflexivity.
  unfold msPerDay in *.
  assert (tm = nl + DaysInMonth (YearFromTime nl) (MonthFromTime nl) * 86400000
               - msFromTime nl) as Etm by (unfold tm; lia).
  assert (nl + 365 * 86400000 - msFromTime nl <= ty
          <= nl + 366 * 86400000 - msFromTime nl) as Ety by (unfold ty; lia).
  clearbody tm ty nl.
  split; [lia|]. split; [lia|]. split; [lia|]. split; [lia|].
  split.
  { exists (LocalTZA now true - LocalTZA tm false).
    split; [exact Zm|]. split; [intros Hc; rewrite (Hc now tm true false); lia|].
    lia. }
  split; lia.
Qed.

Lemma expiry_order_witness :
  exists h d m y,
    calculateExpireTime Sample.utc Sample.january_31 "1H" = Ok h /\
    calculateExpireTime Sample.utc Sample.january_31 "1D" = Ok d /\
    calculateExpireTime Sample.utc Sample.january_31 "1M" = Ok m /\
    calculateExpireTime Sample.utc Sample.january_31 "1Y" = Ok y /\
    Sample.january_31 < h /\ h < d /\ d < m /\ m < y /\
    Sample.january_31 + 27 * msPerDay - 1000 < m <= Sample.january_31 + 32 * msPerDay.
Proof.
  destruct (expiry_order Sample.utc Sample.january_31) as
    (h & d & m & y & H1 & H2 & H3 & H4 & L1 & L2 & L3 & L4 & _ & B & _).
  - intros t u b c. vm_compute. discriminate.
  - vm_compute. discriminate.
  - exists h, d, m, y. repeat split; auto; apply B.
Defined.

End ExpiryOrder.

Section KeysAtTheGate.

Import ApiKeyService Spec Notions.

Lemma generateApiKey_truthy (r : list Byte.byte) : Js.truthy (generateApiKey r) = true.
Proof. reflexivity. Qed.

(** X12.  A key that [createApiKey] has just returned opens the wallet
    routes: presented in [x-api-key] without a bearer token, at any time up
    to its expiry, it passes both guards, and the handler runs as the user
    the key was created for, with exactly the permissions asked for at
    creation. *)
Theorem created_key_is_accepted {A : Type} (LocalTZA : Z -> bool -> Z) (env : KeyEnv) (userId : string)
  (createApiKeyDto : CreateApiKeyDto) (w w' : World) (res : ApiKeyResult)
  (jwtService : JwtAuthGuard.JwtService) (now : Z) (request : Request)
  (handler : Request -> M A) :
  createApiKey LocalTZA env userId createApiKeyDto w = (Ok res, w') ->
  header_authorization request = None ->
  header_x_api_key request = Some (api_key res) ->
  Js.startsWith (url request) "/keys" = false ->
  request_user request = None ->
  now <= expires_at res ->
  WalletController.UseGuards jwtService now request handler w' =
  handler
    (admitted request
       (option_map (fun u => {| id := user_id u |}) (findBy user_id userId (users w')))
       (permissions createApiKeyDto) (Some (new_key_id env))) w'.
Proof.
  intros H Ha Hk Hu Hr Hnow.
  apply createApiKey_Ok in H. destruct H as (t & H). cbv zeta in H.
  destruct H as (_ & _ & Hx & -> & ->). cbn [api_key expires_at] in *.
  rewrite (gate_api_key jwtService now request handler _ _ Ha Hk
             (generateApiKey_truthy _) Hu Hr).
  cbn [apiKeys users with_apiKeys]. unfold findBy at 1. rewrite find_app.
  rewrite (find_existsb_false _ (apiKey_clash _) _ Hx).
  2:{ intros k Hk'. unfold apiKey_clash. cbn [key_key]. rewrite Hk'.
      apply orb_true_r. }
  cbn [find key_key]. rewrite String.eqb_refl.
  cbn [key_revokedAt key_expiresAt key_userId key_permissions key_id].
  apply Z.ltb_ge in Hnow. rewrite Hnow. unfold admitted. rewrite Ha, Hk. reflexivity.
Qed.

Lemma created_key_is_accepted_witness :
  WalletController.UseGuards Sample.no_jwt Sample.january_31
    (request_to "/wallet/balance" None
       (Some (generateApiKey (key_random Sample.key_env))))
    (fun request => WalletController.require request "transfer")
    (snd (createApiKey Sample.utc Sample.key_env "user_a" Sample.new_key_dto
            Sample.world_old_keys))
  = (Ok tt, snd (createApiKey Sample.utc Sample.key_env "user_a" Sample.new_key_dto
                   Sample.world_old_keys)).
Proof.
  rewrite (created_key_is_accepted Sample.utc Sample.key_env "user_a" Sample.new_key_dto
             Sample.world_old_keys
             (snd (createApiKey Sample.utc Sample.key_env "user_a" Sample.new_key_dto
                     Sample.world_old_keys))
             {| api_key := generateApiKey (key_random Sample.key_env);
                expires_at := Sample.january_31 + 86400000;
                result_name := "wallet-service";
                result_permissions := ["deposit"; "transfer"; "read"]%string |}).
  - reflexivity.
  - vm_compute; reflexivity.
  - reflexivity.
  - reflexivity.
  - reflexivity.
  - reflexivity.
  - vm_compute; discriminate.
Defined.

(** What a revocation that returns has done. *)
Lemma revokeApiKey_inv (now : Z) (userId keyId : string) (w w' : World)
  (r : RevokeResult) :
  revokeApiKey now userId keyId w = (Ok r, w') ->
  exists k,
    findBy key_id keyId (apiKeys w) = Some k /\ key_userId k = userId /\
    r = {| revoke_message := "API key revoked successfully";
           revoked_id := key_id k;
           revoked_at := Some now |} /\
    w' = with_apiKeys (updateBy key_id keyId (set_revokedAt now) (apiKeys w)) w.
Proof.
  unfold revokeApiKey, bind, apiKey_findUnique_id, apiKey_update.
  destruct (findBy key_id keyId (apiKeys w)) as [k|] eqn:Hf; [|intros H; inversion H].
  destruct (String.eqb_spec (key_userId k) userId) as [E|E]; cbn [negb];
    [|intros H; inversion H].
  rewrite Hf. intros H. inversion H; subst. exists k. auto.
Qed.

(** X13.  A revoked key opens nothing: once [revokeApiKey] has returned for
    a key, a request that presents that key is refused by the gate with the
    403 exception for a revoked key, at every later time and for every
    route and handler, whether or not the key has also expired. *)
Theorem revoked_key_is_refused {A : Type} (now : Z) (userId keyId : string)
  (w w' : World) (r : RevokeResult) (k : ApiKey)
  (jwtService : JwtAuthGuard.JwtService) (later : Z) (request : Request)
  (handler : Request -> M A) :
  revokeApiKey now userId keyId w = (Ok r, w') ->
  findBy key_key (key_key k) (apiKeys w) = Some k -> key_id k = keyId ->
  header_authorization request = None ->
  header_x_api_key request = Some (key_key k) -> Js.truthy (key_key k) = true ->
  Js.startsWith (url request) "/keys" = false ->
  request_user request = None ->
  WalletController.UseGuards jwtService later request handler w' =
  (Throw (ForbiddenException "API key has been revoked"), w').
Proof.
  intros H Hf Hid Ha Hk Ht Hu Hr.
  apply revokeApiKey_inv in H. destruct H as (k0 & _ & _ & _ & ->).
  rewrite (gate_api_key jwtService later request handler _ _ Ha Hk Ht Hu Hr).
  cbn [apiKeys with_apiKeys]. unfold findBy in *.
  rewrite (find_updateBy key_id) by reflexivity.
  rewrite Hf. cbn [option_map].
  apply String.eqb_eq in Hid. rewrite Hid. reflexivity.
Qed.

Lemma revoked_key_is_refused_witness :
  WalletController.UseGuards Sample.no_jwt Sample.january_31
    (Sample.request_with_key "sk_live_3")
    (fun request => WalletController.require request "read")
    (snd (revokeApiKey Sample.january_31 "user_a" "key_3" Sample.world_five_keys))
  = (Throw (ForbiddenException "API key has been revoked"),
     snd (revokeApiKey Sample.january_31 "user_a" "key_3" Sample.world_five_keys)).
Proof.
  apply (revoked_key_is_refused Sample.january_31 "user_a" "key_3"
           Sample.world_five_keys _
           {| revoke_message := "API key revoked successfully";
              revoked_id := "key_3";
              revoked_at := Some Sample.january_31 |}
           (Sample.key "3" Sample.next_year None));
    reflexivity.
Defined.

(** X14.  [revokeApiKey] refuses a key that is not there (404) and a key of
    another user (403), in this order, and then writes nothing.  It does
    not refuse a key that is already revoked: a second revocation returns
    as the first did and replaces the time of revocation. *)
Theorem revokeApiKey_again (now again : Z) (userId keyId : string) (w : World) :
  (forall e w',
      revokeApiKey now userId keyId w = (Throw e, w') ->
      w' = w /\
      (e = NotFoundException "API key not found" /\
       findBy key_id keyId (apiKeys w) = None
       \/
       e = ForbiddenException "You do not have permission to revoke this key" /\
       exists k, findBy key_id keyId (apiKeys w) = Some k /\ key_userId k <> userId)) /\
  (forall r w',
      revokeApiKey now userId keyId w = (Ok r, w') ->
      exists r2 w2,
        revokeApiKey again userId keyId w' = (Ok r2, w2) /\
        revoked_id r2 = revoked_id r /\
        revoked_at r = Some now /\ revoked_at r2 = Some again /\
        forall k, In k (apiKeys w2) -> key_id k = keyId ->
                  key_revokedAt k = Some again).
Proof.
  split.
  - unfold revokeApiKey, bind, apiKey_findUnique_id, apiKey_update.
    intros e w'.
    destruct (findBy key_id keyId (apiKeys w)) as [k|] eqn:Hf.
    2:{ intros H. inversion H; subst. auto. }
    destruct (String.eqb_spec (key_userId k) userId) as [E|E]; cbn [negb].
    + rewrite Hf. intros H. inversion H.
    + intros H. inversion H; subst. split; [reflexivity|]. right.
      split; [reflexivity|]. exists k. auto.
  - intros r w' H. apply revokeApiKey_inv in H.
    destruct H as (k & Hf & Hown & -> & ->).
    assert (findBy key_id keyId (updateBy key_id keyId (set_revokedAt now) (apiKeys w))
            = Some (set_revokedAt now k)) as Hf'.
    { unfold findBy in *. rewrite (find_updateBy key_id) by reflexivity.
      rewrite Hf. cbn [option_map].
      destruct (findBy_Some key_id _ _ _ Hf) as [_ Hid].
      apply String.eqb_eq in Hid. now rewrite Hid. }
    eexists _, _. split.
    + unfold revokeApiKey, bind, apiKey_findUnique_id, apiKey_update.
      cbn [apiKeys with_apiKeys]. rewrite Hf'. cbn [key_userId set_revokedAt].
      apply String.eqb_eq in Hown. rewrite Hown. cbn [negb].
      cbn [apiKeys with_apiKeys]. rewrite Hf'. reflexivity.
    + cbn. repeat split; auto.
      intros k2 Hin Hid. apply In_updateBy in Hin. destruct Hin as (k1 & _ & ->).
      destruct (String.eqb_spec (key_id k1) keyId) as [E|E];
        [reflexivity | cbn in Hid; congruence].
Qed.

Lemma revokeApiKey_again_witness :
  exists r2 w2,
    revokeApiKey (Sample.january_31 + 5) "user_a" "key_gone"
      (snd (revokeApiKey Sample.january_31 "user_a" "key_gone" Sample.world_old_keys))
    = (Ok r2, w2) /\
    revoked_id r2 = "key_gone"%string /\
    Some Sample.january_31 = Some Sample.january_31 /\
    revoked_at r2 = Some (Sample.january_31 + 5) /\
    forall k, In k (apiKeys w2) -> key_id k = "key_gone"%string ->
              key_revokedAt k = Some (Sample.january_31 + 5).
Proof.
  apply (proj2 (revokeApiKey_again Sample.january_31 (Sample.january_31 + 5)
                  "user_a" "key_gone" Sample.world_old_keys)
           {| revoke_message := "API key revoked successfully";
              revoked_id := "key_gone";
              revoked_at := Some Sample.january_31 |}).
  reflexivity.
Defined.

End KeysAtTheGate.

Section Rollover.

Import ApiKeyService Spec Notions.

(** What a rollover that returns has done. *)
Lemma rolloverApiKey_Ok (LocalTZA : Z -> bool -> Z) (env : KeyEnv) (userId : string)
  (rolloverDto : RolloverApiKeyDto) (w w' : World) (res : ApiKeyResult) :
  rolloverApiKey LocalTZA env userId rolloverDto w = (Ok res, w') ->
  exists oldKey expiresAt,
    let newKey :=
      {| key_id := new_key_id env;
         key_userId := userId;
         key_name := key_name oldKey +++ " (rolled over)";
         key_key := generateApiKey (key_random env);
         key_permissions := key_permissions oldKey;
         key_expiresAt := expiresAt;
         key_revokedAt := None;
         key_rolledOverAt := None;
         key_rolledOverFrom := Some (key_id oldKey) |} in
    findBy key_id (expired_key_id rolloverDto) (apiKeys w) = Some oldKey /\
    key_userId oldKey = userId /\ key_revokedAt oldKey = None /\
    key_expiresAt oldKey < now_check env /\
    calculateExpireTime LocalTZA (now_expiry env) (rollover_expiry rolloverDto)
      = Ok expiresAt /\
    existsb (apiKey_clash newKey) (apiKeys w) = false /\
    expires_at res = expiresAt /\ api_key res = generateApiKey (key_random env) /\
    w' = with_apiKeys
           (updateBy key_id (key_id oldKey) (set_rolledOverAt (now_stamp env))
              (apiKeys w ++ [newKey])) w.
Proof.
  unfold rolloverApiKey, bind at 1, apiKey_findUnique_id.
  destruct (findBy key_id (expired_key_id rolloverDto) (apiKeys w)) as [oldKey|] eqn:Hf;
    [|intros H; inversion H].
  destruct (String.eqb_spec (key_userId oldKey) userId) as [E|E]; cbn [negb];
    [|intros H; inversion H].
  destruct (key_revokedAt oldKey) eqn:Hr; cbn [is_set negb].
  { rewrite andb_false_r. intros H. inversion H. }
  rewrite andb_true_r.
  destruct (Z.leb_spec (now_check env) (key_expiresAt oldKey)) as [L|L];
    [intros H; inversion H|].
  unfold bind, lift, apiKey_create, apiKey_update.
  destruct (calculateExpireTime LocalTZA (now_expiry env) (rollover_expiry rolloverDto))
    as [t|e] eqn:Ht; [|intros H; inversion H].
  destruct (existsb _ (apiKeys w)) eqn:Hx; [intros H; inversion H|].
  cbn [apiKeys with_apiKeys].
  destruct (findBy key_id (key_id oldKey) _); intros H; inversion H; subst.
  exists oldKey, t. cbv zeta. repeat split; auto.
Qed.

(** Rewriting rows in a way the test does not see keeps the count. *)
Lemma filter_updateBy_length {A : Type} (col : A -> string) (p : A -> bool)
  (v : string) (f : A -> A) (rows : list A) :
  (forall r, p (f r) = p r) ->
  List.length (filter p (updateBy col v f rows)) = List.length (filter p rows).
Proof.
  intros Hp. induction rows as [|a rows IH]; [reflexivity|].
  cbn [updateBy map filter]. fold (updateBy col v f rows).
  destruct (String.eqb (col a) v); rewrite ?Hp; destruct (p a); cbn [List.length];
    now rewrite IH.
Qed.

(** X15.  A rollover is not subject to the limit of five active keys: it
    never counts the keys, and when it returns the user has one more active
    key than before, however many that makes. *)
Theorem rollover_beyond_limit (LocalTZA : Z -> bool -> Z) (env : KeyEnv) (userId : string)
  (rolloverDto : RolloverApiKeyDto) (w w' : World) (res : ApiKeyResult) :
  rolloverApiKey LocalTZA env userId rolloverDto w = (Ok res, w') ->
  now_check env < expires_at res ->
  active_keys userId (now_check env) w' = S (active_keys userId (now_check env) w).
Proof.
  intros H Hlater. apply rolloverApiKey_Ok in H.
  destruct H as (oldKey & t & H). cbv zeta in H.
  destruct H as (_ & _ & _ & _ & _ & _ & Ht & _ & ->). subst t.
  unfold active_keys. cbn [apiKeys with_apiKeys].
  rewrite filter_updateBy_length by reflexivity.
  rewrite filter_app, length_app. cbn [filter].
  unfold active_for at 2. cbn [key_userId key_revokedAt key_expiresAt].
  rewrite String.eqb_refl. apply Z.ltb_lt in Hlater. rewrite Hlater.
  cbn. lia.
Qed.

Lemma rollover_beyond_limit_witness :
  active_keys "user_a" Sample.january_31 world_six_keys = 5%nat /\
  active_keys "user_a" Sample.january_31
    (snd (rolloverApiKey Sample.utc Sample.key_env "user_a" (Sample.rollover_dto "old")
            world_six_keys)) = 6%nat.
Proof.
  split; [reflexivity|].
  apply (rollover_beyond_limit Sample.utc Sample.key_env "user_a" (Sample.rollover_dto "old")
           world_six_keys _
           {| api_key := generateApiKey (key_random Sample.key_env);
              expires_at := Sample.march_3;
              result_name := "service old (rolled over)";
              result_permissions := ["read"; "deposit"]%string |}).
  - vm_compute. reflexivity.
  - reflexivity.
Defined.

(** X16.  How [rolloverApiKey] fails, and that it then writes nothing: no
    such key (404); a key of another user (403), tested before the state of
    the key; a key that has not expired or has been revoked (400); an
    expiry that is not a unit (400); a new row that repeats an identifier or
    a key, which, unlike in [createApiKey], reaches the caller as the
    database error it is. *)
Theorem rolloverApiKey_failure (LocalTZA : Z -> bool -> Z) (env : KeyEnv) (userId : string)
  (rolloverDto : RolloverApiKeyDto) (w w' : World) (e : Exception) :
  rolloverApiKey LocalTZA env userId rolloverDto w = (Throw e, w') ->
  w' = w /\
  match findBy key_id (expired_key_id rolloverDto) (apiKeys w) with
  | None => e = NotFoundException "API key not found"
  | Some oldKey =>
      if negb (String.eqb (key_userId oldKey) userId)
      then e = ForbiddenException "You do not have permission to rollover this key"
      else
        In e [BadRequestException
                "API key is still active. Only expired keys can be rolled over";
              BadRequestException
                "API key has been revoked. Only expired keys can be rolled over";
              BadRequestException "Invalid expiry unit";
              unique_violation]
  end.
Proof.
  unfold rolloverApiKey, bind at 1, apiKey_findUnique_id.
  destruct (findBy key_id (expired_key_id rolloverDto) (apiKeys w)) as [oldKey|] eqn:Hf.
  2:{ intros H. inversion H; subst. auto. }
  destruct (String.eqb_spec (key_userId oldKey) userId) as [E|E]; cbn [negb].
  2:{ intros H. inversion H; subst. auto. }
  destruct (key_revokedAt oldKey) eqn:Hr; cbn [is_set negb].
  { rewrite andb_false_r. intros H. inversion H; subst. cbn. auto. }
  rewrite andb_true_r.
  destruct (Z.leb_spec (now_check env) (key_expiresAt oldKey)) as [L|L].
  { intros H. inversion H; subst. cbn. auto. }
  unfold bind, lift, apiKey_create, apiKey_update.
  unfold calculateExpireTime.
  destruct (String.eqb (rollover_expiry rolloverDto) "1H");
    [|destruct (String.eqb (rollover_expiry rolloverDto) "1D");
      [|destruct (String.eqb (rollover_expiry rolloverDto) "1M");
        [|destruct (String.eqb (rollover_expiry rolloverDto) "1Y")]]].
  5:{ intros H. inversion H; subst. cbn. auto. }
  all: destruct (existsb _ (apiKeys w)) eqn:Hx;
    [intros H; inversion H; subst; cbn; auto 6|];
    cbn [apiKeys with_apiKeys]; unfold findBy; rewrite find_app;
    unfold findBy in Hf;
    destruct (findBy_Some key_id _ _ _ Hf) as [_ Hid]; rewrite Hid, Hf;
    intros H; inversion H.
Qed.

Lemma rolloverApiKey_failure_witness :
  Sample.world_old_keys = Sample.world_old_keys /\
  match findBy key_id (expired_key_id (Sample.rollover_dto "old"))
          (apiKeys Sample.world_old_keys) with
  | None =>
      ForbiddenException "You do not have permission to rollover this key"
      = NotFoundException "API key not found"
  | Some oldKey =>
      if negb (String.eqb (key_userId oldKey) "user_b")
      then ForbiddenException "You do not have permission to rollover this key"
           = ForbiddenException "You do not have permission to rollover this key"
      else
        In (ForbiddenException "You do not have permission to rollover this key")
           [BadRequestException
              "API key is still active. Only expired keys can be rolled over";
            BadRequestException
              "API key has been revoked. Only expired keys can be rolled over";
            BadRequestException "Invalid expiry unit";
            unique_violation]
  end.
Proof.
  apply (rolloverApiKey_failure Sample.utc Sample.key_env "user_b" (Sample.rollover_dto "old")
           Sample.world_old_keys Sample.world_old_keys).
  reflexivity.
Defined.

(** X17.  The instant of expiry is read three ways.  For a key that is not
    revoked, at the very millisecond [expiresAt]: the gate still accepts the
    key, a rollover is refused because the key is still active, and yet the
    key no longer counts towards the limit of five active keys. *)
Theorem expiry_instant {A : Type} (LocalTZA : Z -> bool -> Z) (env : KeyEnv) (userId : string)
  (rolloverDto : RolloverApiKeyDto) (w : World) (k : ApiKey)
  (jwtService : JwtAuthGuard.JwtService) (request : Request)
  (handler : Request -> M A) :
  findBy key_id (expired_key_id rolloverDto) (apiKeys w) = Some k ->
  findBy key_key (key_key k) (apiKeys w) = Some k ->
  key_userId k = userId -> key_revokedAt k = None ->
  now_check env = key_expiresAt k ->
  header_authorization request = None ->
  header_x_api_key request = Some (key_key k) -> Js.truthy (key_key k) = true ->
  Js.startsWith (url request) "/keys" = false ->
  request_user request = None ->
  WalletController.UseGuards jwtService (now_check env) request handler w =
    handler
      (admitted request
         (option_map (fun u => {| id := user_id u |}) (findBy user_id userId (users w)))
         (key_permissions k) (Some (key_id k))) w /\
  rolloverApiKey LocalTZA env userId rolloverDto w =
    (Throw (BadRequestException
              "API key is still active. Only expired keys can be rolled over"), w) /\
  active_for userId (now_check env) k = false.
Proof.
  intros Hf Hk Hown Hr Hnow Ha Hx Ht Hu Hru.
  split; [|split].
  - rewrite (gate_api_key jwtService _ request handler _ _ Ha Hx Ht Hu Hru).
    rewrite Hk, Hr, Hnow, Z.ltb_irrefl, Hown. unfold admitted.
    rewrite Ha, Hx. reflexivity.
  - unfold rolloverApiKey, bind, apiKey_findUnique_id.
    apply String.eqb_eq in Hown.
    rewrite Hf, Hown, Hr, Hnow, Z.leb_refl. reflexivity.
  - unfold active_for. rewrite Hnow, Z.ltb_irrefl. apply andb_false_r.
Qed.

Lemma expiry_instant_witness :
  let env :=
    {| now_check := Sample.next_year; now_expiry := Sample.next_year;
       now_stamp := Sample.next_year; key_random := key_random Sample.key_env;
       new_key_id := "key_new" |} in
  WalletController.UseGuards Sample.no_jwt Sample.next_year
    (Sample.request_with_key "sk_live_1")
    (fun request => WalletController.require request "read") Sample.world_five_keys
  = (Ok tt, Sample.world_five_keys) /\
  rolloverApiKey Sample.utc env "user_a" (Sample.rollover_dto "1") Sample.world_five_keys =
    (Throw (BadRequestException
              "API key is still active. Only expired keys can be rolled over"),
     Sample.world_five_keys) /\
  active_for "user_a" Sample.next_year (Sample.key "1" Sample.next_year None) = false.
Proof.
  intros env.
  apply (expiry_instant Sample.utc env "user_a" (Sample.rollover_dto "1") Sample.world_five_keys
           (Sample.key "1" Sample.next_year None) Sample.no_jwt
           (Sample.request_with_key "sk_live_1")
           (fun request => WalletController.require request "read"));
    reflexivity.
Defined.

End Rollover.

(** ** Bearer tokens *)

Section Bearer.

Import WalletService WalletController Notions.

(** The token the guard hands to the verifier. *)
Lemma gate_bearer {A : Type} (jwtService : JwtAuthGuard.JwtService) (now : Z)
  (request : Request) (handler : Request -> M A) (w : World) (h sub : string) :
  header_authorization request = Some h -> Js.truthy h = true ->
  Js.truthy (Js.trim (Js.replace "Bearer " EmptyString h)) = true ->
  jwtService (Js.trim (Js.replace "Bearer " EmptyString h)) = inl sub ->
  Js.truthy sub = true ->
  UseGuards jwtService now request handler w =
  handler (admitted request (Some {| id := sub |})
             ["deposit"; "transfer"; "read"]%string (apiKeyId request)) w.
Proof.
  intros Ha Hh Ht Hj Hs.
  unfold UseGuards, bind, JwtAuthGuard.canActivate.
  rewrite Ha. cbn [Js.truthy_opt]. rewrite Hh. cbn [negb andb].
  rewrite Ht. cbn [negb]. rewrite Hj. cbn [ret].
  unfold ApiKeyGuard.canActivate, ApiKeyGuard.user_has_id.
  cbn [request_user id]. rewrite Hs. unfold admitted. rewrite Ha. reflexivity.
Qed.

Lemma keys_bearer {A : Type} (jwtService : JwtAuthGuard.JwtService)
  (request : Request) (handler : Request -> M A) (w : World) (h sub : string) :
  header_authorization request = Some h -> Js.truthy h = true ->
  Js.truthy (Js.trim (Js.replace "Bearer " EmptyString h)) = true ->
  jwtService (Js.trim (Js.replace "Bearer " EmptyString h)) = inl sub ->
  ApiKeyController.UseGuards jwtService request handler w =
  handler (admitted request (Some {| id := sub |})
             ["deposit"; "transfer"; "read"]%string (apiKeyId request)) w.
Proof.
  intros Ha Hh Ht Hj.
  unfold ApiKeyController.UseGuards, bind, JwtAuthGuard.canActivate.
  rewrite Ha. cbn [Js.truthy_opt]. rewrite Hh. cbn [negb andb].
  rewrite Ht. cbn [negb]. rewrite Hj. cbn [ret].
  unfold admitted. rewrite Ha. reflexivity.
Qed.

(** X18.  A bearer token that verifies gives its subject every permission:
    on each wallet route the permission test passes and the service method
    runs for the subject of the token.  The [x-api-key] header is not
    looked at, so a key that is unknown, revoked, expired or short of the
    permission changes nothing. *)
Theorem bearer_grants_all (jwtService : JwtAuthGuard.JwtService) (now : Z)
  (request : Request) (w : World) (h sub : string) :
  header_authorization request = Some h -> Js.truthy h = true ->
  Js.truthy (Js.trim (Js.replace "Bearer " EmptyString h)) = true ->
  jwtService (Js.trim (Js.replace "Bearer " EmptyString h)) = inl sub ->
  Js.truthy sub = true ->
  getBalance jwtService now request w = getWalletBalance sub w /\
  (forall paystackService env depositDto,
      initializeDeposit jwtService now paystackService env request depositDto w =
      WalletService.initializeDeposit paystackService env sub depositDto w) /\
  (forall env transferDto,
      transfer jwtService now env request transferDto w =
      transferFunds env sub transferDto w) /\
  (forall get reference,
      DepositStatus.Controller.verifyDepositStatus jwtService now get request reference w =
      DepositStatus.Service.verifyDepositStatus get reference w) /\
  (forall createdAt,
      Listing.getTransactions jwtService now createdAt request w =
      Listing.getTransactionHistory createdAt sub 50 w).
Proof.
  intros Ha Hh Ht Hj Hs.
  unfold getBalance, initializeDeposit, transfer,
    DepositStatus.Controller.verifyDepositStatus, Listing.getTransactions.
  repeat split; intros;
    rewrite (gate_bearer jwtService now request _ w h sub Ha Hh Ht Hj Hs);
    reflexivity.
Qed.

Lemma bearer_grants_all_witness :
  let request :=
    request_to "/wallet/transfer" (Some "Bearer alice.jwt"%string)
      (Some "sk_live_gone"%string) in
  getBalance jwt_alice Sample.january_31 request Sample.world_old_keys
  = (Ok {| balance := JsNumber.of_Z 10000; balance_wallet_number := "4566678954356" |},
     Sample.world_old_keys) /\
  transfer jwt_alice Sample.january_31 Sample.transfer_env request (Sample.to_bob 3000)
    Sample.world_old_keys
  = transferFunds Sample.transfer_env "user_a" (Sample.to_bob 3000)
      Sample.world_old_keys.
Proof.
  intros request.
  pose proof (bearer_grants_all jwt_alice Sample.january_31 request
                Sample.world_old_keys "Bearer alice.jwt" "user_a"
                eq_refl eq_refl eq_refl eq_refl eq_refl) as (H1 & _ & H3 & _ & _).
  split; [exact H1 | apply H3].
Defined.

(** X19.  When an [Authorization] header is sent, the API key is no
    fall-back: a header that holds no token, and a token that does not
    verify, end the request with a 401 exception on the wallet routes and
    on the key routes alike, whatever [x-api-key] holds; nothing is
    written and no handler runs. *)
Theorem bearer_shadows_api_key {A : Type} (jwtService : JwtAuthGuard.JwtService)
  (now : Z) (request : Request) (handler : Request -> M A) (w : World) (h : string) :
  header_authorization request = Some h -> Js.truthy h = true ->
  let token := Js.trim (Js.replace "Bearer " EmptyString h) in
  (Js.truthy token = false ->
   UseGuards jwtService now request handler w =
     (Throw (UnauthorizedException "No JWT token provided"), w) /\
   ApiKeyController.UseGuards jwtService request handler w =
     (Throw (UnauthorizedException "No JWT token provided"), w)) /\
  (forall message,
      Js.truthy token = true -> jwtService token = inr message ->
      UseGuards jwtService now request handler w =
        (Throw (UnauthorizedException ("Invalid or expired JWT token: " +++ message)),
         w) /\
      ApiKeyController.UseGuards jwtService request handler w =
        (Throw (UnauthorizedException ("Invalid or expired JWT token: " +++ message)),
         w)).
Proof.
  intros Ha Hh token.
  unfold UseGuards, ApiKeyController.UseGuards, bind, JwtAuthGuard.canActivate.
  rewrite Ha. cbn [Js.truthy_opt]. rewrite Hh. cbn [negb andb]. fold token.
  split.
  - intros Ht. rewrite Ht. split; reflexivity.
  - intros message Ht Hm. rewrite Ht, Hm. split; reflexivity.
Qed.

Lemma bearer_shadows_api_key_witness :
  let request :=
    request_to "/wallet/balance" (Some "Bearer mallory.jwt"%string)
      (Some "sk_live_1"%string) in
  UseGuards jwt_alice Sample.january_31 request
    (fun request => require request "read") Sample.world_five_keys
  = (Throw (UnauthorizedException "Invalid or expired JWT token: invalid signature"),
     Sample.world_five_keys) /\
  UseGuards jwt_alice Sample.january_31
    (request_to "/wallet/balance" (Some bearer_no_break_space) (Some "sk_live_1"%string))
    (fun request => require request "read") Sample.world_five_keys
  = (Throw (UnauthorizedException "No JWT token provided"), Sample.world_five_keys) /\
  UseGuards jwt_alice Sample.january_31
    (request_to "/wallet/balance" None (Some "sk_live_1"%string))
    (fun request => require request "read") Sample.world_five_keys
  = (Ok tt, Sample.world_five_keys).
Proof.
  intros request. split; [|split; [|reflexivity]].
  - apply (proj2 (bearer_shadows_api_key jwt_alice Sample.january_31 request
                    (fun request => require request "read")
                    Sample.world_five_keys "Bearer mallory.jwt" eq_refl eq_refl)
             "invalid signature"%string eq_refl eq_refl).
  - apply (proj1 (bearer_shadows_api_key jwt_alice Sample.january_31
                    (request_to "/wallet/balance" (Some bearer_no_break_space)
                       (Some "sk_live_1"%string))
                    (fun request => require request "read")
                    Sample.world_five_keys bearer_no_break_space eq_refl eq_refl)
             eq_refl).
Defined.

(** X20.  The key routes take a bearer token and nothing else: without an
    [Authorization] header a request to a path under [/keys] is refused
    with the 401 exception that asks for a bearer token, whatever
    [x-api-key] holds, so an API key cannot create, revoke or roll over
    keys; with a token that verifies, the service method runs for the
    subject of the token. *)
Theorem keys_routes_need_bearer (LocalTZA : Z -> bool -> Z) (jwtService : JwtAuthGuard.JwtService)
  (request : Request) (w : World) :
  Js.startsWith (url request) "/keys" = true ->
  (Js.truthy_opt (header_authorization request) = false ->
   let refused {A : Type} : Result A * World :=
     (Throw (UnauthorizedException "Missing authentication: Bearer JWT required"), w) in
   (forall env createApiKeyDto,
       ApiKeyController.createApiKey LocalTZA jwtService env request createApiKeyDto w
       = refused) /\
   (forall now keyId,
       ApiKeyController.revokeApiKey jwtService now request keyId w = refused) /\
   (forall env rolloverDto,
       ApiKeyController.rolloverApiKey LocalTZA jwtService env request rolloverDto w
       = refused) /\
   (forall createdAt now,
       ApiKeyController.listApiKeys jwtService createdAt now request w = refused)) /\
  (forall h sub,
      header_authorization request = Some h -> Js.truthy h = true ->
      Js.truthy (Js.trim (Js.replace "Bearer " EmptyString h)) = true ->
      jwtService (Js.trim (Js.replace "Bearer " EmptyString h)) = inl sub ->
      (forall env createApiKeyDto,
          ApiKeyController.createApiKey LocalTZA jwtService env request createApiKeyDto w
          = ApiKeyService.createApiKey LocalTZA env sub createApiKeyDto w) /\
      (forall now keyId,
          ApiKeyController.revokeApiKey jwtService now request keyId w
          = ApiKeyService.revokeApiKey now sub keyId w) /\
      (forall env rolloverDto,
          ApiKeyController.rolloverApiKey LocalTZA jwtService env request rolloverDto w
          = ApiKeyService.rolloverApiKey LocalTZA env sub rolloverDto w) /\
      (forall createdAt now,
          ApiKeyController.listApiKeys jwtService createdAt now request w
          = Listing.listApiKeys createdAt now sub w)).
Proof.
  intros Hu. split.
  - intros Ha refused.
    unfold ApiKeyController.createApiKey, ApiKeyController.revokeApiKey,
      ApiKeyController.rolloverApiKey, ApiKeyController.listApiKeys,
      ApiKeyController.UseGuards, bind, JwtAuthGuard.canActivate.
    rewrite Ha, Hu. cbn [negb andb].
    destruct (Js.truthy_opt (header_x_api_key request)); repeat split.
  - intros h sub Ha Hh Ht Hj.
    unfold ApiKeyController.createApiKey, ApiKeyController.revokeApiKey,
      ApiKeyController.rolloverApiKey, ApiKeyController.listApiKeys.
    repeat split; intros;
      rewrite (keys_bearer jwtService request _ w h sub Ha Hh Ht Hj); reflexivity.
Qed.

Lemma keys_routes_need_bearer_witness :
  ApiKeyController.createApiKey Sample.utc jwt_alice Sample.key_env
    (request_to "/keys/create" None (Some "sk_live_live"%string))
    Sample.new_key_dto Sample.world_old_keys
  = (Throw (UnauthorizedException "Missing authentication: Bearer JWT required"),
     Sample.world_old_keys) /\
  ApiKeyController.revokeApiKey jwt_alice Sample.january_31
    (request_to "/keys/key_live/revoke" (Some "Bearer alice.jwt"%string) None)
    "key_live" Sample.world_old_keys
  = ApiKeyService.revokeApiKey Sample.january_31 "user_a" "key_live"
      Sample.world_old_keys.
Proof.
  split.
  - apply (proj1 (keys_routes_need_bearer Sample.utc jwt_alice
                    (request_to "/keys/create" None (Some "sk_live_live"%string))
                    Sample.world_old_keys eq_refl) eq_refl).
  - apply (proj2 (keys_routes_need_bearer Sample.utc jwt_alice
                    (request_to "/keys/key_live/revoke"
                       (Some "Bearer alice.jwt"%string) None)
                    Sample.world_old_keys eq_refl)
             "Bearer alice.jwt"%string "user_a"%string eq_refl eq_refl eq_refl eq_refl).
Defined.

End Bearer.

Section TokenAndKey.

Import WalletService WalletController Notions.

Lemma prefix_split (p t : string) :
  String.prefix p t = true -> exists r, t = p +++ r.
Proof.
  revert t. induction p as [|c p IH]; intros t H.
  - exists t. reflexivity.
  - destruct t as [|d t]; [discriminate|]. cbn in H.
    destruct (ascii_dec c d) as [->|]; [|discriminate].
    destruct (IH t H) as [r ->]. exists r. reflexivity.
Qed.

Lemma prefix_append (p r : string) : String.prefix p (p +++ r) = true.
Proof.
  induction p as [|c p IH]; [now destruct r|].
  cbn. destruct (ascii_dec c c); [exact IH | congruence].
Qed.

Lemma no_space_inv (c : ascii) (t : string) :
  no_space (String c t) = true ->
  Js.after_space (String c t) = None /\ no_space t = true.
Proof.
  cbn [no_space]. intros H. apply andb_true_iff in H. destruct H as [H1 H2].
  split; [|exact H2]. destruct (Js.after_space (String c t)); [discriminate | reflexivity].
Qed.

Lemma trimStart_no_space (t : string) : no_space t = true -> Js.trimStart t = t.
Proof.
  destruct t as [|c t]; [reflexivity|]. intros H.
  apply no_space_inv in H. destruct H as [H _].
  unfold Js.trimStart. cbn [String.length Js.strip]. now rewrite H.
Qed.

Lemma substring_all (s : string) : String.substring 0 (String.length s) s = s.
Proof. induction s as [|c s IH]; [reflexivity | cbn; now rewrite IH]. Qed.

(** Without white space in it, a token holds no [Bearer ] to replace and
    has nothing to trim. *)
Lemma replace_no_space (t : string) :
  no_space t = true -> Js.replace "Bearer " EmptyString t = t.
Proof.
  induction t as [|c t IH]; intros H; [reflexivity|].
  unfold Js.replace; fold Js.replace.
  destruct (String.prefix "Bearer " (String c t)) eqn:P.
  - apply prefix_split in P. destruct P as [r E]. rewrite E in H.
    change ("Bearer " +++ r)
      with (String "B" (String "e" (String "a" (String "r" (String "e"
              (String "r" (String " " r))))))) in H.
    do 6 (apply no_space_inv in H; destruct H as [_ H]).
    apply no_space_inv in H. destruct H as [H _]. discriminate H.
  - apply no_space_inv in H. destruct H as [_ H]. now rewrite IH.
Qed.

Lemma trim_no_space (t : string) : no_space t = true -> Js.trim t = t.
Proof.
  intros H. unfold Js.trim. rewrite (trimStart_no_space t H).
  induction t as [|c t IH]; [reflexivity|].
  cbn [Js.trimEnd]. unfold Js.blank. rewrite (trimStart_no_space _ H).
  apply no_space_inv in H. destruct H as [_ H]. now rewrite (IH H).
Qed.

Lemma replace_prefix (p rep s : string) :
  String.prefix p s = true ->
  Js.replace p rep s =
  rep +++ String.substring (String.length p) (String.length s - String.length p) s.
Proof. intros H. destruct s; cbn [Js.replace]; rewrite H; reflexivity. Qed.

Lemma substring_append (p t : string) (n : nat) :
  String.substring (String.length p) n (p +++ t) = String.substring 0 n t.
Proof. induction p as [|c p IH]; [reflexivity | exact IH]. Qed.

Lemma replace_scheme (t : string) :
  Js.replace "Bearer " EmptyString ("Bearer " +++ t) = t.
Proof.
  rewrite replace_prefix by apply prefix_append.
  rewrite substring_append, append_length, Nat.add_comm, Nat.add_sub.
  apply substring_all.
Qed.

(** X21.  Which token is verified.  For a token without white space, the
    header [Bearer <token>] and the header that holds the bare token are
    treated alike: the guard verifies exactly that token, lets the request
    through as the subject with every permission when it verifies, and
    otherwise refuses with the verifier's message.  The scheme is not
    required. *)
Theorem bearer_scheme_optional (jwtService : JwtAuthGuard.JwtService)
  (request : Request) (w : World) (t : string) :
  no_space t = true -> t <> EmptyString ->
  header_authorization request = Some ("Bearer " +++ t) \/
  header_authorization request = Some t ->
  JwtAuthGuard.canActivate jwtService request w =
  match jwtService t with
  | inl sub =>
      (Ok (admitted request (Some {| id := sub |})
             ["deposit"; "transfer"; "read"]%string (apiKeyId request)), w)
  | inr message =>
      (Throw (UnauthorizedException ("Invalid or expired JWT token: " +++ message)), w)
  end.
Proof.
  intros Hs Hne Hh.
  assert (Js.truthy t = true) as Ht by (destruct t; [congruence|reflexivity]).
  unfold JwtAuthGuard.canActivate.
  destruct Hh as [Hh|Hh]; rewrite Hh; cbn [Js.truthy_opt].
  - change (Js.truthy ("Bearer " +++ t)) with true. cbn [negb andb].
    rewrite replace_scheme, (trim_no_space t Hs), Ht. cbn [negb].
    unfold admitted. rewrite Hh. destruct (jwtService t); reflexivity.
  - rewrite Ht. cbn [negb andb].
    rewrite (replace_no_space t Hs), (trim_no_space t Hs), Ht. cbn [negb].
    unfold admitted. rewrite Hh. destruct (jwtService t); reflexivity.
Qed.

Lemma bearer_scheme_optional_witness :
  JwtAuthGuard.canActivate jwt_alice
    (request_to "/wallet/balance" (Some "alice.jwt"%string) None) Sample.world0
  = (Ok (admitted (request_to "/wallet/balance" (Some "alice.jwt"%string) None)
           (Some {| id := "user_a" |}) ["deposit"; "transfer"; "read"]%string None),
     Sample.world0).
Proof.
  apply (bearer_scheme_optional jwt_alice
           (request_to "/wallet/balance" (Some "alice.jwt"%string) None)
           Sample.world0 "alice.jwt" eq_refl).
  - discriminate.
  - right. reflexivity.
Defined.

(** X22.  An API key acts for the user who owns it, within its permissions.
    Presented without a bearer token, a key that is known, not revoked and
    not past its expiry runs the service method for its owner on the
    routes whose permission it lists ([read] for the balance and the status
    of a deposit, [deposit], [transfer]) and meets the 401 exception on the
    others, before anything is read or written. *)
Theorem api_key_acts_for_owner (jwtService : JwtAuthGuard.JwtService) (now : Z)
  (request : Request) (w : World) (k : ApiKey) (user : User) :
  header_authorization request = None ->
  header_x_api_key request = Some (key_key k) -> Js.truthy (key_key k) = true ->
  Js.startsWith (url request) "/keys" = false ->
  request_user request = None ->
  findBy key_key (key_key k) (apiKeys w) = Some k ->
  key_revokedAt k = None -> now <= key_expiresAt k ->
  findBy user_id (key_userId k) (users w) = Some user ->
  getBalance jwtService now request w =
    allowed (key_permissions k) "read" (getWalletBalance (key_userId k)) w /\
  (forall paystackService env depositDto,
      initializeDeposit jwtService now paystackService env request depositDto w =
      allowed (key_permissions k) "deposit"
        (WalletService.initializeDeposit paystackService env (key_userId k) depositDto)
        w) /\
  (forall env transferDto,
      transfer jwtService now env request transferDto w =
      allowed (key_permissions k) "transfer"
        (transferFunds env (key_userId k) transferDto) w) /\
  (forall get reference,
      DepositStatus.Controller.verifyDepositStatus jwtService now get request reference w =
      allowed (key_permissions k) "read"
        (DepositStatus.Service.verifyDepositStatus get reference) w) /\
  (forall createdAt,
      Listing.getTransactions jwtService now createdAt request w =
      allowed (key_permissions k) "read"
        (Listing.getTransactionHistory createdAt (key_userId k) 50) w).
Proof.
  intros Ha Hk Ht Hu Hr Hf Hrev Hnow Huser.
  destruct (findBy_Some user_id _ _ _ Huser) as [_ Hid].
  apply Z.ltb_ge in Hnow.
  unfold getBalance, initializeDeposit, transfer,
    DepositStatus.Controller.verifyDepositStatus, Listing.getTransactions, allowed.
  repeat split; intros;
    rewrite (gate_api_key jwtService now request _ w _ Ha Hk Ht Hu Hr);
    rewrite Hf, Hrev, Hnow, Huser;
    unfold require, bind, field, ApiKeyPermissions, CurrentUser,
      validateApiKeyPermission;
    cbn [apiKeyPermissions request_user option_map id ret];
    destruct (Js.includes (key_permissions k) _); cbn [negb];
    try reflexivity; rewrite Hid; reflexivity.
Qed.

Lemma api_key_acts_for_owner_witness :
  getBalance Sample.no_jwt Sample.january_31 (Sample.request_with_key "sk_live_1")
    Sample.world_five_keys
  = (Ok {| balance := JsNumber.of_Z 10000; balance_wallet_number := "4566678954356" |},
     Sample.world_five_keys) /\
  transfer Sample.no_jwt Sample.january_31 Sample.transfer_env
    (Sample.request_with_key "sk_live_1") (Sample.to_bob 3000) Sample.world_five_keys
  = (Throw not_permitted, Sample.world_five_keys).
Proof.
  pose proof (api_key_acts_for_owner Sample.no_jwt Sample.january_31
                (Sample.request_with_key "sk_live_1") Sample.world_five_keys
                (Sample.key "1" Sample.next_year None) Sample.alice
                eq_refl eq_refl eq_refl eq_refl eq_refl eq_refl eq_refl) as H.
  destruct H as (H1 & _ & H3 & _ & _); [vm_compute; discriminate | reflexivity |].
  split; [exact H1 | apply H3].
Defined.

End TokenAndKey.

(** ** The status of a deposit, and notifications without a reference *)

Section StatusAndPayload.

Import WalletService PaystackService PaystackVerification Spec Notions Ledger.
Import DepositStatus.Service.

(** X23.  [verifyDepositStatus] only reads.  It writes nothing; an unknown
    reference is a 404; otherwise the answer is the reference, the status and
    the amount as stored.  The gateway is asked only about a pending row
    that has a gateway reference, and its verdict is used for nothing but
    failing: when the gateway cannot confirm, the call throws the 500
    exception; when it reports the payment, even as paid, the status
    returned is still the stored one and the row stays pending. *)
Theorem verifyDepositStatus_reads_only (get : string -> AxiosGetResult)
  (reference : string) (w w' : World) (res : Result StatusResult) :
  verifyDepositStatus get reference w = (res, w') ->
  w' = w /\
  match findBy tx_reference reference (transactions w) with
  | None => res = Throw (NotFoundException "Transaction not found")
  | Some tx =>
      let stored :=
        Ok {| status_reference := tx_reference tx;
              status_status := tx_status tx;
              status_amount := tx_amount tx |} in
      let asks :=
        (Js.truthy_opt (tx_paystackRef tx) && is_pending (tx_status tx))%bool in
      (asks = false -> res = stored) /\
      (forall r, asks = true -> tx_paystackRef tx = Some r ->
         match get ("/transaction/verify/" +++ r) with
         | AxiosGetResponse true _ (Some _) => res = stored
         | _ => res = Throw (InternalServerErrorException
                               "Failed to verify payment. Please try again.")
         end)
  end.
Proof.
  unfold verifyDepositStatus, bind at 1, transaction_findUnique_reference.
  destruct (findBy tx_reference reference (transactions w)) as [tx|].
  2:{ intros H. inversion H; subst. auto. }
  cbv zeta.
  destruct (Js.truthy_opt (tx_paystackRef tx) && is_pending (tx_status tx))%bool eqn:Hasks.
  - destruct (tx_paystackRef tx) as [r|] eqn:Hr; [|discriminate].
    unfold bind, verifyTransaction, try_catch, throw, ret.
    intros H.
    assert (w' = w /\
            match get ("/transaction/verify/" +++ r) with
            | AxiosGetResponse true _ (Some _) =>
                res = Ok {| status_reference := tx_reference tx;
                            status_status := tx_status tx;
                            status_amount := tx_amount tx |}
            | _ => res = Throw (InternalServerErrorException
                                  "Failed to verify payment. Please try again.")
            end) as [-> Hres].
    { destruct (get ("/transaction/verify/" +++ r)) as [|[|] message [d|]];
        cbn in H; inversion H; subst; auto. }
    split; [reflexivity|]. split; [discriminate|].
    intros r' _ E. injection E as <-. exact Hres.
  - unfold bind, ret. intros H. inversion H; subst.
    split; [reflexivity|]. split; [reflexivity|]. discriminate.
Qed.

Lemma verifyDepositStatus_reads_only_witness :
  verifyDepositStatus gateway_paid "wallet_user_a_1704099600000_a1b2c3d4"
    (Sample.world_with_deposit pending)
  = (Ok {| status_reference := "wallet_user_a_1704099600000_a1b2c3d4";
           status_status := pending;
           status_amount := JsNumber.of_Z 5000 |},
     Sample.world_with_deposit pending).
Proof.
  destruct (verifyDepositStatus gateway_paid "wallet_user_a_1704099600000_a1b2c3d4"
              (Sample.world_with_deposit pending)) as [res w'] eqn:H.
  destruct (verifyDepositStatus_reads_only _ _ _ _ _ H) as [-> Hres].
  cbn in Hres. destruct Hres as [_ Hres].
  now rewrite (Hres "ref_1"%string eq_refl eq_refl).
Defined.

(** X25.  A notification that is signed and says [charge.success] but
    names no transaction is not acknowledged: without a [data] member, or
    with [data] null, the handler throws a [TypeError]; with a [data] whose
    [reference] is missing or is not a string, the look-up is refused by
    the database client.  Either way the caller gets a 500 and nothing is
    written. *)
Theorem webhook_without_reference (paystackService : PaystackService.t)
  (event : JSON.json) (signature : string) (w : World) :
  verifyWebhookSignature paystackService event signature = true ->
  JSON.prop event "event" = Some (Some (JSON.JStr "charge.success")) ->
  (forall r, ~ charge_success_for event r) ->
  exists e,
    handlePaystackWebhook paystackService event signature w = (Throw e, w) /\
    (e = TypeError \/ e = PrismaClientValidationError) /\
    (e = TypeError <->
     forall data, JSON.prop event "data" = Some (Some data) ->
                  JSON.prop data "reference" = None).
Proof.
  intros Hv He Hno.
  unfold handlePaystackWebhook, bind, member_of, member.
  rewrite Hv, He. cbn [negb is_charge_success]. cbn.
  destruct (JSON.prop event "data") as [[data|]|] eqn:Hd; cbn.
  - destruct (JSON.prop data "reference") as [[ref|]|] eqn:Hr; cbn.
    + destruct ref as [| | |r| |];
        try (exists PrismaClientValidationError; split; [reflexivity|];
             split; [now right|]; split; [discriminate|];
             intros H; specialize (H data eq_refl); congruence).
      exfalso. apply (Hno r). split; [exact He|]. exists data. auto.
    + exists PrismaClientValidationError. split; [reflexivity|].
      split; [now right|]. split; [discriminate|].
      intros H. specialize (H data eq_refl). congruence.
    + exists TypeError. split; [reflexivity|]. split; [now left|].
      split; [|reflexivity]. intros _ data' E. congruence.
  - exists TypeError. split; [reflexivity|]. split; [now left|].
    split; [|reflexivity]. intros _ data' E. congruence.
  - exists TypeError. split; [reflexivity|]. split; [now left|].
    split; [|reflexivity]. intros _ data' E. congruence.
Qed.

Lemma bare_notification_verified :
  verifyWebhookSignature Sample.paystack bare_notification
    bare_notification_signature = true.
Proof. vm_compute; reflexivity. Qed.

Lemma webhook_without_reference_witness :
  exists e,
    handlePaystackWebhook Sample.paystack bare_notification bare_notification_signature
      (Sample.world_with_deposit pending)
    = (Throw e, Sample.world_with_deposit pending) /\
    (e = TypeError \/ e = PrismaClientValidationError) /\
    (e = TypeError <->
     forall data, JSON.prop bare_notification "data" = Some (Some data) ->
                  JSON.prop data "reference" = None).
Proof.
  apply (webhook_without_reference Sample.paystack bare_notification
           bare_notification_signature (Sample.world_with_deposit pending)
           bare_notification_verified eq_refl).
  intros r (_ & data & Hd & _). discriminate Hd.
Defined.

End StatusAndPayload.

(** ** Listings *)

Section Listings.

Import WalletService Listing Notions.

Lemma insert_desc_perm {A : Type} (c : A -> Z) (r : A) (rows : list A) :
  Permutation (insert_desc c r rows) (r :: rows).
Proof.
  induction rows as [|x rows IH]; cbn; [reflexivity|].
  destruct (c x <=? c r); [reflexivity|].
  rewrite IH. apply perm_swap.
Qed.

Lemma orderBy_desc_perm {A : Type} (c : A -> Z) (rows : list A) :
  Permutation (orderBy_desc c rows) rows.
Proof.
  induction rows as [|x rows IH]; cbn; [reflexivity|].
  rewrite insert_desc_perm. now constructor.
Qed.

Lemma insert_desc_sorted {A : Type} (c : A -> Z) (r : A) (rows : list A) :
  newest_first c rows -> newest_first c (insert_desc c r rows).
Proof.
  unfold newest_first. induction 1 as [|x rows Hs IH Hx]; cbn.
  - repeat constructor.
  - destruct (Z.leb_spec (c x) (c r)) as [L|L].
    + constructor; [now constructor|].
      constructor; [exact L|].
      rewrite Forall_forall in Hx |- *. intros y Hy. specialize (Hx y Hy). lia.
    + constructor; [exact IH|].
      rewrite Forall_forall in Hx |- *. intros y Hy.
      apply (Permutation_in _ (insert_desc_perm c r rows)) in Hy.
      destruct Hy as [<-|Hy]; [lia | now apply Hx].
Qed.

Lemma orderBy_desc_sorted {A : Type} (c : A -> Z) (rows : list A) :
  newest_first c (orderBy_desc c rows).
Proof.
  induction rows as [|x rows IH]; cbn; [constructor|].
  now apply insert_desc_sorted.
Qed.

(** In a list sorted newest first, whatever [take] leaves out is no newer
    than what it keeps. *)
Lemma firstn_newest {A : Type} (c : A -> Z) (n : nat) (rows : list A) (a b : A) :
  newest_first c rows -> In a (firstn n rows) -> In b (skipn n rows) -> c b <= c a.
Proof.
  unfold newest_first. intros Hs. revert n.
  induction Hs as [|x rows Hs IH Hx]; intros [|n]; cbn; try tauto.
  intros [<-|Ha] Hb.
  - rewrite Forall_forall in Hx. apply Hx.
    rewrite <- (firstn_skipn n rows). apply in_or_app. now right.
  - now apply (IH n).
Qed.

Lemma In_firstn {A : Type} (n : nat) (l : list A) (a : A) :
  In a (firstn n l) -> In a l.
Proof.
  intros H. rewrite <- (firstn_skipn n l). apply in_or_app. now left.
Qed.

Lemma firstn_sorted {A : Type} (c : A -> Z) (n : nat) (rows : list A) :
  newest_first c rows -> newest_first c (firstn n rows).
Proof.
  unfold newest_first. intros Hs. revert n.
  induction Hs as [|x rows Hs IH Hx]; intros [|n]; cbn; try constructor.
  - apply IH.
  - rewrite Forall_forall in Hx |- *. intros y Hy. apply Hx.
    now apply (In_firstn n).
Qed.

Lemma filter_Permutation {A : Type} (p : A -> bool) (l l' : list A) :
  Permutation l l' -> Permutation (filter p l) (filter p l').
Proof.
  induction 1 as [|x l l' _ IH|x y l|l l' l'' _ IH1 _ IH2]; cbn.
  - constructor.
  - destruct (p x); [now constructor | exact IH].
  - destruct (p x), (p y); try reflexivity. apply perm_swap.
  - now transitivity (filter p l').
Qed.

Lemma map_at_constant {A B : Type} (f : Z -> A -> B) (now : nat -> Z) (t : Z)
  (l : list A) :
  (forall i, now i = t) -> forall i, map_at f now i l = map (f t) l.
Proof.
  intros Hc. induction l as [|x l IH]; intros i; cbn; [reflexivity|].
  now rewrite Hc, IH.
Qed.

Lemma map_at_map {A B C : Type} (f : Z -> A -> B) (g : B -> C) (h : A -> C)
  (now : nat -> Z) (l : list A) :
  (forall t x, g (f t x) = h x) -> forall i, map g (map_at f now i l) = map h l.
Proof.
  intros Hg. induction l as [|x l IH]; intros i; cbn; [reflexivity|].
  now rewrite Hg, IH.
Qed.

Lemma filter_map_length {A B : Type} (f : A -> B) (p : B -> bool) (l : list A) :
  List.length (filter p (map f l)) = List.length (filter (fun x => p (f x)) l).
Proof.
  induction l as [|x l IH]; cbn; [reflexivity|].
  destruct (p (f x)); cbn; now rewrite IH.
Qed.

(** X26.  The history of a user is taken from the rows of that user's
    wallet and from no other: [getTransactionHistory] writes nothing, is a
    404 without a wallet, and otherwise returns at most [limit] rows, all
    booked on the wallet of the user, newest first; a row of the wallet
    that is left out is no newer than any row returned, and nothing is left
    out when the wallet has no more than [limit] rows. *)
Theorem history_is_own_and_recent (createdAt : Transaction -> Z) (userId : string)
  (limit : nat) (w w' : World) (entries : list HistoryEntry) :
  getTransactionHistory createdAt userId limit w = (Ok entries, w') ->
  w' = w /\
  exists wallet rows,
    findBy wallet_userId userId (wallets w) = Some wallet /\
    entries = map (history_entry createdAt) rows /\
    (List.length rows <= limit)%nat /\
    (forall t, In t rows ->
               In t (transactions w) /\ tx_walletId t = wallet_id wallet) /\
    newest_first createdAt rows /\
    (forall t, In t (transactions w) -> tx_walletId t = wallet_id wallet ->
               In t rows \/ forall t', In t' rows -> createdAt t <= createdAt t') /\
    ((List.length (filter (fun t => String.eqb (tx_walletId t) (wallet_id wallet))
                     (transactions w)) <= limit)%nat ->
     Permutation rows
       (filter (fun t => String.eqb (tx_walletId t) (wallet_id wallet))
          (transactions w))).
Proof.
  unfold getTransactionHistory, bind, wallet_findUnique_userId,
    transaction_findMany_walletId, ret.
  destruct (findBy wallet_userId userId (wallets w)) as [wallet|] eqn:Hf;
    [|intros H; inversion H].
  intros H. injection H as He Hw. subst entries w'. split; [reflexivity|].
  set (own := filter (fun t => String.eqb (tx_walletId t) (wallet_id wallet))
                (transactions w)).
  set (sorted := orderBy_desc createdAt own).
  pose proof (orderBy_desc_perm createdAt own) as Hp. fold sorted in Hp.
  pose proof (orderBy_desc_sorted createdAt own) as Hs. fold sorted in Hs.
  exists wallet, (firstn limit sorted).
  split; [reflexivity|]. split; [reflexivity|].
  split; [apply firstn_le_length|].
  split; [|split; [|split]].
  - intros t Hin. apply In_firstn in Hin.
    apply (Permutation_in _ Hp) in Hin. unfold own in Hin.
    apply filter_In in Hin. destruct Hin as [Hin E].
    apply String.eqb_eq in E. auto.
  - now apply firstn_sorted.
  - intros t Hin Hw.
    assert (In t sorted) as Hin'.
    { apply (Permutation_in _ (Permutation_sym Hp)). unfold own.
      apply filter_In. split; [exact Hin | now apply String.eqb_eq]. }
    rewrite <- (firstn_skipn limit sorted) in Hin'. apply in_app_or in Hin'.
    destruct Hin' as [Hin'|Hin']; [now left|]. right.
    intros t' Ht'. now apply (firstn_newest createdAt limit sorted).
  - intros Hle. rewrite firstn_all2; [exact Hp|].
    now rewrite (Permutation_length Hp).
Qed.

Lemma history_is_own_and_recent_witness :
  map entry_id
    (match fst (getTransactionHistory sample_createdAt "user_a" 1
                  (Ledger.funded_with_deposit pending)) with
     | Ok entries => entries
     | Throw _ => []
     end) = ["tx_1"%string] /\
  exists wallet rows,
    findBy wallet_userId "user_a" (wallets (Ledger.funded_with_deposit pending))
      = Some wallet /\
    map (history_entry sample_createdAt) [Sample.deposit_tx pending]
      = map (history_entry sample_createdAt) rows /\
    (List.length rows <= 1)%nat.
Proof.
  split; [reflexivity|].
  destruct (history_is_own_and_recent sample_createdAt "user_a" 1
              (Ledger.funded_with_deposit pending) (Ledger.funded_with_deposit pending)
              (map (history_entry sample_createdAt) [Sample.deposit_tx pending])
              eq_refl) as (_ & wallet & rows & H1 & H2 & H3 & _).
  exists wallet, rows. auto.
Defined.

(** X27.  [listApiKeys] never throws and writes nothing; it returns one
    entry for each key of the user, the revoked and the expired ones
    included, each with the key in full; and with one reading of the clock
    the entries flagged [is_active] are as many as the keys that
    [createApiKey] counts against the limit at that time. *)
Theorem listing_counts_active (createdAt : ApiKey -> Z) (now : nat -> Z)
  (userId : string) (w : World) :
  exists entries,
    listApiKeys createdAt now userId w = (Ok entries, w) /\
    Permutation (map listed_key entries)
      (map key_key (filter (fun k => String.eqb (key_userId k) userId) (apiKeys w))) /\
    forall t, (forall i, now i = t) ->
              List.length (filter is_active entries) = active_keys userId t w.
Proof.
  unfold listApiKeys, try_catch, bind, apiKey_findMany_userId, ret.
  set (own := filter (fun k => String.eqb (key_userId k) userId) (apiKeys w)).
  pose proof (orderBy_desc_perm createdAt own) as Hp.
  eexists. split; [reflexivity|]. split.
  - rewrite (map_at_map (listed createdAt) listed_key key_key) by reflexivity.
    now apply Permutation_map.
  - intros t Ht. rewrite (map_at_constant _ _ t _ Ht), filter_map_length.
    rewrite (Permutation_length (filter_Permutation _ _ _ Hp)).
    unfold own, active_keys. cbn [is_active listed]. clear Hp own.
    induction (apiKeys w) as [|k ks IH]; [reflexivity|].
    cbn [filter]. unfold ApiKeyService.active_for at 1.
    destruct (String.eqb (key_userId k) userId); cbn [filter andb].
    + destruct (key_revokedAt k); cbn [ApiKeyService.is_set negb andb];
        [exact IH|].
      destruct (t <? key_expiresAt k); cbn [List.length]; now rewrite IH.
    + exact IH.
Qed.

Lemma listing_counts_active_witness :
  exists entries,
    listApiKeys key_expiresAt (fun _ => Sample.january_31) "user_a"
      Sample.world_old_keys = (Ok entries, Sample.world_old_keys) /\
    map listed_id entries = ["key_live"; "key_old"; "key_gone"]%string /\
    List.length (filter is_active entries) = 1%nat.
Proof.
  destruct (listing_counts_active key_expiresAt (fun _ => Sample.january_31) "user_a"
              Sample.world_old_keys) as (entries & H1 & _ & H3).
  exists entries. split; [exact H1|]. split.
  - vm_compute in H1. injection H1 as <-. reflexivity.
  - rewrite (H3 Sample.january_31 (fun _ => eq_refl)). reflexivity.
Defined.

End Listings.

(** ** Where money comes from *)

Section Settlement.

Import WalletService PaystackService PaystackVerification Spec Notions Ledger.
Import DepositStatus.Service.

(** X28.  Money enters the wallets through the webhook only, and only by
    settling a deposit.  In a store of whole balances and whole amounts,
    where crediting a stored row to its wallet stays within [2 ^ 53 - 1], a
    notification leaves the sum of all balances as it was, or it settles the
    row stored under the notified reference, which was not yet settled, and
    raises the sum by exactly the amount of that row. *)
Theorem webhook_raises_total (paystackService : PaystackService.t)
  (event : JSON.json) (signature : string) (w w' : World)
  (res : Result Acknowledgement) :
  NoDup (map wallet_id (wallets w)) ->
  (forall x, In x (wallets w) -> whole (wallet_balance x)) ->
  (forall t, In t (transactions w) -> whole (tx_amount t)) ->
  (forall t x,
      In t (transactions w) ->
      findBy wallet_id (tx_walletId t) (wallets w) = Some x ->
      Z.abs (JsNumber.to_Z (wallet_balance x) + JsNumber.to_Z (tx_amount t))
      <= JsNumber.max_safe) ->
  handlePaystackWebhook paystackService event signature w = (res, w') ->
  total_balance w' = total_balance w \/
  exists r tx,
    charge_success_for event r /\ by_paystackRef r w = Some tx /\
    tx_status tx <> success /\ res = Ok acknowledgement /\
    total_balance w' = total_balance w + JsNumber.to_Z (tx_amount tx).
Proof.
  intros Hn Hwb Hwa Hroom H.
  destruct (webhook_cases paystackService event signature w)
    as [(e & He)|[Ho|(r & tx & wl & Hv & Hcs & Hf & Hs & Hwl & Hset)]].
  - rewrite He in H. inversion H; subst. now left.
  - rewrite Ho in H. inversion H; subst. now left.
  - rewrite Hset in H. inversion H; subst w' res. right. exists r, tx.
    repeat (split; [assumption || reflexivity|]).
    destruct (findBy_Some _ _ _ _ Hwl) as [Hwin _].
    assert (In tx (transactions w)) as Htin
        by (unfold by_paystackRef in Hf; now apply find_some in Hf).
    destruct (Hwb wl Hwin) as [Bb Eb]. destruct (Hwa tx Htin) as [Ba Ea].
    pose proof (Hroom tx wl Htin Hwl) as Hsum.
    unfold total_balance, settled. cbn [wallets with_wallets].
    rewrite (sum_updateBy wallet_id (fun x => JsNumber.to_Z (wallet_balance x))
               _ _ wl Hn Hwin).
    cbn [wallet_balance set_balance].
    set (b := JsNumber.to_Z (wallet_balance wl)) in *.
    set (a := JsNumber.to_Z (tx_amount tx)) in *.
    rewrite Eb, Ea, add_exact, to_Z_of_Z by assumption. ring.
Qed.

Lemma webhook_raises_total_witness :
  total_balance (Sample.world_with_deposit pending) = 10000 /\
  (total_balance
     (snd (handlePaystackWebhook Sample.paystack Sample.notification
             Sample.notification_signature (Sample.world_with_deposit pending)))
   = total_balance (Sample.world_with_deposit pending) \/
   exists r tx,
     charge_success_for Sample.notification r /\
     by_paystackRef r (Sample.world_with_deposit pending) = Some tx /\
     tx_status tx <> success /\
     fst (handlePaystackWebhook Sample.paystack Sample.notification
            Sample.notification_signature (Sample.world_with_deposit pending))
     = Ok acknowledgement /\
     total_balance
       (snd (handlePaystackWebhook Sample.paystack Sample.notification
               Sample.notification_signature (Sample.world_with_deposit pending)))
     = total_balance (Sample.world_with_deposit pending)
       + JsNumber.to_Z (tx_amount tx)).
Proof.
  split; [reflexivity|].
  apply (webhook_raises_total Sample.paystack Sample.notification
           Sample.notification_signature (Sample.world_with_deposit pending)).
  - repeat constructor; cbn; intuition discriminate.
  - intros x [<-|[<-|[]]]; apply whole_of_Z; vm_compute; discriminate.
  - intros t [<-|[]]; apply whole_of_Z; vm_compute; discriminate.
  - intros t x [<-|[]] Hx.
    assert (Some x = Some Sample.walletA) as E by (rewrite <- Hx; reflexivity).
    injection E as ->. vm_compute. discriminate.
  - apply surjective_pairing.
Defined.

(** X29.  A deposit as seen through its status.  Once [initializeDeposit]
    has returned a reference, a signed [charge.success] notification for
    the gateway's reference is acknowledged, and from then on
    [verifyDepositStatus] answers for the returned reference with the
    status [success] and the amount asked for, without consulting the
    gateway and without writing. *)
Theorem deposit_status_follows (paystackService : PaystackService.t)
  (env : DepositEnv) (userId : string) (depositDto : CreateDepositDto)
  (w w1 : World) (res : DepositResult) :
  initializeDeposit paystackService env userId depositDto w = (Ok res, w1) ->
  (exists paystackRef tx,
      by_paystackRef paystackRef w1 = Some tx /\ tx_reference tx = reference res) /\
  forall paystackRef tx event signature,
    by_paystackRef paystackRef w1 = Some tx -> tx_reference tx = reference res ->
    verifyWebhookSignature paystackService event signature = true ->
    charge_success_for event paystackRef ->
    exists w2,
      handlePaystackWebhook paystackService event signature w1
        = (Ok acknowledgement, w2) /\
      forall get,
        verifyDepositStatus get (reference res) w2 =
        (Ok {| status_reference := reference res;
               status_status := success;
               status_amount := deposit_amount depositDto |}, w2).
Proof.
  intros H. apply initializeDeposit_Ok in H.
  destruct H as (wallet & user & message & d & Hw & _ & H). cbv zeta in H.
  destruct H as (_ & Hc & -> & ->). cbn [reference].
  set (ref := "wallet_" +++ userId +++ "_" +++ Js.string_of_Z (deposit_now env)
              +++ "_" +++ Crypto.toHex (Crypto.octets (deposit_random env))) in *.
  set (row := {| tx_id := deposit_txId env; tx_walletId := wallet_id wallet;
                 tx_type := deposit; tx_amount := deposit_amount depositDto;
                 tx_reference := ref;
                 tx_paystackRef := Some (data_reference d);
                 tx_status := pending; tx_description := None;
                 tx_paystackAuthorizationUrl := Some (data_authorization_url d) |})
    in *.
  set (w1 := with_transactions (transactions w ++ [row]) _).
  split.
  { exists (data_reference d), row. split; [|reflexivity].
    unfold by_paystackRef, w1. cbn [transactions with_transactions].
    rewrite find_app.
    rewrite (find_existsb_false _ (transaction_clash row) _ Hc).
    - cbn. now rewrite String.eqb_refl.
    - intros t Ht. unfold transaction_clash. cbn [tx_paystackRef row].
      rewrite Ht. now rewrite !orb_true_r. }
  intros paystackRef tx event signature Hby Href Hv Hcs.
  assert (tx = row) as ->.
  { unfold by_paystackRef, w1 in Hby. cbn [transactions with_transactions] in Hby.
    rewrite find_app in Hby.
    destruct (find _ (transactions w)) as [t|] eqn:Hf.
    - injection Hby as ->. apply find_some in Hf. destruct Hf as [Hin _].
      pose proof (existsb_false_forall _ _ _ Hc Hin) as Hcl.
      unfold transaction_clash in Hcl. cbn [tx_reference row] in Hcl.
      rewrite Href, String.eqb_refl, orb_true_r in Hcl. discriminate.
    - cbn in Hby. destruct (String.eqb _ _); congruence. }
  destruct (findBy_Some _ _ _ _ Hw) as [Hin _].
  destruct (findBy_In wallet_id _ _ Hin) as [wl Hwl].
  pose proof (webhook_charge_success paystackService event signature _ w1 Hv Hcs) as E.
  rewrite Hby in E. cbn [tx_status row tx_walletId] in E.
  change (wallets w1) with (wallets w) in E. rewrite Hwl in E.
  eexists. split; [exact E|].
  intros get.
  unfold verifyDepositStatus, bind, transaction_findUnique_reference, settled.
  cbn [transactions with_wallets with_transactions w1].
  unfold findBy. rewrite (find_updateBy tx_id) by reflexivity.
  rewrite find_app.
  rewrite (find_existsb_false _ (transaction_clash row) _ Hc).
  2:{ intros t Ht. unfold transaction_clash. cbn [tx_reference row].
      rewrite Ht. now rewrite orb_true_r. }
  cbn [find tx_reference row]. rewrite String.eqb_refl.
  cbn [option_map tx_id]. rewrite String.eqb_refl.
  cbn. rewrite andb_false_r. reflexivity.
Qed.

Lemma deposit_status_follows_witness :
  exists w1 w2,
    initializeDeposit Sample.paystack Sample.deposit_env "user_a"
      {| deposit_amount := JsNumber.of_Z 5000 |} Sample.world0
    = (Ok {| reference := "wallet_user_a_1704099600000_a1b2c3d4";
             authorization_url := "https://checkout.paystack.com/0peioxfhpn" |}, w1) /\
    handlePaystackWebhook Sample.paystack Sample.paid Sample.paid_signature w1
    = (Ok acknowledgement, w2) /\
    verifyDepositStatus gateway_paid "wallet_user_a_1704099600000_a1b2c3d4" w2
    = (Ok {| status_reference := "wallet_user_a_1704099600000_a1b2c3d4";
             status_status := success;
             status_amount := JsNumber.of_Z 5000 |}, w2).
Proof.
  exists (snd (initializeDeposit Sample.paystack Sample.deposit_env "user_a"
                 {| deposit_amount := JsNumber.of_Z 5000 |} Sample.world0)).
  destruct (proj2 (deposit_status_follows Sample.paystack Sample.deposit_env "user_a"
              {| deposit_amount := JsNumber.of_Z 5000 |} Sample.world0
              (snd (initializeDeposit Sample.paystack Sample.deposit_env "user_a"
                      {| deposit_amount := JsNumber.of_Z 5000 |} Sample.world0))
              {| reference := "wallet_user_a_1704099600000_a1b2c3d4";
                 authorization_url := "https://checkout.paystack.com/0peioxfhpn" |}
              eq_refl)
            "wallet_user_a_1704099600000_a1b2c3d4"%string
            {| tx_id := "tx_1"; tx_walletId := "wallet_a"; tx_type := deposit;
               tx_amount := JsNumber.of_Z 5000;
               tx_reference := "wallet_user_a_1704099600000_a1b2c3d4";
               tx_paystackRef := Some "wallet_user_a_1704099600000_a1b2c3d4"%string;
               tx_status := pending; tx_description := None;
               tx_paystackAuthorizationUrl :=
                 Some "https://checkout.paystack.com/0peioxfhpn"%string |}
            Sample.paid Sample.paid_signature eq_refl eq_refl sample_paid_verified)
    as (w2 & H1 & H2).
  { split; [reflexivity|]. eexists. split; reflexivity. }
  exists w2. split; [reflexivity|]. split; [exact H1|]. apply H2.
Defined.

End Settlement.

